(** * SpeedMimi: the request dispatch engine

    A shallow embedding of the Go sources

      - pkg/types/types.go              (Backend and its atomic accessors)
      - internal/loadbalancer           (the five balancers, IsTrustedProxy)
      - internal/config/config.go       (Manager.UpdateConfig, validateConfig)
      - internal/proxy/proxy.go         (handleRequest, findRoutingRule,
                                         getClientIP, the upstream registry)
      - internal/grpcservice/service.go (handleUpdateBackend)

    Conventions.  A Go [int] or [int64] is a [Z] in the range of [int64]
    and every arithmetic operation of the source is followed by [wrap64];
    a [uint32] is a [Z] reduced by [wrap32u].  A [string] is a [string].
    A Go [map] that the source iterates with [range] is the list of its
    entries in the order in which that [range] visits them (Go leaves the
    order unspecified, so two lists that are permutations of each other
    stand for the same map); a map that is only looked up and updated is
    a [gmap].  A [[]*Backend] is a list of addresses into a heap. *)

From Stdlib Require Import ZArith String Ascii Bool List Lia QArith DecimalString.
From stdpp Require Import gmap strings list.

Open Scope string_scope.
Open Scope Z_scope.

(** ** Machine integers *)

Module Int.

Definition min_int64 : Z := - 2 ^ 63.
Definition max_int64 : Z := 2 ^ 63 - 1.

(** Two's complement reduction of the result of an [int64] operation. *)
Definition wrap64 (z : Z) : Z := (z + 2 ^ 63) mod 2 ^ 64 - 2 ^ 63.

Definition wrap32u (z : Z) : Z := z mod 2 ^ 32.

Definition in_int64 (z : Z) : Prop := min_int64 <= z <= max_int64.

End Int.

Import Int.

(** ** The Go runtime and standard library, as far as the engine uses it *)

(** IEEE 754 double precision: conversion from an integer, the double
    nearest to the decimal literal [n/d], arithmetic and comparisons. *)
Class Float64Ops (float64 : Type) := {
  f_of_int : Z -> float64;
  f_lit : Z -> Z -> float64;
  f_add : float64 -> float64 -> float64;
  f_mul : float64 -> float64 -> float64;
  f_div : float64 -> float64 -> float64;
  f_ltb : float64 -> float64 -> bool;
  f_leb : float64 -> float64 -> bool;
  f_eqb : float64 -> float64 -> bool
}.

(** [sort.Slice]: an unstable comparison sort, of which the engine only
    relies on the result being a rearrangement of the argument. *)
Class GoSort := {
  sort_Slice : forall A : Type, (A -> A -> bool) -> list A -> list A
}.
Arguments sort_Slice {_ A} _ _.

(** Package [net]: [ParseIP], [ParseCIDR] (with [None] for an error) and
    the method [Contains] of an [IPNet]. *)
Class GoNet := {
  net_IP : Type;
  net_IPNet : Type;
  net_ParseIP : string -> option net_IP;
  net_ParseCIDR : string -> option net_IPNet;
  IPNet_Contains : net_IPNet -> net_IP -> bool
}.

(** Package [strings]. *)
Module strings.

(** [strings.Index]: the byte index of the first occurrence, or -1. *)
Definition Index (s substr : string) : Z :=
  match String.index 0 substr s with
  | Some n => Z.of_nat n
  | None => -1
  end.

Definition HasPrefix (s prefix : string) : bool := String.prefix prefix s.

(** The white space of [strings.TrimSpace] below U+0080: tab, line feed,
    vertical tab, form feed, carriage return and space. *)
Definition is_space (c : ascii) : bool :=
  let n := N_of_ascii c in
  ((9 <=? n) && (n <=? 13) || (n =? 32))%N.

Fixpoint trim_left (s : string) : string :=
  match s with
  | String c rest => if is_space c then trim_left rest else s
  | EmptyString => EmptyString
  end.

Fixpoint trim_right (s : string) : string :=
  match s with
  | String c rest =>
      match trim_right rest with
      | EmptyString => if is_space c then EmptyString else String c EmptyString
      | rest' => String c rest'
      end
  | EmptyString => EmptyString
  end.

Definition TrimSpace (s : string) : string := trim_right (trim_left s).

(** [s[:idx]] for an index inside the string. *)
Definition slice_to (s : string) (idx : Z) : string :=
  String.substring 0 (Z.to_nat idx) s.

End strings.

(** ** pkg/types: the backend entity *)

Section Engine.

Context {float64 : Type} {FO : Float64Ops float64} {GS : GoSort} {GN : GoNet}.

Record PerformanceInfo := {
  CPUUsage : float64;
  MemoryUsage : float64;
  LoadAvg1 : float64
}.

(** The fields of [types.Backend] that the dispatch engine reads or
    writes.  [Active] is the serialised flag, [active] its atomic mirror
    and [disconnect] the atomic drain mark. *)
Record Backend := {
  ID : string;
  Host : string;
  Port : Z;
  Weight : Z;
  Scheme : string;
  Active : bool;
  Connections : Z;
  MaxConn : Z;
  Performance : option PerformanceInfo;
  active : Z;
  disconnect : Z
}.

Definition with_Connections (b : Backend) (c : Z) : Backend :=
  {| ID := ID b; Host := Host b; Port := Port b; Weight := Weight b;
     Scheme := Scheme b; Active := Active b; Connections := c;
     MaxConn := MaxConn b; Performance := Performance b;
     active := active b; disconnect := disconnect b |}.

Definition with_MaxConn (b : Backend) (m : Z) : Backend :=
  {| ID := ID b; Host := Host b; Port := Port b; Weight := Weight b;
     Scheme := Scheme b; Active := Active b; Connections := Connections b;
     MaxConn := m; Performance := Performance b;
     active := active b; disconnect := disconnect b |}.

Definition with_disconnect (b : Backend) (d : Z) : Backend :=
  {| ID := ID b; Host := Host b; Port := Port b; Weight := Weight b;
     Scheme := Scheme b; Active := Active b; Connections := Connections b;
     MaxConn := MaxConn b; Performance := Performance b;
     active := active b; disconnect := d |}.

(** [sync/atomic] on the [Connections] word. *)
Definition atomic_LoadInt64 (b : Backend) : Z := Connections b.

Definition atomic_AddInt64 (b : Backend) (delta : Z) : Backend :=
  with_Connections b (wrap64 (Connections b + delta)).

Definition atomic_StoreInt64 (b : Backend) (v : Z) : Backend :=
  with_Connections b v.

Definition atomic_CompareAndSwapInt64 (b : Backend) (old new : Z)
  : Backend * bool :=
  if Connections b =? old then (with_Connections b new, true) else (b, false).

Definition GetConnections (b : Backend) : Z := atomic_LoadInt64 b.

Definition IncConnections (b : Backend) : Backend := atomic_AddInt64 b 1.

Definition SetConnections (b : Backend) (conns : Z) : Backend :=
  atomic_StoreInt64 b conns.

(** [DecConnections] run without interference: the loop body is entered
    once, because the compare-and-swap that follows the load succeeds. *)
Definition DecConnections (b : Backend) : Backend :=
  let current := atomic_LoadInt64 b in
  if current <=? 0 then b
  else fst (atomic_CompareAndSwapInt64 b current (wrap64 (current - 1))).

Definition IsActive (b : Backend) : bool := active b =? 1.

Definition SetActive (b : Backend) (a : bool) : Backend :=
  {| ID := ID b; Host := Host b; Port := Port b; Weight := Weight b;
     Scheme := Scheme b; Active := a; Connections := Connections b;
     MaxConn := MaxConn b; Performance := Performance b;
     active := (if a then 1 else 0); disconnect := disconnect b |}.

(** Modelled from the spec: [Backend.ShouldDisconnect] is called by
    the balancers but its body is not in pkg/types/types.go; the spec's
    [is_draining], as the repository's ASYNC_DISCONNECT_FIX.md prints
    it: a load of the atomic [disconnect] word compared with 1. *)
Definition ShouldDisconnect (b : Backend) : bool := disconnect b =? 1.

(** Modelled from the spec: [Backend.MarkForDisconnect], missing from
    pkg/types/types.go like [ShouldDisconnect]; the spec's
    [mark_draining], the atomic store of 1 in the [disconnect] word. *)
Definition MarkForDisconnect (b : Backend) : Backend := with_disconnect b 1.

(** Modelled from the spec: [Backend.IsConnectionLimitReached] is
    called by every balancer but its body is not in pkg/types/types.go;
    the spec's [at_connection_limit], [max_conn > 0 /\ get_connections()
    >= max_conn], as the repository's CONNECTION_LIMIT_FEATURE.md prints
    it. *)
Definition IsConnectionLimitReached (b : Backend) : bool :=
  if MaxConn b <=? 0 then false else MaxConn b <=? GetConnections b.

(** *** Interleaved execution of the gauge operations

    Every goroutine runs a sequence of calls.  [IncConnections] is a
    single atomic step.  [DecConnections] takes two kinds of step: the
    atomic load (with the test [current <= 0], which is local), and the
    compare-and-swap, after which the call either returns or goes round
    the loop again. *)

Inductive call := CallInc | CallDec.

Inductive pc :=
  | AtCall
  | DecLoaded (current : Z).

Record goroutine := { prog : list call; at_pc : pc }.

Definition step_goroutine (b : Backend) (g : goroutine) : Backend * goroutine :=
  match prog g, at_pc g with
  | [], _ => (b, g)
  | CallInc :: rest, _ => (IncConnections b, {| prog := rest; at_pc := AtCall |})
  | CallDec :: rest, AtCall =>
      let current := atomic_LoadInt64 b in
      if current <=? 0 then (b, {| prog := rest; at_pc := AtCall |})
      else (b, {| prog := prog g; at_pc := DecLoaded current |})
  | CallDec :: rest, DecLoaded current =>
      let '(b', swapped) :=
        atomic_CompareAndSwapInt64 b current (wrap64 (current - 1)) in
      if swapped then (b', {| prog := rest; at_pc := AtCall |})
      else (b', {| prog := prog g; at_pc := AtCall |})
  end.

(** One scheduling decision: goroutine [i] takes its next step. *)
Definition step (i : nat) (s : Backend * list goroutine)
  : Backend * list goroutine :=
  match s.2 !! i with
  | None => s
  | Some g =>
      let '(b', g') := step_goroutine s.1 g in (b', <[i := g']> s.2)
  end.

Definition run (sched : list nat) (s : Backend * list goroutine)
  : Backend * list goroutine :=
  foldl (fun s i => step i s) s sched.

(** A single goroutine making the calls one after the other. *)
Definition apply_call (b : Backend) (c : call) : Backend :=
  match c with
  | CallInc => IncConnections b
  | CallDec => DecConnections b
  end.

Definition apply_calls (cs : list call) (b : Backend) : Backend :=
  foldl apply_call b cs.

Definition count_inc (cs : list call) : Z :=
  Z.of_nat (length (List.filter (fun c => match c with CallInc => true | _ => false end) cs)).

Definition pending_inc (gs : list goroutine) : Z :=
  foldr (fun g acc => count_inc (prog g) + acc) 0 gs.

(** A goroutine between its load and its compare-and-swap holds a
    positive [current]. *)
Definition loaded_positive (g : goroutine) : Prop :=
  match at_pc g with
  | AtCall => True
  | DecLoaded current => 0 < current
  end.

(** The invariant of the interleaved execution: the gauge is not
    negative, the increments still to come fit in an [int64], and every
    pending decrement has loaded a positive value. *)
Definition gauge_inv (s : Backend * list goroutine) : Prop :=
  0 <= GetConnections s.1
  /\ GetConnections s.1 + pending_inc s.2 <= max_int64
  /\ Forall loaded_positive s.2.


(** ** internal/loadbalancer *)

(** What the engine reads of a [fasthttp.RequestCtx]. *)
Record RequestCtx := {
  ctx_Path : string;
  ctx_Headers : list (string * string);
  ctx_IsTLS : bool;
  ctx_RemoteIP : string
}.

(** A call of [SelectBackend] returns a backend or nil, or panics. *)
Inductive outcome :=
  | Returns (selected : option Backend)
  | Panics.

(** [slice[i]]: an index out of range panics. *)
Definition index_slice (l : list Backend) (i : Z) : outcome :=
  if i <? 0 then Panics
  else match l !! Z.to_nat i with
       | Some b => Returns (Some b)
       | None => Panics
       end.

(** The filter that four of the balancers apply. *)
Definition eligible (b : Backend) : bool :=
  IsActive b && negb (ShouldDisconnect b) && negb (IsConnectionLimitReached b).

(** The loop [if backend.GetConnections() < minConn { ... }]. *)
Definition min_connections_step (acc : Z * option Backend) (backend : Backend)
  : Z * option Backend :=
  if GetConnections backend <? acc.1
  then (GetConnections backend, Some backend) else acc.

Definition IPHashBalancer_getClientIP (req : RequestCtx) : string := "".

(** FNV-1a, 32 bits ([hash/fnv].New32a). *)
Definition fnv_offset32 : Z := 2166136261.
Definition fnv_prime32 : Z := 16777619.

Definition byte_of (c : ascii) : Z := Z.of_N (N_of_ascii c).

Definition IPHashBalancer_hashIP (ip : string) : Z :=
  foldl (fun h c => wrap32u (Z.lxor h (byte_of c) * fnv_prime32))
        fnv_offset32 (list_ascii_of_string ip).

Definition IPHashBalancer_selectRandom (backends : list Backend)
  : option Backend :=
  (foldl (fun acc backend =>
            if negb (IsActive backend) || ShouldDisconnect backend
               || IsConnectionLimitReached backend
            then acc else min_connections_step acc backend)
         (max_int64, None) backends).2.

(** The last three statements of [IPHashBalancer.SelectBackend]:
    [hash := b.hashIP(clientIP)], [index := int(hash) % len(...)],
    [return availableBackends[index]]. *)
Definition IPHashBalancer_hash_index (clientIP : string)
    (availableBackends : list Backend) : outcome :=
  let hash := IPHashBalancer_hashIP clientIP in
  let index := Z.rem (wrap64 hash) (Z.of_nat (length availableBackends)) in
  index_slice availableBackends index.

Definition IPHashBalancer_SelectBackend (backends : list Backend)
    (req : RequestCtx) : outcome :=
  if (length backends =? 0)%nat then Returns None else
  let availableBackends :=
    List.filter (fun b => negb (IsConnectionLimitReached b)) backends in
  if (length availableBackends =? 0)%nat then Returns None else
  let clientIP := IPHashBalancer_getClientIP req in
  if (clientIP =? "")%string
  then Returns (IPHashBalancer_selectRandom availableBackends)
  else IPHashBalancer_hash_index clientIP availableBackends.

Definition LeastConnectionsBalancer_SelectBackend (backends : list Backend)
    (req : RequestCtx) : outcome :=
  if (length backends =? 0)%nat then Returns None else
  let availableBackends := List.filter eligible backends in
  if (length availableBackends =? 0)%nat then Returns None else
  Returns (foldl min_connections_step (max_int64, None) availableBackends).2.

Record backendScore := { bs_backend : Backend; bs_score : float64 }.

Definition score_less (x y : backendScore) : bool :=
  f_ltb (bs_score x) (bs_score y).

(** The prefix of the sorted candidates whose score equals the first. *)
Fixpoint same_score_prefix (minScore : float64) (cs : list backendScore)
  : list backendScore :=
  match cs with
  | [] => []
  | c :: rest =>
      if f_eqb (bs_score c) minScore
      then c :: same_score_prefix minScore rest else []
  end.

(** [rand.New(rand.NewSource(time.Now().UnixNano())).Intn(n)]: [draw] is
    the number the freshly seeded generator produces; [Intn] panics
    when [n <= 0]. *)
Definition rand_Intn (draw : nat) (n : nat) : option nat :=
  match n with
  | O => None
  | S _ => Some (draw mod n)%nat
  end.

Definition LeastConnectionsWeightBalancer_SelectBackend
    (backends : list Backend) (req : RequestCtx) (draw : nat) : outcome :=
  if (length backends =? 0)%nat then Returns None else
  let candidates :=
    omap (fun backend =>
            if negb (IsActive backend) || ShouldDisconnect backend
               || IsConnectionLimitReached backend
            then None
            else
              let weight := if Weight backend <=? 0 then 1 else Weight backend in
              let connections := GetConnections backend in
              Some {| bs_backend := backend;
                      bs_score := f_div (f_of_int connections) (f_of_int weight) |})
         backends in
  if (length candidates =? 0)%nat then Returns None else
  let candidates := sort_Slice score_less candidates in
  match candidates with
  | [] => Panics
  | first :: _ =>
      let minScore := bs_score first in
      let sameScoreCandidates := same_score_prefix minScore candidates in
      match sameScoreCandidates with
      | [only] => Returns (Some (bs_backend only))
      | _ =>
          match rand_Intn draw (length sameScoreCandidates) with
          | None => Panics
          | Some index =>
              match sameScoreCandidates !! index with
              | Some c => Returns (Some (bs_backend c))
              | None => Panics
              end
          end
      end
  end.

(** The walk [currentWeight += backend.Weight; if r < currentWeight]. *)
Fixpoint weight_walk (r currentWeight : Z) (bs : list Backend)
  : option Backend :=
  match bs with
  | [] => None
  | backend :: rest =>
      let currentWeight := wrap64 (currentWeight + Weight backend) in
      if r <? currentWeight then Some backend
      else weight_walk r currentWeight rest
  end.

Definition WeightBalancer_SelectBackend (backends : list Backend)
    (req : RequestCtx) : outcome :=
  if (length backends =? 0)%nat then Returns None else
  let availableBackends := List.filter eligible backends in
  let totalWeight :=
    foldl (fun t b => wrap64 (t + Weight b)) 0 availableBackends in
  if (length availableBackends =? 0)%nat then Returns None else
  if totalWeight =? 0 then Returns None else
  let r := 0 in
  match weight_walk r 0 availableBackends with
  | Some backend => Returns (Some backend)
  | None => index_slice availableBackends 0
  end.

Definition CalculateUtilization (b : Backend) : float64 :=
  match Performance b with
  | None => f_lit 0 1
  | Some perf =>
      let cpuWeight := f_lit 4 10 in
      let memWeight := f_lit 4 10 in
      let loadWeight := f_lit 2 10 in
      let utilization :=
        f_add (f_add (f_mul (f_div (CPUUsage perf) (f_lit 100 1)) cpuWeight)
                     (f_mul (f_div (MemoryUsage perf) (f_lit 100 1)) memWeight))
              (f_mul (f_div (LoadAvg1 perf) (f_lit 100 1)) loadWeight) in
      if f_ltb (f_lit 1 1) utilization then f_lit 1 1 else utilization
  end.

Definition PerformanceLCWBalancer_calculateScore (backend : Backend)
  : float64 :=
  let connections := GetConnections backend in
  let weight := f_of_int (Weight backend) in
  let weight := if f_leb weight (f_lit 0 1) then f_lit 1 1 else weight in
  let utilization := CalculateUtilization backend in
  let connectionScore := f_div (f_of_int connections) weight in
  let performanceScore := f_mul utilization (f_lit 100 1) in
  f_add (f_mul connectionScore (f_lit 7 10))
        (f_mul performanceScore (f_lit 3 10)).

Definition PerformanceLCWBalancer_SelectBackend (backends : list Backend)
    (req : RequestCtx) : outcome :=
  if (length backends =? 0)%nat then Returns None else
  let candidates :=
    omap (fun backend =>
            if negb (IsActive backend) || ShouldDisconnect backend
               || IsConnectionLimitReached backend
            then None
            else Some {| bs_backend := backend;
                         bs_score := PerformanceLCWBalancer_calculateScore backend |})
         backends in
  if (length candidates =? 0)%nat then Returns None else
  match sort_Slice score_less candidates with
  | first :: _ => Returns (Some (bs_backend first))
  | [] => Panics
  end.

(** The closed set of [types.LoadBalancer] implementations. *)
Inductive LoadBalancer :=
  | IPHashBalancer
  | LeastConnectionsBalancer
  | LeastConnectionsWeightBalancer
  | WeightBalancer
  | PerformanceLCWBalancer.

Definition LoadBalancer_Name (lb : LoadBalancer) : string :=
  match lb with
  | IPHashBalancer => "ip_hash"
  | LeastConnectionsBalancer => "least_connections"
  | LeastConnectionsWeightBalancer => "least_connections_weight"
  | WeightBalancer => "weight"
  | PerformanceLCWBalancer => "performance_least_connections_weight"
  end.

Definition SelectBackend (lb : LoadBalancer) (backends : list Backend)
    (req : RequestCtx) (draw : nat) : outcome :=
  match lb with
  | IPHashBalancer => IPHashBalancer_SelectBackend backends req
  | LeastConnectionsBalancer => LeastConnectionsBalancer_SelectBackend backends req
  | LeastConnectionsWeightBalancer =>
      LeastConnectionsWeightBalancer_SelectBackend backends req draw
  | WeightBalancer => WeightBalancer_SelectBackend backends req
  | PerformanceLCWBalancer => PerformanceLCWBalancer_SelectBackend backends req
  end.

(** [Factory.GetBalancer]: the registered balancer, and
    [least_connections_weight] for an unknown type. *)
Definition Factory_GetBalancer (lbType : string) : LoadBalancer :=
  if (lbType =? "ip_hash")%string then IPHashBalancer
  else if (lbType =? "least_connections")%string then LeastConnectionsBalancer
  else if (lbType =? "least_connections_weight")%string
       then LeastConnectionsWeightBalancer
  else if (lbType =? "weight")%string then WeightBalancer
  else if (lbType =? "performance_least_connections_weight")%string
       then PerformanceLCWBalancer
  else LeastConnectionsWeightBalancer.

Definition ParseCIDR (cidr : string) : option net_IPNet := net_ParseCIDR cidr.

Definition IsTrustedProxy (ip : string) (trustedProxies : list string) : bool :=
  match net_ParseIP ip with
  | None => false
  | Some clientIP =>
      existsb (fun cidr =>
                 match ParseCIDR cidr with
                 | Some ipNet => IPNet_Contains ipNet clientIP
                 | None => false
                 end)
              trustedProxies
  end.

(** ** pkg/types: the configuration *)

Record ServerConfig := {
  Server_Host : string;
  Server_Port : Z;
  Server_MaxConn : Z;
  RealIPHeader : string;
  TrustedProxies : list string
}.

Record SSLConfig := {
  SSL_Enabled : bool;
  CertFile : string;
  KeyFile : string
}.

Record RoutingRule := {
  Path : string;
  Rule_Upstream : string;
  Rule_LoadBalancer : string;
  Protocols : list (string * string)
}.

Record Config := {
  Server : ServerConfig;
  SSL : SSLConfig;
  Backends : list (string * list Backend);
  Routing : list (string * RoutingRule)
}.

(** [m[key]] with the comma-ok form, on a map given by its entries. *)
Definition map_lookup {V : Type} (m : list (string * V)) (key : string)
  : option V :=
  match List.find (fun kv => (kv.1 =? key)%string) m with
  | Some kv => Some kv.2
  | None => None
  end.

(** ** internal/config: the manager *)

Inductive error :=
  | InvalidServerPort (port : Z)
  | SSLCertRequired
  | SSLKeyRequired
  | NoBackends (upstream : string)
  | BackendHostRequired (upstream : string)
  | InvalidBackendPort (port : Z) (upstream : string)
  | RuleUpstreamRequired (name : string)
  | RuleUpstreamNotFound (upstream name : string)
  | MarshalError
  | WriteFileError
  | InvalidConfig (cause : error)
  | FailedToSave (cause : error).

(** The first error of [check] along [l], as a [for ... range] loop that
    returns from inside its body. *)
Fixpoint first_error {A : Type} (check : A -> option error) (l : list A)
  : option error :=
  match l with
  | [] => None
  | x :: rest =>
      match check x with
      | Some e => Some e
      | None => first_error check rest
      end
  end.

Definition validateBackend (upstream : string) (backend : Backend)
  : option error :=
  if (Host backend =? "")%string then Some (BackendHostRequired upstream)
  else if (Port backend <=? 0) || (65535 <? Port backend)
       then Some (InvalidBackendPort (Port backend) upstream)
  else None.

Definition validateUpstream (entry : string * list Backend) : option error :=
  let '(upstream, backends) := entry in
  if (length backends =? 0)%nat then Some (NoBackends upstream)
  else first_error (validateBackend upstream) backends.

Definition validateRule (config : Config) (entry : string * RoutingRule)
  : option error :=
  let '(name, rule) := entry in
  if (Rule_Upstream rule =? "")%string then Some (RuleUpstreamRequired name)
  else match map_lookup (Backends config) (Rule_Upstream rule) with
       | None => Some (RuleUpstreamNotFound (Rule_Upstream rule) name)
       | Some _ => None
       end.

Definition validateConfig (config : Config) : option error :=
  if (Server_Port (Server config) <=? 0) || (65535 <? Server_Port (Server config))
  then Some (InvalidServerPort (Server_Port (Server config)))
  else if SSL_Enabled (SSL config) && (CertFile (SSL config) =? "")%string
       then Some SSLCertRequired
  else if SSL_Enabled (SSL config) && (KeyFile (SSL config) =? "")%string
       then Some SSLKeyRequired
  else match first_error validateUpstream (Backends config) with
       | Some e => Some e
       | None => first_error (validateRule config) (Routing config)
       end.

(** A watcher is a channel of capacity one: its buffer is empty or holds
    one configuration. *)
Record Manager := {
  config : Config;
  configPath : string;
  watchers : list (option Config)
}.

(** The files of the host, by path.  [yaml.Marshal] of a configuration
    is kept as the configuration itself. *)
Record World := {
  manager : Manager;
  disk : gmap string Config
}.

(** What the host does with this call of [saveConfig]: [yaml.Marshal]
    fails; or [os.WriteFile] writes the file; or it fails and leaves
    [left] at the path. *)
Inductive write_result :=
  | WriteOk
  | MarshalFails
  | WriteFails (left : option Config).

Definition saveConfig (io : write_result) (w : World) (cfg : Config)
  : option error * gmap string Config :=
  match io with
  | WriteOk => (None, <[configPath (manager w) := cfg]> (disk w))
  | MarshalFails => (Some MarshalError, disk w)
  | WriteFails None => (Some WriteFileError, delete (configPath (manager w)) (disk w))
  | WriteFails (Some c) => (Some WriteFileError, <[configPath (manager w) := c]> (disk w))
  end.

(** The non-blocking send [select { case watcher <- config: default: }]. *)
Definition notifyWatchers (ws : list (option Config)) (cfg : Config)
  : list (option Config) :=
  List.map (fun w => match w with None => Some cfg | Some c => Some c end) ws.

(** [UpdateConfig] on a candidate none of whose pointers is nil: what
    the call returns and the host after it.  [UpdateConfig_ptr] below is
    the function on the pointer it is handed, nil included. *)
Definition UpdateConfig (io : write_result) (w : World) (cfg : Config)
  : option error * World :=
  match validateConfig cfg with
  | Some err => (Some (InvalidConfig err), w)
  | None =>
      match saveConfig io w cfg with
      | (Some err, disk') =>
          (Some (FailedToSave err), {| manager := manager w; disk := disk' |})
      | (None, disk') =>
          (None,
           {| manager := {| config := cfg;
                            configPath := configPath (manager w);
                            watchers := notifyWatchers (watchers (manager w)) cfg |};
              disk := disk' |})
      end
  end.

(** ** internal/config: the candidate as the pointer it is *)

(** [UpdateConfig] is handed a pointer to a [types.Config]: the pointer
    can be nil (the admin endpoint passes the "config" member of the
    decoded request, also when it is absent or null), and so can each
    backend pointer of an upstream and each rule pointer of the routing
    map.  [None] is the nil pointer. *)
Record ConfigPtrs := {
  ptr_Server : ServerConfig;
  ptr_SSL : SSLConfig;
  ptr_Backends : list (string * list (option Backend));
  ptr_Routing : list (string * option RoutingRule)
}.

(** What a function that dereferences its argument comes to: it
    returns, or it panics on a nil pointer. *)
Inductive checked :=
  | Checked (err : option error)
  | NilDereference.

(** A [for ... range] loop that returns from inside its body at the
    first error, or panics there. *)
Fixpoint first_checked {A : Type} (check : A -> checked) (l : list A)
  : checked :=
  match l with
  | [] => Checked None
  | x :: rest =>
      match check x with
      | Checked None => first_checked check rest
      | stop => stop
      end
  end.

Definition validateBackend_ptr (upstream : string) (backend : option Backend)
  : checked :=
  match backend with
  | None => NilDereference
  | Some backend => Checked (validateBackend upstream backend)
  end.

Definition validateUpstream_ptr (entry : string * list (option Backend))
  : checked :=
  let '(upstream, backends) := entry in
  if (length backends =? 0)%nat then Checked (Some (NoBackends upstream))
  else first_checked (validateBackend_ptr upstream) backends.

Definition validateRule_ptr (config : ConfigPtrs)
    (entry : string * option RoutingRule) : checked :=
  let '(name, rule) := entry in
  match rule with
  | None => NilDereference
  | Some rule =>
      if (Rule_Upstream rule =? "")%string
      then Checked (Some (RuleUpstreamRequired name))
      else match map_lookup (ptr_Backends config) (Rule_Upstream rule) with
           | None => Checked (Some (RuleUpstreamNotFound (Rule_Upstream rule) name))
           | Some _ => Checked None
           end
  end.

(** [validateConfig] on the pointer: its first statement reads
    [config.Server.Port]. *)
Definition validateConfig_ptr (config : option ConfigPtrs) : checked :=
  match config with
  | None => NilDereference
  | Some config =>
      if (Server_Port (ptr_Server config) <=? 0)
         || (65535 <? Server_Port (ptr_Server config))
      then Checked (Some (InvalidServerPort (Server_Port (ptr_Server config))))
      else if SSL_Enabled (ptr_SSL config)
              && (CertFile (ptr_SSL config) =? "")%string
           then Checked (Some SSLCertRequired)
      else if SSL_Enabled (ptr_SSL config)
              && (KeyFile (ptr_SSL config) =? "")%string
           then Checked (Some SSLKeyRequired)
      else match first_checked validateUpstream_ptr (ptr_Backends config) with
           | Checked None =>
               first_checked (validateRule_ptr config) (ptr_Routing config)
           | stop => stop
           end
  end.

(** The configuration behind a candidate, its nil entries left out: when
    no pointer is nil this is the candidate itself. *)
Definition Config_of_ptrs (c : ConfigPtrs) : Config :=
  {| Server := ptr_Server c;
     SSL := ptr_SSL c;
     Backends := List.map (fun entry => (entry.1, omap (fun b => b) entry.2))
                          (ptr_Backends c);
     Routing := omap (fun entry => match entry.2 with
                                   | Some rule => Some (entry.1, rule)
                                   | None => None
                                   end)
                     (ptr_Routing c) |}.

Definition ptrs_of_Config (cfg : Config) : ConfigPtrs :=
  {| ptr_Server := Server cfg;
     ptr_SSL := SSL cfg;
     ptr_Backends := List.map (fun entry => (entry.1, List.map Some entry.2))
                              (Backends cfg);
     ptr_Routing := List.map (fun entry => (entry.1, Some entry.2))
                             (Routing cfg) |}.

Definition not_nil {A : Type} (p : option A) : bool :=
  match p with Some _ => true | None => false end.

(** No backend pointer and no rule pointer of the candidate is nil. *)
Definition nil_free (c : ConfigPtrs) : bool :=
  forallb (fun entry => forallb not_nil entry.2) (ptr_Backends c)
  && forallb (fun entry => not_nil entry.2) (ptr_Routing c).

Inductive returned :=
  | Returned (err : option error)
  | Panicked.

(** [UpdateConfig] on the pointer.  A panic leaves [validateConfig]
    before anything is written or assigned, and the deferred
    [m.mu.Unlock()] runs: the host is as it was. *)
Definition UpdateConfig_ptr (io : write_result) (w : World)
    (config : option ConfigPtrs) : returned * World :=
  match validateConfig_ptr config with
  | NilDereference => (Panicked, w)
  | Checked (Some err) => (Returned (Some (InvalidConfig err)), w)
  | Checked None =>
      match config with
      | None => (Panicked, w)
      | Some c =>
          let cfg := Config_of_ptrs c in
          match saveConfig io w cfg with
          | (Some err, disk') =>
              (Returned (Some (FailedToSave err)),
               {| manager := manager w; disk := disk' |})
          | (None, disk') =>
              (Returned None,
               {| manager :=
                    {| config := cfg;
                       configPath := configPath (manager w);
                       watchers := notifyWatchers (watchers (manager w)) cfg |};
                  disk := disk' |})
          end
      end
  end.

(** ** internal/proxy: the upstream registry *)

(** A [*types.Backend] is an address; the heap holds the objects. *)
Record Upstream := {
  name : string;
  backends : list nat
}.

Record UpstreamManager := {
  upstreams : list Upstream;
  names : gmap string nat
}.

Record ProxyServer := {
  srv_config : Config;
  upstreamMgr : UpstreamManager;
  heap : gmap nat Backend
}.

Definition UpstreamManager_GetUpstream (um : UpstreamManager) (name : string)
  : option Upstream :=
  match names um !! name with
  | Some index => upstreams um !! index
  | None => None
  end.

(** The live view: the addresses whose backend has both the atomic flag
    and the configuration flag set. *)
Definition Upstream_GetBackends (h : gmap nat Backend) (u : Upstream)
  : list nat :=
  List.filter (fun p => match h !! p with
                        | Some backend => IsActive backend && Active backend
                        | None => false
                        end)
              (backends u).

(** The objects behind a slice of addresses. *)
Definition deref (h : gmap nat Backend) (ps : list nat) : list Backend :=
  omap (fun p => h !! p) ps.

(** ** internal/proxy: the dispatcher *)

Definition Header_Peek (headers : list (string * string)) (key : string)
  : string :=
  match List.find (fun kv => (kv.1 =? key)%string) headers with
  | Some kv => kv.2
  | None => ""
  end.

Definition Server_getClientIP (cfg : Config) (ctx : RequestCtx) : string :=
  let fromHeader :=
    if negb (RealIPHeader (Server cfg) =? "")%string
    then Header_Peek (ctx_Headers ctx) (RealIPHeader (Server cfg)) else "" in
  if negb (fromHeader =? "")%string then fromHeader else
  let xff := Header_Peek (ctx_Headers ctx) "X-Forwarded-For" in
  let fromXff :=
    if negb (xff =? "")%string then
      let idx := strings.Index xff "," in
      if 0 <? idx then
        let ip := strings.TrimSpace (strings.slice_to xff idx) in
        if IsTrustedProxy ip (TrustedProxies (Server cfg)) then Some ip else None
      else None
    else None in
  match fromXff with
  | Some ip => ip
  | None => ctx_RemoteIP ctx
  end.

(** The loop of [findRoutingRule] over the entries of [cfg.Routing]. *)
Fixpoint first_prefix_match (path : string) (rules : list (string * RoutingRule))
  : option RoutingRule :=
  match rules with
  | [] => None
  | (_, rule) :: rest =>
      if strings.HasPrefix path (Path rule) then Some rule
      else first_prefix_match path rest
  end.

Definition Server_findRoutingRule (cfg : Config) (path : string)
  : option RoutingRule :=
  match first_prefix_match path (Routing cfg) with
  | Some rule => Some rule
  | None => map_lookup (Routing cfg) "default"
  end.

Definition Server_detectProtocol (ctx : RequestCtx) : string :=
  if (Header_Peek (ctx_Headers ctx) "Upgrade" =? "websocket")%string
  then "websocket"
  else if (Header_Peek (ctx_Headers ctx) "Accept" =? "text/event-stream")%string
       then "sse"
  else if ctx_IsTLS ctx then "https"
  else "http".

Definition Server_determineLBType (rule : RoutingRule) (ctx : RequestCtx)
  : string :=
  let protocol := Server_detectProtocol ctx in
  match map_lookup (Protocols rule) protocol with
  | Some lbType => lbType
  | None => Rule_LoadBalancer rule
  end.

(** What [handleRequest] does with the request: it answers with
    [ctx.Error(msg, status)], or hands it to [proxyRequest] for the
    selected backend, or panics inside the balancer. *)
Inductive response :=
  | CtxError (msg : string) (statusCode : Z)
  | ProxyRequest (backend : Backend)
  | HandlerPanics.

Definition StatusNotFound : Z := 404.
Definition StatusServiceUnavailable : Z := 503.

Definition Server_handleRequest (s : ProxyServer) (ctx : RequestCtx)
    (draw : nat) : response :=
  match Server_findRoutingRule (srv_config s) (ctx_Path ctx) with
  | None => CtxError "Not Found" StatusNotFound
  | Some rule =>
      match UpstreamManager_GetUpstream (upstreamMgr s) (Rule_Upstream rule) with
      | None => CtxError "Service Unavailable" StatusServiceUnavailable
      | Some upstream =>
          let backends := Upstream_GetBackends (heap s) upstream in
          if (length backends =? 0)%nat
          then CtxError "Service Unavailable" StatusServiceUnavailable
          else
            let lbType := Server_determineLBType rule ctx in
            let balancer := Factory_GetBalancer lbType in
            match SelectBackend balancer (deref (heap s) backends) ctx draw with
            | Returns None =>
                CtxError "Service Unavailable (All backends at connection limit)"
                         StatusServiceUnavailable
            | Returns (Some backend) => ProxyRequest backend
            | Panics => HandlerPanics
            end
      end
  end.

(** ** internal/grpcservice: the admin handler of PUT /api/v1/backends/update *)

(** The request as the handler sees it: the method, and the outcome of
    reading the body and decoding it into the request struct. *)
Inductive admin_body :=
  | ReadFails
  | InvalidJSON
  | UpdateBackendReq (UpstreamID BackendID : string) (MaxConn : Z).

Record AdminRequest := {
  Method : string;
  Body : admin_body
}.

Inductive admin_response :=
  | HttpError (msg : string) (code : Z)
  | JsonOk (success : bool) (message : string).

(** The loop [for _, backend := range backends { if backend.ID ==
    req.BackendID { backend.MaxConn = req.MaxConn; found = true; break } }]
    through the addresses of the live view. *)
Fixpoint update_first (h : gmap nat Backend) (ps : list nat)
    (backendID : string) (maxConn : Z) : gmap nat Backend * bool :=
  match ps with
  | [] => (h, false)
  | p :: rest =>
      match h !! p with
      | Some backend =>
          if (ID backend =? backendID)%string
          then (<[p := with_MaxConn backend maxConn]> h, true)
          else update_first h rest backendID maxConn
      | None => update_first h rest backendID maxConn
      end
  end.

Definition Server_handleUpdateBackend (s : ProxyServer) (r : AdminRequest)
  : admin_response * ProxyServer :=
  if negb (Method r =? "PUT")%string
  then (HttpError "Method not allowed" 405, s) else
  match Body r with
  | ReadFails => (HttpError "Failed to read request body" 400, s)
  | InvalidJSON => (HttpError "Invalid JSON" 400, s)
  | UpdateBackendReq upstreamID backendID maxConn =>
      if (upstreamID =? "")%string || (backendID =? "")%string
      then (HttpError "upstream_id and backend_id are required" 400, s) else
      match UpstreamManager_GetUpstream (upstreamMgr s) upstreamID with
      | None => (HttpError "upstream not found" 404, s)
      | Some upstream =>
          let backends := Upstream_GetBackends (heap s) upstream in
          let '(h', found) := update_first (heap s) backends backendID maxConn in
          if negb found then (HttpError "backend not found" 404, s)
          else (JsonOk true "Backend updated successfully",
                {| srv_config := srv_config s;
                   upstreamMgr := upstreamMgr s;
                   heap := h' |})
      end
  end.

(** ** internal/proxy: the rest of the registry *)

Definition NewUpstreamManager : UpstreamManager :=
  {| upstreams := []; names := ∅ |}.

(** [CreateUpstream] answers [None] for the error "upstream already
    exists". *)
Definition UpstreamManager_CreateUpstream (um : UpstreamManager)
    (name : string) (backends : list nat) : option Upstream * UpstreamManager :=
  match names um !! name with
  | Some _ => (None, um)
  | None =>
      let upstream := {| name := name; backends := backends |} in
      (Some upstream,
       {| upstreams := upstreams um ++ [upstream];
          names := <[name := length (upstreams um)]> (names um) |})
  end.

(** [RemoveUpstream] deletes the name and keeps the slot of the slice. *)
Definition UpstreamManager_RemoveUpstream (um : UpstreamManager)
    (name : string) : UpstreamManager :=
  match names um !! name with
  | Some index =>
      if (index <? length (upstreams um))%nat
      then {| upstreams := upstreams um; names := delete name (names um) |}
      else um
  | None => um
  end.

Definition Upstream_AddBackend (u : Upstream) (backend : nat) : Upstream :=
  {| name := name u; backends := backends u ++ [backend] |}.

(** The loop of [RemoveBackend]: the slice without the first address
    whose backend has the id. *)
Fixpoint remove_first_id (h : gmap nat Backend) (ps : list nat)
    (backendID : string) : list nat :=
  match ps with
  | [] => []
  | p :: rest =>
      match h !! p with
      | Some backend =>
          if (ID backend =? backendID)%string then rest
          else p :: remove_first_id h rest backendID
      | None => p :: remove_first_id h rest backendID
      end
  end.

Definition Upstream_RemoveBackend (h : gmap nat Backend) (u : Upstream)
    (backendID : string) : Upstream :=
  {| name := name u; backends := remove_first_id h (backends u) backendID |}.

(** The two loops of [initUpstreams] for one entry of [cfg.Backends]:
    every backend gets [SetActive(backend.Active)]. *)
Definition sync_active (h : gmap nat Backend) (ps : list nat)
  : gmap nat Backend :=
  foldl (fun h p => match h !! p with
                    | Some backend => <[p := SetActive backend (Active backend)]> h
                    | None => h
                    end) h ps.

(** [initUpstreams] over the entries of [cfg.Backends], each upstream
    with the addresses of its backends; it stops at the first upstream
    that [CreateUpstream] refuses and answers [Some name] for the error
    "failed to create upstream". *)
Fixpoint Server_initUpstreams (entries : list (string * list nat))
    (um : UpstreamManager) (h : gmap nat Backend)
  : option string * UpstreamManager * gmap nat Backend :=
  match entries with
  | [] => (None, um, h)
  | (upstream_name, ptrs) :: rest =>
      let h' := sync_active h ptrs in
      match UpstreamManager_CreateUpstream um upstream_name ptrs with
      | (None, um') => (Some upstream_name, um', h')
      | (Some _, um') => Server_initUpstreams rest um' h'
      end
  end.

(** [Server.DisconnectBackend]: the drain mark on the first backend of
    the live view that has the id. *)
Inductive disconnect_error :=
  | UpstreamNotFound (upstreamID : string)
  | BackendNotFound (backendID upstreamID : string).

Fixpoint mark_first (h : gmap nat Backend) (ps : list nat)
    (backendID : string) : option (gmap nat Backend) :=
  match ps with
  | [] => None
  | p :: rest =>
      match h !! p with
      | Some backend =>
          if (ID backend =? backendID)%string
          then Some (<[p := MarkForDisconnect backend]> h)
          else mark_first h rest backendID
      | None => mark_first h rest backendID
      end
  end.

Definition Server_DisconnectBackend (s : ProxyServer)
    (upstreamID backendID : string) : option disconnect_error * ProxyServer :=
  match UpstreamManager_GetUpstream (upstreamMgr s) upstreamID with
  | None => (Some (UpstreamNotFound upstreamID), s)
  | Some upstream =>
      match mark_first (heap s) (Upstream_GetBackends (heap s) upstream)
                       backendID with
      | Some h' =>
          (None, {| srv_config := srv_config s;
                    upstreamMgr := upstreamMgr s;
                    heap := h' |})
      | None => (Some (BackendNotFound backendID upstreamID), s)
      end
  end.

(** ** internal/grpcservice: POST /api/v1/backends/disconnect *)

Inductive disconnect_body :=
  | DisconnectReadFails
  | DisconnectInvalidJSON
  | DisconnectReq (UpstreamID BackendID : string).

(** The answer written by the handler, and the server once the
    goroutine that the handler starts has run. *)
Definition Server_handleDisconnectBackend (s : ProxyServer) (method : string)
    (body : disconnect_body) : admin_response * ProxyServer :=
  if negb (method =? "POST")%string
  then (HttpError "Method not allowed" 405, s) else
  match body with
  | DisconnectReadFails => (HttpError "Failed to read request body" 400, s)
  | DisconnectInvalidJSON =>
      (JsonOk true "Backend disconnect request accepted", s)
  | DisconnectReq upstreamID backendID =>
      (JsonOk true "Backend disconnect request accepted",
       if (upstreamID =? "")%string || (backendID =? "")%string then s
       else (Server_DisconnectBackend s upstreamID backendID).2)
  end.

(** ** internal/proxy: proxying *)

(** [Header.Set]: the value of the first header of that name is
    replaced, or the header is added. *)
Fixpoint Header_Set (headers : list (string * string)) (key value : string)
  : list (string * string) :=
  match headers with
  | [] => [(key, value)]
  | (k, v) :: rest =>
      if (k =? key)%string then (k, value) :: rest
      else (k, v) :: Header_Set rest key value
  end.

Definition Server_getProto (ctx : RequestCtx) : string :=
  if ctx_IsTLS ctx then "https" else "http".

(** [setProxyHeaders], with [host] for [ctx.Host()]: the headers of the
    request that goes to the backend. *)
Definition Server_setProxyHeaders (cfg : Config) (ctx : RequestCtx)
    (host : string) : list (string * string) :=
  let clientIP := Server_getClientIP cfg ctx in
  let existing := Header_Peek (ctx_Headers ctx) "X-Forwarded-For" in
  let h1 :=
    if (0 <? String.length existing)%nat
    then Header_Set (ctx_Headers ctx) "X-Forwarded-For"
                    (existing ++ ", " ++ clientIP)%string
    else Header_Set (ctx_Headers ctx) "X-Forwarded-For" clientIP in
  let h2 :=
    if negb (RealIPHeader (Server cfg) =? "")%string
    then Header_Set h1 (RealIPHeader (Server cfg)) clientIP else h1 in
  let h3 := Header_Set h2 "X-Forwarded-Proto" (Server_getProto ctx) in
  Header_Set h3 "X-Forwarded-Host" host.

(** What [client.Do] does with the request this time. *)
Inductive transport := DoSucceeds | DoFails.

Inductive proxied :=
  | Forwarded
  | ProxyError (msg : string) (statusCode : Z).

(** [proxyRequest] on the selected backend: the counter goes up, the
    request is sent, and the deferred [DecConnections] runs on every
    way out. *)
Definition Server_proxyRequest (t : transport) (backend : Backend)
  : proxied * Backend :=
  let counted := IncConnections backend in
  let answer := match t with
                | DoSucceeds => Forwarded
                | DoFails => ProxyError "Bad Gateway" 502
                end in
  (answer, DecConnections counted).

(** The calls that one goroutine makes on a backend while it serves [n]
    requests on it, one after the other. *)
Fixpoint request_calls (n : nat) : list call :=
  match n with
  | O => []
  | S n' => CallInc :: CallDec :: request_calls n'
  end.

(** A goroutine is in flight when it has counted its request up and not
    yet down. *)
Definition in_flight (g : goroutine) : Z :=
  match prog g with
  | CallDec :: _ => 1
  | _ => 0
  end.

Definition in_flight_total (gs : list goroutine) : Z :=
  foldr (fun g acc => in_flight g + acc) 0 gs.

(** The states of a goroutine that serves requests. *)
Definition serving (g : goroutine) : Prop :=
  (exists n, prog g = request_calls n /\ at_pc g = AtCall)
  \/ (exists n, prog g = CallDec :: request_calls n /\ loaded_positive g).

(** ** internal/config: defaults, loading and watching *)

(** [fmt.Sprintf("%d", n)]. *)
Definition Sprintf_d (n : Z) : string := NilZero.string_of_int (Z.to_int n).

(** The assignments of [setDefaults] to one backend of [upstream]. *)
Definition default_backend (upstream : string) (backend : Backend) : Backend :=
  {| ID := if (ID backend =? "")%string
           then (upstream ++ "-" ++ Host backend ++ "-"
                 ++ Sprintf_d (Port backend))%string
           else ID backend;
     Host := Host backend;
     Port := Port backend;
     Weight := if Weight backend =? 0 then 100 else Weight backend;
     Scheme := if (Scheme backend =? "")%string then "http" else Scheme backend;
     Active := Active backend;
     Connections := Connections backend;
     MaxConn := if MaxConn backend =? 0 then 1000 else MaxConn backend;
     Performance := Performance backend;
     active := active backend;
     disconnect := disconnect backend |}.

Definition default_rule (rule : RoutingRule) : RoutingRule :=
  {| Path := if (Path rule =? "")%string then "/" else Path rule;
     Rule_Upstream := Rule_Upstream rule;
     Rule_LoadBalancer :=
       if (Rule_LoadBalancer rule =? "")%string
       then "least_connections_weight" else Rule_LoadBalancer rule;
     Protocols := Protocols rule |}.

(** [setDefaults] on the fields of the configuration kept here (the
    timeouts and the health checks it also fills are not among them). *)
Definition setDefaults (cfg : Config) : Config :=
  {| Server :=
       {| Server_Host := Server_Host (Server cfg);
          Server_Port := Server_Port (Server cfg);
          Server_MaxConn := if Server_MaxConn (Server cfg) =? 0 then 10000
                            else Server_MaxConn (Server cfg);
          RealIPHeader := if (RealIPHeader (Server cfg) =? "")%string
                          then "X-Real-IP" else RealIPHeader (Server cfg);
          TrustedProxies := TrustedProxies (Server cfg) |};
     SSL := SSL cfg;
     Backends :=
       List.map (fun entry => (entry.1, List.map (default_backend entry.1) entry.2))
                (Backends cfg);
     Routing := List.map (fun entry => (entry.1, default_rule entry.2))
                         (Routing cfg) |}.

(** [loadConfig] after the file has been read and decoded into
    [parsed]: defaults, validation, and the configuration kept. *)
Definition loadConfig (parsed : Config) : error + Config :=
  let cfg := setDefaults parsed in
  match validateConfig cfg with
  | Some err => inl err
  | None => inr cfg
  end.

Definition Manager_GetConfig (m : Manager) : Config := config m.

(** [WatchConfig]: one more channel of capacity one, empty. *)
Definition Manager_WatchConfig (m : Manager) : Manager :=
  {| config := config m; configPath := configPath m;
     watchers := watchers m ++ [None] |}.

(** ** internal/monitor: the counters of the dispatcher *)

Record PerformanceMonitor := {
  totalRequests : Z;
  activeConnections : Z;
  totalBytesSent : Z;
  totalBytesRecv : Z;
  samplingEnabled : bool
}.

Definition RecordRequest (pm : PerformanceMonitor) (bytesSent bytesRecv : Z)
  : PerformanceMonitor :=
  if negb (samplingEnabled pm) then pm
  else {| totalRequests := wrap64 (totalRequests pm + 1);
          activeConnections := activeConnections pm;
          totalBytesSent := wrap64 (totalBytesSent pm + bytesSent);
          totalBytesRecv := wrap64 (totalBytesRecv pm + bytesRecv);
          samplingEnabled := samplingEnabled pm |}.

Definition StartConnection (pm : PerformanceMonitor) : PerformanceMonitor :=
  {| totalRequests := totalRequests pm;
     activeConnections := wrap64 (activeConnections pm + 1);
     totalBytesSent := totalBytesSent pm;
     totalBytesRecv := totalBytesRecv pm;
     samplingEnabled := samplingEnabled pm |}.

Definition EndConnection (pm : PerformanceMonitor) : PerformanceMonitor :=
  {| totalRequests := totalRequests pm;
     activeConnections := wrap64 (activeConnections pm + -1);
     totalBytesSent := totalBytesSent pm;
     totalBytesRecv := totalBytesRecv pm;
     samplingEnabled := samplingEnabled pm |}.

(** What [handleRequest] does to the monitor around one request:
    [StartConnection] on entry and, deferred, [RecordRequest] and
    [EndConnection]. *)
Definition handleRequest_monitor (pm : PerformanceMonitor)
    (bytesSent bytesRecv : Z) : PerformanceMonitor :=
  EndConnection (RecordRequest (StartConnection pm) bytesSent bytesRecv).

(** Every index of the name map points into the slice, as it does in
    a registry built by [CreateUpstream] and [RemoveUpstream]. *)
Definition registry_wf (um : UpstreamManager) : Prop :=
  forall name index, names um !! name = Some index ->
    (index < length (upstreams um))%nat.

(** The backend at an address has its atomic flag equal to its
    configured flag. *)
Definition synced (h : gmap nat Backend) (p : nat) : Prop :=
  forall backend, h !! p = Some backend -> IsActive backend = Active backend.

(** The invariant of goroutines serving requests on a backend whose
    gauge was [c0] when they started: the gauge is [c0] plus the number
    of requests in flight. *)
Definition accounting_inv (c0 : Z) (s : Backend * list goroutine) : Prop :=
  GetConnections s.1 = c0 + in_flight_total s.2
  /\ Forall serving s.2
  /\ 0 <= c0 /\ c0 + Z.of_nat (length s.2) <= max_int64.

(** ** The validation rules in the words of the specification *)

Definition port_in_range (p : Z) : Prop := 1 <= p <= 65535.

(** The five rules: server port outside [1, 65535]; TLS enabled without
    a cert or key path; an upstream with zero backends; a backend with
    empty host or port outside [1, 65535]; a routing rule whose upstream
    name has no backend entry. *)
Definition listed_violation (cfg : Config) : Prop :=
  ~ port_in_range (Server_Port (Server cfg))
  \/ (SSL_Enabled (SSL cfg) = true
      /\ (CertFile (SSL cfg) = "" \/ KeyFile (SSL cfg) = ""))
  \/ (exists upstream, (upstream, []) ∈ Backends cfg)
  \/ (exists upstream backends backend,
        (upstream, backends) ∈ Backends cfg /\ backend ∈ backends
        /\ (Host backend = "" \/ ~ port_in_range (Port backend)))
  \/ (exists name rule,
        (name, rule) ∈ Routing cfg
        /\ map_lookup (Backends cfg) (Rule_Upstream rule) = None).

(** The rule that the code checks besides: a routing rule whose
    upstream name is empty. *)
Definition empty_upstream_name (cfg : Config) : Prop :=
  exists name rule, (name, rule) ∈ Routing cfg /\ Rule_Upstream rule = "".

(** No entry of the routing map has a prefix of [path] as its path. *)
Definition no_prefix_match (path : string) (rules : list (string * RoutingRule))
  : Prop :=
  Forall (fun entry => strings.HasPrefix path (Path entry.2) = false) rules.

End Engine.

Arguments PerformanceInfo : clear implicits.
Arguments Backend : clear implicits.
Arguments backendScore : clear implicits.
Arguments outcome : clear implicits.
Arguments Config : clear implicits.
Arguments Manager : clear implicits.
Arguments World : clear implicits.
Arguments write_result : clear implicits.
Arguments ConfigPtrs : clear implicits.
Arguments ProxyServer : clear implicits.
Arguments Upstream_GetBackends {float64} h u.
Arguments response : clear implicits.

(** ** Instances of the runtime interfaces, to run the engine *)

(** Exact rational arithmetic in the place of [float64]. *)
#[export] Instance QFloat : Float64Ops Q := {
  f_of_int z := inject_Z z;
  f_lit n d := Qmake n (Z.to_pos d);
  f_add := Qplus;
  f_mul := Qmult;
  f_div := Qdiv;
  f_ltb x y := negb (Qle_bool y x);
  f_leb := Qle_bool;
  f_eqb := Qeq_bool
}.

(** Insertion sort in the place of [sort.Slice]. *)
Fixpoint insert_sorted {A : Type} (less : A -> A -> bool) (x : A) (l : list A)
  : list A :=
  match l with
  | [] => [x]
  | y :: rest =>
      if less y x then y :: insert_sorted less x rest else x :: l
  end.

Definition insertion_sort {A : Type} (less : A -> A -> bool) (l : list A)
  : list A :=
  foldr (insert_sorted less) [] l.

#[export] Instance InsertionSort : GoSort := {
  sort_Slice A := insertion_sort
}.

(** Dotted-decimal IPv4 addresses and their CIDR blocks in the place of
    package [net]. *)
Module IPv4.

Fixpoint split_on (sep : ascii) (s : string) : list string :=
  match s with
  | EmptyString => [EmptyString]
  | String c rest =>
      if Ascii.eqb c sep then EmptyString :: split_on sep rest
      else match split_on sep rest with
           | [] => [String c EmptyString]
           | part :: parts => String c part :: parts
           end
  end.

Definition digit (c : ascii) : option Z :=
  let n := Z.of_N (N_of_ascii c) in
  if (48 <=? n) && (n <=? 57) then Some (n - 48) else None.

Fixpoint decimal_from (acc : Z) (s : string) : option Z :=
  match s with
  | EmptyString => Some acc
  | String c rest =>
      match digit c with
      | Some d => decimal_from (10 * acc + d) rest
      | None => None
      end
  end.

Definition decimal (s : string) : option Z :=
  match s with
  | EmptyString => None
  | String "0" (String _ _) => None
  | _ => if (String.length s <=? 3)%nat then decimal_from 0 s else None
  end.

Definition ParseIP (s : string) : option Z :=
  match List.map decimal (split_on "." s) with
  | [Some a; Some b; Some c; Some d] =>
      if (a <=? 255) && (b <=? 255) && (c <=? 255) && (d <=? 255)
      then Some (((a * 256 + b) * 256 + c) * 256 + d) else None
  | _ => None
  end.

(** A block is its address and the length of its prefix. *)
Definition ParseCIDR (s : string) : option (Z * Z) :=
  match split_on "/" s with
  | [addr; len] =>
      match ParseIP addr, decimal len with
      | Some ip, Some n => if n <=? 32 then Some (ip, n) else None
      | _, _ => None
      end
  | _ => None
  end.

Definition Contains (block : Z * Z) (ip : Z) : bool :=
  Z.shiftr ip (32 - block.2) =? Z.shiftr block.1 (32 - block.2).

End IPv4.

#[export] Instance IPv4Net : GoNet := {
  net_IP := Z;
  net_IPNet := Z * Z;
  net_ParseIP := IPv4.ParseIP;
  net_ParseCIDR := IPv4.ParseCIDR;
  IPNet_Contains := IPv4.Contains
}.

(** ** Sample data *)

Module Sample.

Definition backend (id : string) (weight conns maxConn : Z) : Backend Q :=
  {| ID := id; Host := "127.0.0.1"; Port := 8081; Weight := weight;
     Scheme := "http"; Active := true; Connections := conns;
     MaxConn := maxConn; Performance := None; active := 1; disconnect := 0 |}.

Definition ctx (path : string) (headers : list (string * string))
    (peer : string) : RequestCtx :=
  {| ctx_Path := path; ctx_Headers := headers; ctx_IsTLS := false;
     ctx_RemoteIP := peer |}.

Definition rule (path upstream : string) : RoutingRule :=
  {| Path := path; Rule_Upstream := upstream;
     Rule_LoadBalancer := "least_connections_weight"; Protocols := [] |}.

Definition cfg (backends : list (string * list (Backend Q)))
    (routing : list (string * RoutingRule)) : Config Q :=
  {| Server := {| Server_Host := "0.0.0.0"; Server_Port := 8080;
                  Server_MaxConn := 10000; RealIPHeader := "X-Real-IP";
                  TrustedProxies := ["10.0.0.0/8"] |};
     SSL := {| SSL_Enabled := false; CertFile := ""; KeyFile := "" |};
     Backends := backends;
     Routing := routing |}.

(** A proxy with the single upstream "default" holding one backend at
    address 0. *)
Definition server (routing : list (string * RoutingRule)) (b : Backend Q)
  : ProxyServer Q :=
  {| srv_config := cfg [("default", [b])] routing;
     upstreamMgr := {| upstreams := [ {| name := "default"; backends := [0%nat] |} ];
                       names := {[ "default" := 0%nat ]} |};
     heap := {[ 0%nat := b ]} |}.

(** A registry that holds the upstream "default", with two backends,
    in slot 0. *)
Definition registry : UpstreamManager :=
  {| upstreams := [ {| name := "default"; backends := [0%nat; 1%nat] |} ];
     names := {[ "default" := 0%nat ]} |}.

(** A manager whose live configuration is also the content of its
    file, with one watcher whose channel is empty. *)
Definition world : World Q :=
  let live := cfg [("default", [backend "b1" 100 0 1000])]
                  [("default", rule "/" "default")] in
  {| manager := {| config := live; configPath := "configs/config.yaml";
                   watchers := [None] |};
     disk := {[ "configs/config.yaml" := live ]} |}.

(** Scenario 3 of the spec: three backends of weights 1, 2 and 3 with
    no connection limit. *)
Definition weighted : list (Backend Q) :=
  [backend "w1" 1 0 0; backend "w2" 2 0 0; backend "w3" 3 0 0].

(** One request served to its end through the weight policy: the
    selected backend is counted up, proxied to and counted down. *)
Definition serve (backends : list (Backend Q)) (req : RequestCtx)
  : option string * list (Backend Q) :=
  match SelectBackend WeightBalancer backends req 0 with
  | Returns (Some b) =>
      (Some (ID b),
       List.map (fun x => if (ID x =? ID b)%string
                          then DecConnections (IncConnections x) else x)
                backends)
  | _ => (None, backends)
  end.

(** The backends that [n] successive requests are sent to. *)
Fixpoint serve_many (n : nat) (backends : list (Backend Q)) (req : RequestCtx)
  : list (option string) :=
  match n with
  | O => []
  | S n' =>
      let '(picked, backends') := serve backends req in
      picked :: serve_many n' backends' req
  end.

Definition tally (id : string) (picks : list (option string)) : nat :=
  length (List.filter (fun p => match p with
                                | Some i => (i =? id)%string
                                | None => false
                                end) picks).

End Sample.

(** * Properties *)

(** ** Machine integers *)

Lemma wrap64_id z : in_int64 z -> wrap64 z = z.
Proof.
  unfold in_int64, min_int64, max_int64, wrap64. intros H.
  rewrite Z.mod_small; lia.
Qed.

Lemma wrap64_range z : in_int64 (wrap64 z).
Proof.
  unfold in_int64, min_int64, max_int64, wrap64.
  pose proof (Z.mod_pos_bound (z + 2 ^ 63) (2 ^ 64) ltac:(lia)). lia.
Qed.

(** ** The connections gauge *)

Section GaugeProperties.

Context {float64 : Type}.
Implicit Types (b : Backend float64) (g : goroutine) (gs : list goroutine).

Lemma count_inc_nonneg (cs : list call) : 0 <= count_inc cs.
Proof. unfold count_inc. lia. Qed.

Lemma count_inc_cons_inc (cs : list call) :
  count_inc (CallInc :: cs) = 1 + count_inc cs.
Proof. unfold count_inc. simpl. lia. Qed.

Lemma count_inc_cons_dec (cs : list call) :
  count_inc (CallDec :: cs) = count_inc cs.
Proof. reflexivity. Qed.

Lemma pending_inc_nonneg gs : 0 <= pending_inc gs.
Proof.
  induction gs as [|g gs IH]; simpl; [lia|].
  pose proof (count_inc_nonneg (prog g)). lia.
Qed.

Lemma pending_inc_insert gs i g g' :
  gs !! i = Some g ->
  pending_inc (<[i := g']> gs)
  = pending_inc gs - count_inc (prog g) + count_inc (prog g').
Proof.
  revert i. induction gs as [|g0 gs IH]; intros [|i] Hi; simpl in *;
    try discriminate.
  - injection Hi as ->. lia.
  - rewrite (IH i Hi). lia.
Qed.

Lemma GetConnections_Inc b :
  GetConnections b < max_int64 -> 0 <= GetConnections b ->
  GetConnections (IncConnections b) = GetConnections b + 1.
Proof.
  intros Hlt Hge. unfold IncConnections, atomic_AddInt64, GetConnections,
    atomic_LoadInt64 in *. simpl.
  apply wrap64_id. unfold in_int64, min_int64, max_int64 in *. lia.
Qed.

Lemma DecConnections_cases b :
  (GetConnections b <= 0 /\ DecConnections b = b)
  \/ (0 < GetConnections b
      /\ GetConnections (DecConnections b) = wrap64 (GetConnections b - 1)).
Proof.
  unfold DecConnections, GetConnections, atomic_LoadInt64,
    atomic_CompareAndSwapInt64.
  destruct (Z.leb_spec (Connections b) 0) as [Hle|Hgt]; [left; auto|right].
  rewrite Z.eqb_refl. simpl. auto.
Qed.

Lemma GetConnections_Dec_nonneg b :
  0 <= GetConnections b -> GetConnections b <= max_int64 ->
  0 <= GetConnections (DecConnections b) <= GetConnections b.
Proof.
  intros Hge Hle. destruct (DecConnections_cases b) as [[H0 ->]|[Hpos ->]].
  - lia.
  - rewrite wrap64_id; [lia|].
    unfold in_int64, min_int64, max_int64 in *. lia.
Qed.

Lemma apply_calls_nonneg (cs : list call) b :
  0 <= GetConnections b ->
  GetConnections b + count_inc cs <= max_int64 ->
  0 <= GetConnections (apply_calls cs b).
Proof.
  revert b. induction cs as [|c cs IH]; intros b Hge Hfit; simpl; [exact Hge|].
  pose proof (count_inc_nonneg cs) as Hcs.
  destruct c; simpl.
  - rewrite count_inc_cons_inc in Hfit.
    apply IH; rewrite GetConnections_Inc; lia.
  - rewrite count_inc_cons_dec in Hfit.
    pose proof (GetConnections_Dec_nonneg b Hge ltac:(lia)).
    apply IH; lia.
Qed.

Lemma step_preserves_inv i (s : Backend float64 * list goroutine) :
  gauge_inv s -> gauge_inv (step i s).
Proof.
  destruct s as [b gs]. unfold step. simpl.
  destruct (gs !! i) as [g|] eqn:Hi; [|auto].
  intros (Hge & Hfit & Hall). simpl in *.
  pose proof (pending_inc_insert gs i g) as Hins.
  assert (Hg : loaded_positive g).
  { rewrite Forall_forall in Hall. apply Hall.
    apply list_elem_of_lookup. eauto. }
  pose proof (pending_inc_nonneg gs) as Hpend.
  pose proof (count_inc_nonneg (prog g)) as Hcg.
  assert (Hmine : count_inc (prog g) <= pending_inc gs).
  { pose proof (pending_inc_nonneg (<[i := {| prog := []; at_pc := AtCall |}]> gs)) as H.
    rewrite (Hins _ Hi) in H. cbn [prog] in H. unfold count_inc in H at 2.
    simpl in H. lia. }
  assert (Hrest : forall g' b',
    0 <= GetConnections b' ->
    GetConnections b' + (pending_inc gs - count_inc (prog g) + count_inc (prog g'))
      <= max_int64 ->
    loaded_positive g' ->
    gauge_inv (b', <[i := g']> gs)).
  { intros g' b' H1 H2 H3. split; [exact H1|]. split.
    - simpl. rewrite (Hins g' Hi). exact H2.
    - simpl. apply Forall_insert; assumption. }
  unfold step_goroutine.
  destruct g as [[|[|] rest] p]; cbn [prog at_pc] in *.
  - apply Hrest; cbn [prog]; first [exact Hg | lia].
  - rewrite count_inc_cons_inc in *.
    pose proof (count_inc_nonneg rest).
    apply Hrest; cbn [prog]; [| |exact I];
      rewrite GetConnections_Inc; lia.
  - rewrite count_inc_cons_dec in *.
    destruct p as [|current].
    + unfold GetConnections in *.
      destruct (Z.leb_spec (atomic_LoadInt64 b) 0) as [Hle|Hgt];
        apply Hrest; cbn [prog]; rewrite ?count_inc_cons_dec;
        first [exact I | exact Hgt | lia].
    + unfold loaded_positive in Hg. cbn [at_pc] in Hg.
      unfold atomic_CompareAndSwapInt64.
      unfold GetConnections, atomic_LoadInt64 in *.
      destruct (Z.eqb_spec (Connections b) current) as [Heq|Hne].
      * assert (Hw : wrap64 (current - 1) = current - 1).
        { apply wrap64_id. unfold in_int64, min_int64, max_int64 in *. lia. }
        apply Hrest; cbn [prog Connections with_Connections];
          first [exact I | lia].
      * apply Hrest; cbn [prog]; rewrite ?count_inc_cons_dec;
          first [exact I | lia].
Qed.

Lemma run_preserves_inv (sched : list nat) (s : Backend float64 * list goroutine) :
  gauge_inv s -> gauge_inv (run sched s).
Proof.
  revert s. induction sched as [|i sched IH]; intros s Hs; simpl; [exact Hs|].
  apply IH, step_preserves_inv, Hs.
Qed.

(** C1 (as amended): for a backend whose gauge is not negative, every
    sequence of IncConnections and DecConnections calls whose increments
    do not carry the gauge past the largest int64 keeps
    GetConnections() >= 0; DecConnections on a gauge of 0 leaves it at 0;
    and this holds for every interleaving of the atomic steps (add,
    load, compare-and-swap) of concurrently running goroutines. *)
Theorem gauge_never_negative b :
  0 <= GetConnections b ->
  (GetConnections b = 0 -> GetConnections (DecConnections b) = 0)
  /\ (forall cs : list call,
        GetConnections b + count_inc cs <= max_int64 ->
        0 <= GetConnections (apply_calls cs b))
  /\ (forall gs (sched : list nat),
        Forall (fun g => at_pc g = AtCall) gs ->
        GetConnections b + pending_inc gs <= max_int64 ->
        0 <= GetConnections (run sched (b, gs)).1).
Proof.
  intros Hge. split; [|split].
  - intros H0. destruct (DecConnections_cases b) as [[_ ->]|[Hpos _]]; lia.
  - intros cs Hfit. apply apply_calls_nonneg; assumption.
  - intros gs sched Hat Hfit.
    apply (run_preserves_inv sched (b, gs)).
    split; [exact Hge|]. split; [exact Hfit|]. simpl.
    eapply Forall_impl; [exact Hat|].
    intros g Hg. unfold loaded_positive. rewrite Hg. exact I.
Qed.

(** C10: SetConnections stores its argument unchecked, so that after
    SetConnections(n) with n < 0 GetConnections observes the negative
    value n. *)
Theorem SetConnections_stores_negative b (n : Z) :
  n < 0 ->
  GetConnections (SetConnections b n) = n
  /\ GetConnections (SetConnections b n) < 0.
Proof.
  intros Hn. unfold GetConnections, SetConnections, atomic_StoreInt64,
    atomic_LoadInt64. simpl. lia.
Qed.

End GaugeProperties.

Lemma gauge_never_negative_witness :
  0 <= GetConnections (Sample.backend "b1" 100 1 0)
  /\ 0 <= GetConnections
            (apply_calls [CallDec; CallDec; CallInc] (Sample.backend "b1" 100 1 0))
  /\ 0 <= GetConnections
            (run [0; 1; 0; 1; 1; 1]%nat
                 (Sample.backend "b1" 100 1 0,
                  [ {| prog := [CallDec]; at_pc := AtCall |};
                    {| prog := [CallDec; CallInc]; at_pc := AtCall |} ])).1.
Proof.
  assert (H0 : 0 <= GetConnections (Sample.backend "b1" 100 1 0))
    by (vm_compute; discriminate).
  destruct (gauge_never_negative (Sample.backend "b1" 100 1 0) H0)
    as (_ & Hseq & Hpar).
  split; [exact H0|]. split.
  - apply Hseq. vm_compute. discriminate.
  - apply Hpar.
    + repeat constructor.
    + vm_compute. discriminate.
Defined.

(** C1 as stated fails where the gauge holds the largest int64:
    IncConnections wraps it to the smallest. *)
Lemma gauge_overflow_counterexample :
  ~ (forall (b : Backend Q) (cs : list call),
       0 <= GetConnections b -> 0 <= GetConnections (apply_calls cs b)).
Proof.
  intros H.
  specialize (H (Sample.backend "b1" 100 max_int64 0) [CallInc]).
  vm_compute in H. apply H; [intros E; discriminate E|reflexivity].
Qed.

Lemma SetConnections_stores_negative_witness :
  -1 < 0
  /\ GetConnections (SetConnections (Sample.backend "b1" 100 0 0) (-1)) = -1
  /\ GetConnections (SetConnections (Sample.backend "b1" 100 0 0) (-1)) < 0.
Proof.
  split; [lia|].
  apply (SetConnections_stores_negative (Sample.backend "b1" 100 0 0) (-1)). lia.
Defined.

(** ** The balancers *)

Section BalancerProperties.

Context {float64 : Type} {FO : Float64Ops float64} {GS : GoSort}.
Implicit Types (b backend : Backend float64) (backends : list (Backend float64)).

(** [sort.Slice] rearranges its argument. *)
Hypothesis sort_Slice_Permutation :
  forall (A : Type) (less : A -> A -> bool) (l : list A), sort_Slice less l ≡ₚ l.

(** The quotient of two converted integers with a positive divisor is
    not a NaN: it compares equal to itself. *)
Hypothesis quotient_not_nan :
  forall c w : Z, 0 < w ->
    f_eqb (f_div (f_of_int c) (f_of_int w)) (f_div (f_of_int c) (f_of_int w))
    = true.

Lemma skip_is_not_eligible b :
  negb (IsActive b) || ShouldDisconnect b || IsConnectionLimitReached b
  = negb (eligible b).
Proof.
  unfold eligible.
  destruct (IsActive b), (ShouldDisconnect b), (IsConnectionLimitReached b);
    reflexivity.
Qed.

Lemma min_connections_fold_elem backends (acc : Z * option (Backend float64)) b :
  (foldl min_connections_step acc backends).2 = Some b ->
  acc.2 = Some b \/ b ∈ backends.
Proof.
  revert acc. induction backends as [|x l IH]; intros acc H; simpl in *.
  - left. exact H.
  - apply IH in H as [H|H].
    + unfold min_connections_step in H.
      destruct (GetConnections x <? acc.1); simpl in H.
      * injection H as ->. right. left.
      * left. exact H.
    + right. right. exact H.
Qed.

Lemma selectRandom_eligible backends b :
  IPHashBalancer_selectRandom backends = Some b ->
  eligible b = true /\ b ∈ backends.
Proof.
  unfold IPHashBalancer_selectRandom.
  assert (G : forall acc : Z * option (Backend float64),
    (foldl (fun acc backend =>
              if negb (IsActive backend) || ShouldDisconnect backend
                 || IsConnectionLimitReached backend
              then acc else min_connections_step acc backend) acc backends).2
    = Some b ->
    acc.2 = Some b \/ (eligible b = true /\ b ∈ backends)).
  { induction backends as [|x l IH]; intros acc H; simpl in *.
    - left. exact H.
    - apply IH in H as [H|[He Hin]].
      + rewrite skip_is_not_eligible in H.
        destruct (eligible x) eqn:Hx; simpl in H.
        * unfold min_connections_step in H.
          destruct (GetConnections x <? acc.1); simpl in H.
          -- injection H as ->. right. split; [exact Hx|left].
          -- left. exact H.
        * left. exact H.
      + right. split; [exact He|right; exact Hin]. }
  intros H. apply G in H as [H|H]; [discriminate H|exact H].
Qed.

Lemma filter_elem {A : Type} (f : A -> bool) (l : list A) (x : A) :
  x ∈ List.filter f l <-> x ∈ l /\ f x = true.
Proof. rewrite !list_elem_of_In. apply filter_In. Qed.

Lemma IPHashBalancer_eligible backends req :
  exists selected,
    IPHashBalancer_SelectBackend backends req = Returns selected
    /\ forall b, selected = Some b -> eligible b = true /\ b ∈ backends.
Proof.
  unfold IPHashBalancer_SelectBackend, IPHashBalancer_getClientIP.
  destruct (length backends =? 0)%nat;
    [eexists; split; [reflexivity|discriminate]|].
  destruct (length (List.filter _ backends) =? 0)%nat;
    [eexists; split; [reflexivity|discriminate]|].
  simpl. eexists; split; [reflexivity|].
  intros b Hb. apply selectRandom_eligible in Hb as [He Hin].
  apply filter_elem in Hin as [Hin _]. auto.
Qed.

Lemma LeastConnectionsBalancer_eligible backends req :
  exists selected,
    LeastConnectionsBalancer_SelectBackend backends req = Returns selected
    /\ forall b, selected = Some b -> eligible b = true /\ b ∈ backends.
Proof.
  unfold LeastConnectionsBalancer_SelectBackend.
  destruct (length backends =? 0)%nat;
    [eexists; split; [reflexivity|discriminate]|].
  destruct (length (List.filter _ backends) =? 0)%nat;
    [eexists; split; [reflexivity|discriminate]|].
  eexists; split; [reflexivity|].
  intros b Hb. apply min_connections_fold_elem in Hb as [Hb|Hin];
    [discriminate Hb|].
  apply filter_elem in Hin as [Hin He]. auto.
Qed.

Lemma weight_walk_elem (r cw : Z) backends b :
  weight_walk r cw backends = Some b -> b ∈ backends.
Proof.
  revert cw. induction backends as [|x l IH]; intros cw H; simpl in H;
    [discriminate|].
  destruct (r <? wrap64 (cw + Weight x)).
  - injection H as ->. left.
  - right. eapply IH, H.
Qed.

Lemma WeightBalancer_eligible backends req :
  exists selected,
    WeightBalancer_SelectBackend backends req = Returns selected
    /\ forall b, selected = Some b -> eligible b = true /\ b ∈ backends.
Proof.
  unfold WeightBalancer_SelectBackend.
  destruct (length backends =? 0)%nat;
    [eexists; split; [reflexivity|discriminate]|].
  destruct (List.filter eligible backends) as [|x l] eqn:Hf; simpl length.
  - eexists; split; [reflexivity|discriminate].
  - cbn [Nat.eqb].
    destruct (_ =? 0); [eexists; split; [reflexivity|discriminate]|].
    assert (Hall : forall b, b ∈ x :: l -> eligible b = true /\ b ∈ backends).
    { intros b Hb. rewrite <- Hf in Hb. apply filter_elem in Hb as [? ?]. auto. }
    destruct (weight_walk 0 0 (x :: l)) as [b0|] eqn:Hw.
    + eexists; split; [reflexivity|].
      intros b [= <-]. apply Hall. eapply weight_walk_elem, Hw.
    + unfold index_slice. simpl.
      eexists; split; [reflexivity|].
      intros b [= <-]. apply Hall. left.
Qed.

Lemma same_score_prefix_elem (m : float64) (cs : list (backendScore float64)) c :
  c ∈ same_score_prefix m cs -> c ∈ cs.
Proof.
  induction cs as [|x l IH]; simpl; [auto|].
  destruct (f_eqb (bs_score x) m); [|intros H; inversion H].
  intros H. apply elem_of_cons in H as [->|H]; [left|right; auto].
Qed.

Lemma LeastConnectionsWeightBalancer_eligible backends req (draw : nat) :
  exists selected,
    LeastConnectionsWeightBalancer_SelectBackend backends req draw
    = Returns selected
    /\ forall b, selected = Some b -> eligible b = true /\ b ∈ backends.
Proof.
  unfold LeastConnectionsWeightBalancer_SelectBackend.
  destruct (length backends =? 0)%nat;
    [eexists; split; [reflexivity|discriminate]|].
  match goal with |- context [omap ?f backends] => set (mk := f) end.
  set (candidates := omap mk backends).
  destruct (length candidates =? 0)%nat eqn:Hlen;
    [eexists; split; [reflexivity|discriminate]|].
  apply Nat.eqb_neq in Hlen.
  assert (Hc : forall c, c ∈ candidates ->
            eligible (bs_backend c) = true /\ bs_backend c ∈ backends
            /\ f_eqb (bs_score c) (bs_score c) = true).
  { intros c Hin. apply list_elem_of_omap in Hin as (x & Hx & Hmk).
    unfold mk in Hmk. rewrite skip_is_not_eligible in Hmk.
    destruct (eligible x) eqn:He; simpl in Hmk; [|discriminate].
    injection Hmk as <-. simpl. split; [exact He|]. split; [exact Hx|].
    apply quotient_not_nan. destruct (Z.leb_spec (Weight x) 0); lia. }
  pose proof (sort_Slice_Permutation _ score_less candidates) as Hperm.
  destruct (sort_Slice score_less candidates) as [|first rest] eqn:Hs.
  { apply Permutation_length in Hperm. simpl in Hperm. lia. }
  assert (Hs' : forall c, c ∈ first :: rest -> c ∈ candidates).
  { intros c Hin. rewrite <- Hperm. exact Hin. }
  assert (Hfirst : f_eqb (bs_score first) (bs_score first) = true).
  { apply Hc, Hs'. left. }
  cbn [same_score_prefix]. rewrite Hfirst.
  destruct (same_score_prefix (bs_score first) rest) as [|second more] eqn:Hp.
  - eexists; split; [reflexivity|].
    intros b [= <-]. split; apply Hc, Hs'; left.
  - assert (Hsame : forall c, c ∈ first :: second :: more -> c ∈ first :: rest).
    { intros c Hin. apply elem_of_cons in Hin as [->|Hin]; [left|right].
      apply (same_score_prefix_elem (bs_score first)). rewrite Hp. exact Hin. }
    unfold rand_Intn. cbn [length].
    destruct ((first :: second :: more) !! (draw mod S (S (length more)))%nat)
      as [c|] eqn:Hl.
    + eexists; split; [reflexivity|].
      intros b [= <-].
      apply list_elem_of_lookup_2 in Hl.
      split; apply Hc, Hs', Hsame, Hl.
    + exfalso. apply lookup_ge_None in Hl. cbn [length] in Hl.
      pose proof (Nat.mod_upper_bound draw (S (S (length more))) ltac:(lia)).
      lia.
Qed.

Lemma PerformanceLCWBalancer_eligible backends req :
  exists selected,
    PerformanceLCWBalancer_SelectBackend backends req = Returns selected
    /\ forall b, selected = Some b -> eligible b = true /\ b ∈ backends.
Proof.
  unfold PerformanceLCWBalancer_SelectBackend.
  destruct (length backends =? 0)%nat;
    [eexists; split; [reflexivity|discriminate]|].
  match goal with |- context [omap ?f backends] => set (mk := f) end.
  set (candidates := omap mk backends).
  destruct (length candidates =? 0)%nat eqn:Hlen;
    [eexists; split; [reflexivity|discriminate]|].
  apply Nat.eqb_neq in Hlen.
  assert (Hc : forall c, c ∈ candidates ->
            eligible (bs_backend c) = true /\ bs_backend c ∈ backends).
  { intros c Hin. apply list_elem_of_omap in Hin as (x & Hx & Hmk).
    unfold mk in Hmk. rewrite skip_is_not_eligible in Hmk.
    destruct (eligible x) eqn:He; simpl in Hmk; [|discriminate].
    injection Hmk as <-. simpl. auto. }
  pose proof (sort_Slice_Permutation _ score_less candidates) as Hperm.
  destruct (sort_Slice score_less candidates) as [|first rest] eqn:Hs.
  { apply Permutation_length in Hperm. simpl in Hperm. lia. }
  eexists; split; [reflexivity|].
  intros b [= <-]. apply Hc. rewrite <- Hperm. left.
Qed.

(** X29: as the code stands, for every balancer and every candidate
    slice, SelectBackend returns (it does not panic) either nil or one
    of the candidates that passes the eligibility filter: IsActive, not
    ShouldDisconnect, not IsConnectionLimitReached.  For ip_hash this
    is so only because the selection always goes through selectRandom,
    IPHashBalancer.getClientIP being the constant empty string; the
    hash-index statements, which no call reaches, filter by the
    connection limit alone. *)
Theorem SelectBackend_eligible (lb : LoadBalancer) backends
    (req : RequestCtx) (draw : nat) :
  exists selected,
    SelectBackend lb backends req draw = Returns selected
    /\ forall b, selected = Some b ->
         b ∈ backends
         /\ IsActive b = true
         /\ ShouldDisconnect b = false
         /\ IsConnectionLimitReached b = false.
Proof.
  assert (G : exists selected,
    SelectBackend lb backends req draw = Returns selected
    /\ forall b, selected = Some b -> eligible b = true /\ b ∈ backends).
  { destruct lb; simpl.
    - apply IPHashBalancer_eligible.
    - apply LeastConnectionsBalancer_eligible.
    - apply LeastConnectionsWeightBalancer_eligible.
    - apply WeightBalancer_eligible.
    - apply PerformanceLCWBalancer_eligible. }
  destruct G as (selected & Heq & Hsel). exists selected. split; [exact Heq|].
  intros b Hb. destruct (Hsel b Hb) as [He Hin]. unfold eligible in He.
  destruct (IsActive b), (ShouldDisconnect b), (IsConnectionLimitReached b);
    try discriminate He. auto.
Qed.

End BalancerProperties.

Lemma insert_sorted_Permutation {A : Type} (less : A -> A -> bool) (x : A)
    (l : list A) :
  insert_sorted less x l ≡ₚ x :: l.
Proof.
  induction l as [|y l IH]; simpl; [reflexivity|].
  destruct (less y x); [|reflexivity].
  rewrite IH. apply Permutation_swap.
Qed.

Lemma insertion_sort_Permutation (A : Type) (less : A -> A -> bool) (l : list A) :
  sort_Slice (GoSort := InsertionSort) less l ≡ₚ l.
Proof.
  simpl. unfold insertion_sort.
  induction l as [|x l IH]; simpl; [reflexivity|].
  rewrite insert_sorted_Permutation, IH. reflexivity.
Qed.

Lemma QFloat_quotient_not_nan (c w : Z) :
  0 < w ->
  f_eqb (f_div (f_of_int c) (f_of_int w)) (f_div (f_of_int c) (f_of_int w))
  = true.
Proof. intros _. simpl. apply Qeq_bool_iff. reflexivity. Qed.

(** ip_hash and least_connections_weight on a slice whose first
    backend is draining and whose second is at its limit. *)
Lemma SelectBackend_eligible_witness :
  let backends := [MarkForDisconnect (Sample.backend "b0" 100 0 0);
                   Sample.backend "b1" 100 5 5; Sample.backend "b2" 100 2 0;
                   Sample.backend "b3" 50 1 0] in
  let req := Sample.ctx "/" [] "203.0.113.7" in
  (exists selected,
     SelectBackend IPHashBalancer backends req 7 = Returns selected
     /\ forall b, selected = Some b ->
          b ∈ backends
          /\ IsActive b = true
          /\ ShouldDisconnect b = false
          /\ IsConnectionLimitReached b = false)
  /\ (exists selected,
        SelectBackend LeastConnectionsWeightBalancer backends req 7
        = Returns selected
        /\ forall b, selected = Some b ->
             b ∈ backends
             /\ IsActive b = true
             /\ ShouldDisconnect b = false
             /\ IsConnectionLimitReached b = false).
Proof.
  intros backends req.
  split;
    apply (@SelectBackend_eligible Q QFloat InsertionSort
             insertion_sort_Permutation QFloat_quotient_not_nan).
Defined.

Section IPHashProperties.

Context {float64 : Type}.

Lemma skip_fold_filter (l : list (Backend float64))
    (acc : Z * option (Backend float64)) :
  foldl (fun acc backend =>
           if negb (IsActive backend) || ShouldDisconnect backend
              || IsConnectionLimitReached backend
           then acc else min_connections_step acc backend) acc l
  = foldl min_connections_step acc (List.filter eligible l).
Proof.
  revert acc. induction l as [|x l IH]; intros acc; simpl; [reflexivity|].
  rewrite IH. unfold eligible.
  destruct (IsActive x), (ShouldDisconnect x), (IsConnectionLimitReached x);
    reflexivity.
Qed.

Lemma filter_eligible_below_limit (l : list (Backend float64)) :
  List.filter eligible
    (List.filter (fun b => negb (IsConnectionLimitReached b)) l)
  = List.filter eligible l.
Proof.
  induction l as [|x l IH]; simpl; [reflexivity|].
  unfold eligible at 2.
  destruct (IsConnectionLimitReached x) eqn:Hx; simpl.
  - rewrite andb_false_r. exact IH.
  - unfold eligible at 1. rewrite Hx, IH. reflexivity.
Qed.

(** X2: as the code stands, ip_hash is least_connections: for every
    slice of backends and every request the two balancers return the
    same result, because the balancer's own getClientIP is the constant
    empty string and selectRandom is the least-connections scan. *)
Lemma IPHashBalancer_is_LeastConnections (backends : list (Backend float64))
    (req : RequestCtx) :
  IPHashBalancer_SelectBackend backends req
  = LeastConnectionsBalancer_SelectBackend backends req.
Proof.
  unfold IPHashBalancer_SelectBackend, LeastConnectionsBalancer_SelectBackend,
    IPHashBalancer_getClientIP, IPHashBalancer_selectRandom.
  destruct (length backends =? 0)%nat; [reflexivity|].
  cbn [String.eqb]. rewrite skip_fold_filter, filter_eligible_below_limit.
  destruct (List.filter (fun b => negb (IsConnectionLimitReached b)) backends)
    as [|x l] eqn:Hlim.
  - rewrite <- filter_eligible_below_limit, Hlim. reflexivity.
  - cbn [length Nat.eqb].
    destruct (List.filter eligible backends); reflexivity.
Qed.

(** The request never reaches the hash: two requests are served alike,
    by the least-connections walk over the backends below their limit. *)
Lemma IPHashBalancer_ignores_request (backends : list (Backend float64))
    (req req' : RequestCtx) :
  IPHashBalancer_SelectBackend backends req
  = IPHashBalancer_SelectBackend backends req'.
Proof. reflexivity. Qed.

End IPHashProperties.


(** C7 (evaluation at the failing input): two ip_hash selections for
    the same client 203.0.113.7 over the same eligible set {a, b}; the
    first picks a, and after a's counter has gone up the second picks b:
    the choice follows the connection counters, not the client IP. *)
Theorem ip_hash_follows_connection_counters :
  let req := Sample.ctx "/" [] "203.0.113.7" in
  let a := Sample.backend "a" 100 0 0 in
  let b := Sample.backend "b" 100 0 0 in
  SelectBackend IPHashBalancer [a; b] req 0 = Returns (Some a)
  /\ SelectBackend IPHashBalancer [IncConnections a; b] req 0 = Returns (Some b)
  /\ List.map ID (List.filter eligible [a; b])
     = List.map ID (List.filter eligible [IncConnections a; b])
  /\ ID a <> ID b.
Proof.
  cbv zeta. split; [reflexivity|]. split; [reflexivity|].
  split; [reflexivity|]. discriminate.
Qed.

Section WeightProperties.

Context {float64 : Type}.

(** X5: with the cursor [r] fixed at 0 the walk stops at the first
    eligible backend as soon as its weight is positive: whatever follows
    it in the slice, the weight policy returns the first candidate when
    that one is eligible with a positive weight and the eligible
    weights do not add up to zero. *)
Lemma WeightBalancer_first (first : Backend float64)
    (others : list (Backend float64)) (req : RequestCtx) :
  eligible first = true ->
  0 < Weight first <= max_int64 ->
  foldl (fun t b => wrap64 (t + Weight b)) 0
        (List.filter eligible (first :: others)) <> 0 ->
  WeightBalancer_SelectBackend (first :: others) req = Returns (Some first).
Proof.
  intros He Hw Htot. unfold WeightBalancer_SelectBackend.
  cbn [length Nat.eqb]. cbn [List.filter] in *. rewrite He in *.
  cbn [length Nat.eqb].
  destruct (Z.eqb_spec
              (foldl (fun t b => wrap64 (t + Weight b)) 0
                 (first :: List.filter eligible others)) 0) as [H0|_];
    [contradiction|].
  cbn [weight_walk].
  rewrite wrap64_id by (unfold in_int64, min_int64, max_int64 in *; lia).
  destruct (Z.ltb_spec 0 (0 + Weight first)); [reflexivity|lia].
Qed.

End WeightProperties.

(** C8 (evaluation at the failing input): with weights 1, 2 and 3 and
    no connection limit the weight policy sends each of 6,000 successive
    requests to the first backend: the distribution is 6000 : 0 : 0. *)
Theorem weight_policy_always_first :
  let picks := Sample.serve_many (Z.to_nat 6000) Sample.weighted
                                (Sample.ctx "/" [] "203.0.113.7") in
  Z.of_nat (Sample.tally "w1" picks) = 6000
  /\ Z.of_nat (Sample.tally "w2" picks) = 0
  /\ Z.of_nat (Sample.tally "w3" picks) = 0.
Proof. vm_compute. auto. Qed.

(** ** The dispatcher *)

Section DispatchProperties.

Context {float64 : Type} {FO : Float64Ops float64} {GS : GoSort} {GN : GoNet}.
Implicit Types (s : ProxyServer float64) (ctx : RequestCtx)
  (rules : list (string * RoutingRule)).

Lemma first_prefix_match_Some path rules rule :
  first_prefix_match path rules = Some rule ->
  exists before name after,
    rules = (before ++ (name, rule) :: after)%list
    /\ strings.HasPrefix path (Path rule) = true
    /\ no_prefix_match path before.
Proof.
  induction rules as [|[n r] rest IH]; simpl; [discriminate|].
  destruct (strings.HasPrefix path (Path r)) eqn:Hp.
  - intros [= <-]. exists [], n, rest. repeat split; [exact Hp|constructor].
  - intros H. destruct (IH H) as (before & name & after & -> & Hm & Hno).
    exists ((n, r) :: before), name, after. repeat split; [exact Hm|].
    constructor; [exact Hp|exact Hno].
Qed.

Lemma first_prefix_match_None path rules :
  first_prefix_match path rules = None <-> no_prefix_match path rules.
Proof.
  unfold no_prefix_match. induction rules as [|[n r] rest IH]; simpl.
  - split; [constructor|reflexivity].
  - destruct (strings.HasPrefix path (Path r)) eqn:Hp.
    + split; [discriminate|]. intros H. inversion H; simpl in *. congruence.
    + rewrite IH. split; [intros H; constructor; assumption|].
      intros H. inversion H. assumption.
Qed.

(** C4 (as amended): the dispatcher selects the first routing rule, in
    the order in which the routing map is iterated, whose path is a
    prefix of the request path; if no rule's path is a prefix, the rule
    named "default" when it exists; and the request is answered
    404 "Not Found" exactly when neither exists. *)
Theorem findRoutingRule_first_match s ctx (draw : nat) :
  (forall rule,
     Server_findRoutingRule (srv_config s) (ctx_Path ctx) = Some rule ->
     (exists before name after,
        Routing (srv_config s) = (before ++ (name, rule) :: after)%list
        /\ strings.HasPrefix (ctx_Path ctx) (Path rule) = true
        /\ no_prefix_match (ctx_Path ctx) before)
     \/ (no_prefix_match (ctx_Path ctx) (Routing (srv_config s))
         /\ map_lookup (Routing (srv_config s)) "default" = Some rule))
  /\ (Server_findRoutingRule (srv_config s) (ctx_Path ctx) = None <->
      no_prefix_match (ctx_Path ctx) (Routing (srv_config s))
      /\ map_lookup (Routing (srv_config s)) "default" = None)
  /\ (Server_handleRequest s ctx draw = CtxError "Not Found" 404 <->
      Server_findRoutingRule (srv_config s) (ctx_Path ctx) = None).
Proof.
  unfold Server_handleRequest, Server_findRoutingRule.
  destruct (first_prefix_match (ctx_Path ctx) (Routing (srv_config s)))
    as [r|] eqn:Hf.
  - split; [|split].
    + intros rule [= <-]. left. apply first_prefix_match_Some, Hf.
    + split; [discriminate|]. intros [Hno _].
      apply first_prefix_match_None in Hno. congruence.
    + split; [|discriminate].
      destruct (UpstreamManager_GetUpstream _ _); [|discriminate].
      destruct (length _ =? 0)%nat; [discriminate|].
      destruct (SelectBackend _ _ _ _) as [[?|]|]; discriminate.
  - apply first_prefix_match_None in Hf.
    split; [|split].
    + intros rule Hd. right. auto.
    + split; [auto|intros [_ Hd]; exact Hd].
    + destruct (map_lookup (Routing (srv_config s)) "default") as [r|];
        [|split; reflexivity].
      split; [|discriminate].
      destruct (UpstreamManager_GetUpstream _ _); [|discriminate].
      destruct (length _ =? 0)%nat; [discriminate|].
      destruct (SelectBackend _ _ _ _) as [[?|]|]; discriminate.
Qed.

(** The two 503 answers, as the code gives them: whenever the balancer
    returns nil the dispatcher answers with "Service Unavailable (All
    backends at connection limit)", whatever excluded the candidates;
    the generic "Service Unavailable" is the answer exactly when the
    rule's upstream is not registered or its live view is empty, before
    any balancer runs. *)
Theorem handleRequest_unavailable s ctx (draw : nat) :
  (forall rule upstream,
     Server_findRoutingRule (srv_config s) (ctx_Path ctx) = Some rule ->
     UpstreamManager_GetUpstream (upstreamMgr s) (Rule_Upstream rule)
       = Some upstream ->
     Upstream_GetBackends (heap s) upstream <> [] ->
     SelectBackend (Factory_GetBalancer (Server_determineLBType rule ctx))
       (deref (heap s) (Upstream_GetBackends (heap s) upstream)) ctx draw
       = Returns None ->
     Server_handleRequest s ctx draw
     = CtxError "Service Unavailable (All backends at connection limit)" 503)
  /\ (Server_handleRequest s ctx draw = CtxError "Service Unavailable" 503 <->
      exists rule,
        Server_findRoutingRule (srv_config s) (ctx_Path ctx) = Some rule
        /\ (UpstreamManager_GetUpstream (upstreamMgr s) (Rule_Upstream rule)
              = None
            \/ exists upstream,
                 UpstreamManager_GetUpstream (upstreamMgr s) (Rule_Upstream rule)
                   = Some upstream
                 /\ Upstream_GetBackends (heap s) upstream = [])).
Proof.
  unfold Server_handleRequest. split.
  - intros rule upstream -> -> Hne ->.
    destruct (Upstream_GetBackends (heap s) upstream); [contradiction|].
    reflexivity.
  - destruct (Server_findRoutingRule (srv_config s) (ctx_Path ctx))
      as [rule|] eqn:Hr.
    2:{ split; [discriminate|]. intros (r & Hr' & _). discriminate. }
    destruct (UpstreamManager_GetUpstream (upstreamMgr s) (Rule_Upstream rule))
      as [upstream|] eqn:Hu.
    2:{ split; [|reflexivity]. intros _. exists rule. auto. }
    destruct (Upstream_GetBackends (heap s) upstream) as [|p ps] eqn:Hb.
    + simpl. split; [|reflexivity]. intros _. exists rule. split; [reflexivity|].
      right. exists upstream. auto.
    + cbn [length Nat.eqb]. split.
      * destruct (SelectBackend _ _ _ _) as [[?|]|]; discriminate.
      * intros (r & [= <-] & [Hn|(u & Hu' & Hnil)]); [congruence|].
        rewrite Hu in Hu'. injection Hu' as <-. congruence.
Qed.

End DispatchProperties.

(** C4 as stated fails: with the rules "/" and "/api" visited in this
    order, /api/users is given to the rule of the shorter prefix "/";
    visited in the other order, the same map gives it to "/api". *)
Lemma longest_prefix_counterexample :
  let routing := [("root", Sample.rule "/" "default");
                  ("api", Sample.rule "/api" "default")] in
  Server_findRoutingRule (Sample.cfg [] routing) "/api/users"
    = Some (Sample.rule "/" "default")
  /\ strings.HasPrefix "/api/users" "/api" = true
  /\ (String.length "/" < String.length "/api")%nat
  /\ reverse routing ≡ₚ routing
  /\ Server_findRoutingRule (Sample.cfg [] (reverse routing)) "/api/users"
     = Some (Sample.rule "/api" "default").
Proof.
  cbv zeta. split; [reflexivity|]. split; [reflexivity|].
  split; [simpl; lia|]. split; [apply reverse_Permutation|reflexivity].
Qed.

Lemma findRoutingRule_first_match_witness :
  Server_handleRequest
    (Sample.server [("api", Sample.rule "/api" "default")]
                   (Sample.backend "b1" 100 0 0))
    (Sample.ctx "/static/logo.png" [] "203.0.113.7") 0
  = CtxError "Not Found" 404.
Proof.
  apply (findRoutingRule_first_match (FO := QFloat) (GS := InsertionSort)).
  reflexivity.
Defined.

(** C3 (evaluation at the failing input): the only candidate of the
    upstream is active, holds 0 of its 1000 connections and is marked
    for disconnect.  The balancer returns nil because the candidate is
    draining, not because of its limit, and the dispatcher answers 503
    with "Service Unavailable (All backends at connection limit)"
    instead of the generic "Service Unavailable". *)
Theorem limit_message_for_draining_backend :
  let b := MarkForDisconnect (Sample.backend "b1" 100 0 1000) in
  let s := Sample.server [("default", Sample.rule "/" "default")] b in
  let ctx := Sample.ctx "/index.html" [] "203.0.113.7" in
  Server_handleRequest s ctx 0
    = CtxError "Service Unavailable (All backends at connection limit)" 503
  /\ Server_handleRequest s ctx 0 <> CtxError "Service Unavailable" 503
  /\ deref (heap s) (Upstream_GetBackends (heap s)
                       {| name := "default"; backends := [0%nat] |}) = [b]
  /\ GetConnections b = 0 /\ MaxConn b = 1000
  /\ IsActive b = true
  /\ IsConnectionLimitReached b = false
  /\ ShouldDisconnect b = true.
Proof.
  cbv zeta. repeat split; try (vm_compute; reflexivity).
  vm_compute. intros E; discriminate E.
Qed.

Lemma handleRequest_unavailable_witness :
  let b := MarkForDisconnect (Sample.backend "b1" 100 0 1000) in
  let s := Sample.server [("default", Sample.rule "/" "default")] b in
  Server_handleRequest s (Sample.ctx "/index.html" [] "203.0.113.7") 0
  = CtxError "Service Unavailable (All backends at connection limit)" 503.
Proof.
  cbv zeta.
  refine (proj1 (handleRequest_unavailable (FO := QFloat) (GS := InsertionSort)
                   _ _ _)
                (Sample.rule "/" "default")
                {| name := "default"; backends := [0%nat] |} _ _ _ _).
  - reflexivity.
  - vm_compute. reflexivity.
  - vm_compute. discriminate.
  - vm_compute. reflexivity.
Defined.

(** ** The configuration manager *)

Section ConfigProperties.

Context {float64 : Type}.
Implicit Types (cfg : Config float64) (w : World float64)
  (io : write_result float64).

Lemma first_error_Some {A : Type} (check : A -> option error) (l : list A) e :
  first_error check l = Some e -> exists x, x ∈ l /\ check x = Some e.
Proof.
  induction l as [|x l IH]; simpl; [discriminate|].
  destruct (check x) as [e'|] eqn:Hx.
  - intros [= <-]. exists x. split; [left|exact Hx].
  - intros H. destruct (IH H) as (y & Hy & Hc). exists y. split; [right|]; auto.
Qed.

Lemma first_error_None {A : Type} (check : A -> option error) (l : list A) :
  first_error check l = None -> forall x, x ∈ l -> check x = None.
Proof.
  induction l as [|x l IH]; simpl; intros H y Hy; [inversion Hy|].
  destruct (check x) eqn:Hx; [discriminate|].
  apply elem_of_cons in Hy as [->|Hy]; [exact Hx|auto].
Qed.

Lemma port_check_true (p : Z) :
  (p <=? 0) || (65535 <? p) = true <-> ~ port_in_range p.
Proof.
  unfold port_in_range. rewrite orb_true_iff, Z.leb_le, Z.ltb_lt. lia.
Qed.

Lemma port_check_false (p : Z) :
  (p <=? 0) || (65535 <? p) = false <-> port_in_range p.
Proof.
  unfold port_in_range. rewrite orb_false_iff, Z.leb_gt, Z.ltb_ge. lia.
Qed.

Lemma validateBackend_Some upstream (backend : Backend float64) e :
  validateBackend upstream backend = Some e ->
  Host backend = "" \/ ~ port_in_range (Port backend).
Proof.
  unfold validateBackend.
  destruct (String.eqb_spec (Host backend) ""); [auto|].
  destruct ((Port backend <=? 0) || (65535 <? Port backend)) eqn:Hp;
    [|discriminate].
  intros _. right. apply port_check_true, Hp.
Qed.

Lemma validateBackend_None upstream (backend : Backend float64) :
  validateBackend upstream backend = None ->
  Host backend <> "" /\ port_in_range (Port backend).
Proof.
  unfold validateBackend.
  destruct (String.eqb_spec (Host backend) ""); [discriminate|].
  destruct ((Port backend <=? 0) || (65535 <? Port backend)) eqn:Hp;
    [discriminate|].
  intros _. split; [assumption|apply port_check_false, Hp].
Qed.

Lemma length_eqb_0 {A : Type} (l : list A) :
  (length l =? 0)%nat = true <-> l = [].
Proof. destruct l; simpl; split; congruence. Qed.

Lemma validate_maps_Some cfg e :
  match first_error validateUpstream (Backends cfg) with
  | Some e => Some e
  | None => first_error (validateRule cfg) (Routing cfg)
  end = Some e ->
  listed_violation cfg \/ empty_upstream_name cfg.
Proof.
  unfold listed_violation, empty_upstream_name.
  destruct (first_error validateUpstream (Backends cfg)) as [e1|] eqn:Hb.
  - intros _. apply first_error_Some in Hb as ([up bs] & Hin & Hc).
    simpl in Hc. destruct (length_eqb_0 bs) as [Hl _].
    destruct (length bs =? 0)%nat.
    + rewrite (Hl eq_refl) in Hin. left. right. right. left. eauto.
    + apply first_error_Some in Hc as (b & Hbin & Hbc).
      apply validateBackend_Some in Hbc.
      left. right. right. right. left. exists up, bs, b. auto.
  - intros Hr. apply first_error_Some in Hr as ([rname r] & Hin & Hc).
    simpl in Hc.
    destruct (String.eqb_spec (Rule_Upstream r) "") as [Hempty|Hfull];
      [right; eauto|].
    destruct (map_lookup (Backends cfg) (Rule_Upstream r)) eqn:Hl;
      [discriminate|].
    left. right. right. right. right. eauto.
Qed.

Lemma validateConfig_Some cfg e :
  validateConfig cfg = Some e -> listed_violation cfg \/ empty_upstream_name cfg.
Proof.
  unfold validateConfig.
  destruct ((Server_Port (Server cfg) <=? 0) || (65535 <? Server_Port (Server cfg)))
    eqn:Hport.
  { intros _. left. left. apply port_check_true, Hport. }
  destruct (SSL_Enabled (SSL cfg)) eqn:Hssl; simpl.
  - destruct (String.eqb_spec (CertFile (SSL cfg)) "") as [Hc|Hc].
    { intros _. left. right. left. auto. }
    destruct (String.eqb_spec (KeyFile (SSL cfg)) "") as [Hk|Hk].
    { intros _. left. right. left. auto. }
    apply validate_maps_Some.
  - apply validate_maps_Some.
Qed.

Lemma validateConfig_None cfg :
  validateConfig cfg = None ->
  ~ (listed_violation cfg \/ empty_upstream_name cfg).
Proof.
  unfold validateConfig.
  destruct ((Server_Port (Server cfg) <=? 0) || (65535 <? Server_Port (Server cfg)))
    eqn:Hport; [discriminate|].
  apply port_check_false in Hport.
  destruct (SSL_Enabled (SSL cfg) && (CertFile (SSL cfg) =? "")%string)
    eqn:Hcert; [discriminate|].
  destruct (SSL_Enabled (SSL cfg) && (KeyFile (SSL cfg) =? "")%string)
    eqn:Hkey; [discriminate|].
  destruct (first_error validateUpstream (Backends cfg)) eqn:Hb; [discriminate|].
  intros Hr.
  pose proof (first_error_None _ _ Hb) as Hups.
  pose proof (first_error_None _ _ Hr) as Hrules.
  intros [Hv|(rname & r & Hin & He)].
  - destruct Hv as [Hv|[Hv|[Hv|[Hv|Hv]]]].
    + contradiction.
    + destruct Hv as (Hssl & [Hc|Hk]).
      * rewrite Hssl, Hc in Hcert. discriminate.
      * rewrite Hssl, Hk in Hkey. discriminate.
    + destruct Hv as (up & Hin). apply Hups in Hin. discriminate.
    + destruct Hv as (up & bs & b & Hin & Hbin & Hbad).
      apply Hups in Hin. simpl in Hin.
      destruct (length bs =? 0)%nat; [discriminate|].
      apply (first_error_None _ _ Hin), validateBackend_None in Hbin.
      tauto.
    + destruct Hv as (rname & r & Hin & Hl). apply Hrules in Hin. simpl in Hin.
      destruct (Rule_Upstream r =? "")%string; [discriminate|].
      rewrite Hl in Hin. discriminate.
  - apply Hrules in Hin. simpl in Hin. rewrite He in Hin. discriminate.
Qed.

(** On a candidate without nil pointers: an error is returned exactly
    when the candidate violates one of the five listed rules, or has a
    routing rule whose upstream name is empty, or the configuration
    cannot be written to the file; on an error of validation nothing is
    modified, and on any error the live configuration is not. *)
Theorem UpdateConfig_error_iff io w cfg :
  ((UpdateConfig io w cfg).1 <> None <->
   listed_violation cfg \/ empty_upstream_name cfg \/ io <> WriteOk)
  /\ (listed_violation cfg \/ empty_upstream_name cfg ->
      (UpdateConfig io w cfg).2 = w)
  /\ ((UpdateConfig io w cfg).1 <> None ->
      manager (UpdateConfig io w cfg).2 = manager w).
Proof.
  unfold UpdateConfig.
  destruct (validateConfig cfg) as [e|] eqn:Hv.
  - apply validateConfig_Some in Hv. simpl. split; [|split; reflexivity].
    split; [tauto|discriminate].
  - apply validateConfig_None in Hv. split; [|split; [tauto|]].
    + destruct io as [| |[c|]]; simpl.
      * split; [congruence|]. intros [H|[H|H]]; tauto.
      * split; [intros _; right; right; discriminate|discriminate].
      * split; [intros _; right; right; discriminate|discriminate].
      * split; [intros _; right; right; discriminate|discriminate].
    + destruct io as [| |[c|]]; simpl; [congruence|reflexivity..].
Qed.

(** *** The candidate as a pointer *)

Lemma first_checked_Checked {A : Type} (check : A -> option error) (l : list A) :
  first_checked (fun x => Checked (check x)) l = Checked (first_error check l).
Proof.
  induction l as [|x l IH]; simpl; [reflexivity|].
  destruct (check x); [reflexivity|exact IH].
Qed.

Lemma first_checked_ext {A : Type} (f g : A -> checked) (l : list A) :
  (forall x, f x = g x) -> first_checked f l = first_checked g l.
Proof.
  intros H. induction l as [|x l IH]; simpl; [reflexivity|].
  rewrite H, IH. reflexivity.
Qed.

Lemma first_checked_map {A B : Type} (f : A -> B) (check : B -> checked)
    (l : list A) :
  first_checked check (List.map f l) = first_checked (fun x => check (f x)) l.
Proof.
  induction l as [|x l IH]; simpl; [reflexivity|].
  rewrite IH. reflexivity.
Qed.

Lemma first_checked_passes {A : Type} (check : A -> checked) (l : list A) :
  first_checked check l = Checked None ->
  forall x, x ∈ l -> check x = Checked None.
Proof.
  induction l as [|y l IH]; simpl; intros H x Hx; [inversion Hx|].
  destruct (check y) as [[e|]|] eqn:Hy; try discriminate.
  apply elem_of_cons in Hx as [->|Hx]; [exact Hy|auto].
Qed.

Lemma map_lookup_ptrs (m : list (string * list (Backend float64))) (key : string) :
  map_lookup (List.map (fun entry => (entry.1, List.map Some entry.2)) m) key
  = List.map Some <$> map_lookup m key.
Proof.
  unfold map_lookup.
  induction m as [|[k v] m IH]; simpl; [reflexivity|].
  destruct (k =? key)%string; [reflexivity|exact IH].
Qed.

Lemma validateConfig_ptr_of_Config cfg :
  validateConfig_ptr (Some (ptrs_of_Config cfg)) = Checked (validateConfig cfg).
Proof.
  unfold validateConfig_ptr, validateConfig. cbn [ptrs_of_Config ptr_Server ptr_SSL
    ptr_Backends ptr_Routing].
  destruct ((Server_Port (Server cfg) <=? 0) || (65535 <? Server_Port (Server cfg)));
    [reflexivity|].
  destruct (SSL_Enabled (SSL cfg) && (CertFile (SSL cfg) =? "")%string);
    [reflexivity|].
  destruct (SSL_Enabled (SSL cfg) && (KeyFile (SSL cfg) =? "")%string);
    [reflexivity|].
  rewrite first_checked_map.
  rewrite (first_checked_ext _ (fun entry => Checked (validateUpstream entry))).
  2:{ intros [up bs]. simpl. rewrite length_map.
      destruct (length bs =? 0)%nat; [reflexivity|].
      rewrite first_checked_map. apply first_checked_Checked. }
  rewrite first_checked_Checked.
  destruct (first_error validateUpstream (Backends cfg)); [reflexivity|].
  rewrite first_checked_map.
  rewrite (first_checked_ext _ (fun entry => Checked (validateRule cfg entry))).
  2:{ intros [rname r]. simpl.
      destruct (Rule_Upstream r =? "")%string; [reflexivity|].
      rewrite map_lookup_ptrs.
      destruct (map_lookup (Backends cfg) (Rule_Upstream r)); reflexivity. }
  apply first_checked_Checked.
Qed.

Lemma omap_Some {A : Type} (l : list A) : omap (fun b => b) (List.map Some l) = l.
Proof.
  induction l as [|x l IH]; [reflexivity|].
  change (x :: omap (fun b => b) (List.map Some l) = x :: l).
  f_equal. exact IH.
Qed.

Lemma Config_of_ptrs_of_Config cfg : Config_of_ptrs (ptrs_of_Config cfg) = cfg.
Proof.
  destruct cfg as [srv ssl bs rs].
  unfold Config_of_ptrs, ptrs_of_Config.
  cbn [ptr_Server ptr_SSL ptr_Backends ptr_Routing Server SSL Backends Routing].
  f_equal.
  - induction bs as [|[up l] bs IH]; [reflexivity|].
    cbn [List.map fst snd]. rewrite omap_Some. f_equal. exact IH.
  - induction rs as [|[rname r] rs IH]; [reflexivity|].
    match goal with
    | |- omap ?F (List.map ?G _) = _ =>
        change ((rname, r) :: omap F (List.map G rs) = (rname, r) :: rs)
    end.
    f_equal. exact IH.
Qed.

Lemma map_Some_omap {A : Type} (l : list (option A)) :
  forallb not_nil l = true -> List.map Some (omap (fun b => b) l) = l.
Proof.
  induction l as [|[x|] l IH]; [reflexivity| |discriminate].
  intros H.
  change (Some x :: List.map Some (omap (fun b => b) l) = Some x :: l).
  f_equal. apply IH. exact H.
Qed.

Lemma ptrs_of_Config_of_ptrs (c : ConfigPtrs float64) :
  nil_free c = true -> ptrs_of_Config (Config_of_ptrs c) = c.
Proof.
  destruct c as [srv ssl bs rs]. unfold nil_free, ptrs_of_Config, Config_of_ptrs.
  cbn [ptr_Server ptr_SSL ptr_Backends ptr_Routing Server SSL Backends Routing].
  intros H. apply andb_true_iff in H as [Hb Hr]. f_equal.
  - induction bs as [|[up l] bs IH]; [reflexivity|].
    cbn [forallb fst snd] in Hb. apply andb_true_iff in Hb as [Hl Hb].
    cbn [List.map fst snd]. rewrite map_Some_omap by exact Hl.
    f_equal. apply IH. exact Hb.
  - induction rs as [|[rname [r|]] rs IH]; [reflexivity| |discriminate].
    cbn [forallb fst snd not_nil andb] in Hr.
    match goal with
    | |- List.map ?G (omap ?F _) = _ =>
        change ((rname, Some r) :: List.map G (omap F rs) = (rname, Some r) :: rs)
    end.
    f_equal. apply IH. exact Hr.
Qed.

Lemma validateConfig_ptr_passes (c : ConfigPtrs float64) :
  validateConfig_ptr (Some c) = Checked None -> nil_free c = true.
Proof.
  unfold validateConfig_ptr, nil_free.
  destruct ((Server_Port (ptr_Server c) <=? 0) || (65535 <? Server_Port (ptr_Server c)));
    [discriminate|].
  destruct (SSL_Enabled (ptr_SSL c) && (CertFile (ptr_SSL c) =? "")%string);
    [discriminate|].
  destruct (SSL_Enabled (ptr_SSL c) && (KeyFile (ptr_SSL c) =? "")%string);
    [discriminate|].
  destruct (first_checked validateUpstream_ptr (ptr_Backends c))
    as [[e|]|] eqn:Hb; try discriminate.
  intros Hr. apply andb_true_iff. split.
  - apply forallb_forall. intros [up l] Hin. simpl.
    apply list_elem_of_In in Hin.
    pose proof (first_checked_passes _ _ Hb _ Hin) as Hup. simpl in Hup.
    destruct (length l =? 0)%nat; [discriminate|].
    apply forallb_forall. intros b Hbin. apply list_elem_of_In in Hbin.
    pose proof (first_checked_passes _ _ Hup _ Hbin) as Hbk.
    destruct b; [reflexivity|discriminate].
  - apply forallb_forall. intros [rname r] Hin. simpl.
    apply list_elem_of_In in Hin.
    pose proof (first_checked_passes _ _ Hr _ Hin) as Hrule. simpl in Hrule.
    destruct r; [reflexivity|discriminate].
Qed.

Lemma UpdateConfig_ptr_of_Config io w cfg :
  UpdateConfig_ptr io w (Some (ptrs_of_Config cfg))
  = (Returned (UpdateConfig io w cfg).1, (UpdateConfig io w cfg).2).
Proof.
  unfold UpdateConfig_ptr, UpdateConfig.
  rewrite validateConfig_ptr_of_Config, Config_of_ptrs_of_Config.
  destruct (validateConfig cfg); [reflexivity|].
  destruct (saveConfig io w cfg) as [[e|] d]; reflexivity.
Qed.

(** C6 (as amended): for a candidate that is not nil and holds no nil
    backend or rule, UpdateConfig does not panic and returns an error
    exactly when the candidate violates one of the five listed rules,
    or has a routing rule whose upstream name is empty, or the
    configuration cannot be marshalled or written to the file; on an
    error of validation neither the live configuration (the manager)
    nor the file is modified, and on any error the live configuration
    is not modified. *)
Theorem UpdateConfig_ptr_error_iff io w (c : ConfigPtrs float64) :
  nil_free c = true ->
  (UpdateConfig_ptr io w (Some c)).1 <> Panicked
  /\ ((exists err, (UpdateConfig_ptr io w (Some c)).1 = Returned (Some err)) <->
      listed_violation (Config_of_ptrs c)
      \/ empty_upstream_name (Config_of_ptrs c)
      \/ io <> WriteOk)
  /\ (listed_violation (Config_of_ptrs c) \/ empty_upstream_name (Config_of_ptrs c) ->
      (UpdateConfig_ptr io w (Some c)).2 = w)
  /\ ((exists err, (UpdateConfig_ptr io w (Some c)).1 = Returned (Some err)) ->
      manager (UpdateConfig_ptr io w (Some c)).2 = manager w).
Proof.
  intros Hnil.
  pose proof (UpdateConfig_ptr_of_Config io w (Config_of_ptrs c)) as Heq.
  rewrite (ptrs_of_Config_of_ptrs c Hnil) in Heq. rewrite Heq. clear Heq.
  set (cfg := Config_of_ptrs c). cbn [fst snd].
  destruct (UpdateConfig_error_iff io w cfg) as (Hiff & Hsame & Hmgr).
  split; [discriminate|]. split; [|split].
  - rewrite <- Hiff. split.
    + intros (err & [= ->]). discriminate.
    + intros Hne. destruct (UpdateConfig io w cfg).1 as [e|];
        [eauto|contradiction].
  - intros Hv. rewrite Hsame by tauto. reflexivity.
  - intros (err & [= Herr]). apply Hmgr. rewrite Herr. discriminate.
Qed.

(** X30: UpdateConfig on a nil candidate panics; a candidate that
    holds a nil backend or a nil rule is never accepted: the call
    panics at the nil entry, or returns the validation error that it
    meets before; a panic happens only on such candidates, and in all
    these cases the live configuration, the watchers' channels and the
    files are as they were. *)
Theorem UpdateConfig_ptr_nil io w :
  UpdateConfig_ptr io w None = (Panicked, w)
  /\ (forall c : ConfigPtrs float64, nil_free c = false ->
        ((UpdateConfig_ptr io w (Some c)).1 = Panicked
         \/ exists err,
              (UpdateConfig_ptr io w (Some c)).1
              = Returned (Some (InvalidConfig err)))
        /\ (UpdateConfig_ptr io w (Some c)).2 = w)
  /\ (forall config : option (ConfigPtrs float64),
        (UpdateConfig_ptr io w config).1 = Panicked ->
        (UpdateConfig_ptr io w config).2 = w
        /\ (config = None \/ exists c, config = Some c /\ nil_free c = false)).
Proof.
  split; [reflexivity|]. split.
  - intros c Hnil. unfold UpdateConfig_ptr.
    destruct (validateConfig_ptr (Some c)) as [[e|]|] eqn:Hv.
    + split; [right; eauto|reflexivity].
    + apply validateConfig_ptr_passes in Hv. congruence.
    + split; [left; reflexivity|reflexivity].
  - intros [c|]; [|intros _; split; [reflexivity|left; reflexivity]].
    unfold UpdateConfig_ptr.
    destruct (validateConfig_ptr (Some c)) as [[e|]|] eqn:Hv.
    + discriminate.
    + destruct (saveConfig io w (Config_of_ptrs c)) as [[e|] d]; discriminate.
    + intros _. split; [reflexivity|]. right. exists c. split; [reflexivity|].
      destruct (nil_free c) eqn:Hnil; [|reflexivity].
      rewrite <- (ptrs_of_Config_of_ptrs c Hnil), validateConfig_ptr_of_Config in Hv.
      discriminate.
Qed.

End ConfigProperties.

(** C6 as stated fails: a candidate that breaks none of the five listed
    rules (its routing rule names the upstream with the empty name,
    which has a backend entry) is rejected; and a valid candidate is
    answered with an error when the file cannot be written. *)
Lemma UpdateConfig_counterexample :
  let named_empty := Sample.cfg [("", [Sample.backend "b1" 100 0 1000])]
                                [("r", Sample.rule "/" "")] in
  let valid := Sample.cfg [("default", [Sample.backend "b1" 100 0 500])]
                          [("default", Sample.rule "/" "default")] in
  (~ listed_violation named_empty
   /\ (UpdateConfig_ptr WriteOk Sample.world
         (Some (ptrs_of_Config named_empty))).1
      = Returned (Some (InvalidConfig (RuleUpstreamRequired "r"))))
  /\ (~ listed_violation valid
      /\ (UpdateConfig_ptr (WriteFails None) Sample.world
            (Some (ptrs_of_Config valid))).1
         = Returned (Some (FailedToSave WriteFileError))).
Proof.
  cbv zeta. split; split; try reflexivity.
  - intros [H|[H|[H|[H|H]]]].
    + apply H. unfold port_in_range. simpl. lia.
    + destruct H as [H _]. discriminate H.
    + destruct H as (up & H). simpl in H.
      apply elem_of_cons in H as [H|H]; [discriminate H|inversion H].
    + destruct H as (up & bs & b & H & Hb & Hbad). simpl in H.
      apply elem_of_cons in H as [H|H]; [|inversion H].
      injection H as -> ->.
      apply elem_of_cons in Hb as [->|Hb]; [|inversion Hb].
      destruct Hbad as [Hh|Hp]; [discriminate Hh|].
      apply Hp. unfold port_in_range. simpl. lia.
    + destruct H as (rname & r & H & Hl). simpl in H.
      apply elem_of_cons in H as [H|H]; [|inversion H].
      injection H as -> ->. discriminate Hl.
  - intros H.
    eapply (validateConfig_None
              (Sample.cfg [("default", [Sample.backend "b1" 100 0 500])]
                          [("default", Sample.rule "/" "default")]));
      [reflexivity|left; exact H].
Qed.

(** Candidates with a nil pointer: a nil backend and a nil rule make the
    call panic; when an upstream without backends is visited before the
    nil backend, the call returns that error instead. *)
Lemma UpdateConfig_ptr_nil_entries :
  let candidate backends routing : option (ConfigPtrs Q) :=
    Some {| ptr_Server := Server (Sample.cfg [] []);
            ptr_SSL := SSL (Sample.cfg [] []);
            ptr_Backends := backends; ptr_Routing := routing |} in
  let b1 := Sample.backend "b1" 100 0 500 in
  UpdateConfig_ptr WriteOk Sample.world
    (candidate [("default", [Some b1; None])] [])
  = (Panicked, Sample.world)
  /\ UpdateConfig_ptr WriteOk Sample.world
       (candidate [("default", [Some b1])] [("r", None)])
     = (Panicked, Sample.world)
  /\ UpdateConfig_ptr WriteOk Sample.world
       (candidate [("spare", []); ("default", [None])] [])
     = (Returned (Some (InvalidConfig (NoBackends "spare"))), Sample.world).
Proof. cbv zeta. repeat split. Qed.

(** A candidate without nil pointers whose upstream "spare" has no
    backend: the call returns an error and nothing is modified. *)
Lemma UpdateConfig_ptr_error_iff_witness :
  let c := {| ptr_Server := Server (Sample.cfg [] []);
              ptr_SSL := SSL (Sample.cfg [] []);
              ptr_Backends := [("default", [Some (Sample.backend "b1" 100 0 500)]);
                               ("spare", [])];
              ptr_Routing := [("default", Some (Sample.rule "/" "default"))] |} in
  nil_free c = true
  /\ (exists err,
        (UpdateConfig_ptr WriteOk Sample.world (Some c)).1 = Returned (Some err))
  /\ (UpdateConfig_ptr WriteOk Sample.world (Some c)).2 = Sample.world.
Proof.
  intros c.
  assert (Hv : listed_violation (Config_of_ptrs c)).
  { right. right. left. exists "spare". simpl. right. left. }
  destruct (UpdateConfig_ptr_error_iff WriteOk Sample.world c eq_refl)
    as (_ & Hiff & Hsame & _).
  split; [reflexivity|]. split.
  - apply Hiff. left. exact Hv.
  - apply Hsame. left. exact Hv.
Defined.

(** ** Client IP resolution *)

Section ClientIPProperties.

Context {float64 : Type} {GN : GoNet}.
Implicit Types (cfg : Config float64) (ctx : RequestCtx).

(** X27: without a value in the real-IP header, an X-Forwarded-For
    value that has no comma after its first byte is not used: the
    answer is the peer address, whatever the trusted proxies are. *)
Lemma getClientIP_without_comma cfg ctx :
  RealIPHeader (Server cfg) = ""
  \/ Header_Peek (ctx_Headers ctx) (RealIPHeader (Server cfg)) = "" ->
  strings.Index (Header_Peek (ctx_Headers ctx) "X-Forwarded-For") "," <= 0 ->
  Server_getClientIP cfg ctx = ctx_RemoteIP ctx.
Proof.
  intros Hreal Hidx. unfold Server_getClientIP.
  destruct (Z.ltb_spec 0
              (strings.Index (Header_Peek (ctx_Headers ctx) "X-Forwarded-For") ","))
    as [Hlt|_]; [lia|].
  destruct Hreal as [Hr|Hr]; rewrite Hr.
  - simpl.
    destruct (negb (Header_Peek (ctx_Headers ctx) "X-Forwarded-For" =? "")%string);
      reflexivity.
  - destruct (negb (RealIPHeader (Server cfg) =? "")%string); simpl;
      destruct (negb (Header_Peek (ctx_Headers ctx) "X-Forwarded-For" =? "")%string);
      reflexivity.
Qed.

(** X26: the configured real-IP header wins when it has a value: the
    value is returned as it is, whoever the peer is and whatever
    X-Forwarded-For and the trusted proxies are. *)
Lemma getClientIP_real_ip_header cfg ctx :
  RealIPHeader (Server cfg) <> "" ->
  Header_Peek (ctx_Headers ctx) (RealIPHeader (Server cfg)) <> "" ->
  Server_getClientIP cfg ctx
  = Header_Peek (ctx_Headers ctx) (RealIPHeader (Server cfg)).
Proof.
  intros Hcfg Hval. unfold Server_getClientIP.
  destruct (String.eqb_spec (RealIPHeader (Server cfg)) ""); [contradiction|].
  simpl.
  destruct (String.eqb_spec
              (Header_Peek (ctx_Headers ctx) (RealIPHeader (Server cfg))) "");
    [contradiction|reflexivity].
Qed.

End ClientIPProperties.

(** C5 (evaluation at the failing inputs), with 10.0.0.0/8 as the
    trusted proxies and no X-Real-IP on the request: (1) from the
    trusted peer 10.0.0.1, the single-element header "198.51.100.2" is
    ignored and the peer is returned; (2) from the same trusted peer,
    "198.51.100.2, 10.0.0.7" is ignored as well, because the test for a
    trusted proxy is made on 198.51.100.2, the header's first element;
    (3) from the untrusted peer 203.0.113.9, "10.9.9.9, 1.1.1.1" is
    honoured and 10.9.9.9 is returned. *)
Theorem getClientIP_divergence :
  let cfg := Sample.cfg [] [] in
  let trusted := TrustedProxies (Server cfg) in
  (IsTrustedProxy "10.0.0.1" trusted = true
   /\ Server_getClientIP cfg
        (Sample.ctx "/" [("X-Forwarded-For", "198.51.100.2")] "10.0.0.1")
      = "10.0.0.1")
  /\ (Server_getClientIP cfg
        (Sample.ctx "/" [("X-Forwarded-For", "198.51.100.2, 10.0.0.7")] "10.0.0.1")
      = "10.0.0.1")
  /\ (IsTrustedProxy "203.0.113.9" trusted = false
      /\ Server_getClientIP cfg
           (Sample.ctx "/" [("X-Forwarded-For", "10.9.9.9, 1.1.1.1")] "203.0.113.9")
         = "10.9.9.9").
Proof. cbv zeta. repeat split; vm_compute; reflexivity. Qed.

(** ** The admin handler of the connection limit *)

Section UpdateBackendProperties.

Context {float64 : Type}.
Implicit Types (s : ProxyServer float64) (h : gmap nat (Backend float64)).

Lemma update_first_found h (ps : list nat) (backendID : string) (maxConn : Z) h' :
  update_first h ps backendID maxConn = (h', true) ->
  exists p backend,
    p ∈ ps /\ h !! p = Some backend /\ ID backend = backendID
    /\ h' = <[p := with_MaxConn backend maxConn]> h.
Proof.
  induction ps as [|p ps IH]; simpl; [discriminate|].
  destruct (h !! p) as [backend|] eqn:Hp.
  - destruct (String.eqb_spec (ID backend) backendID) as [Hid|Hid].
    + intros [= <-]. exists p, backend. split; [left|]. auto.
    + intros H. destruct (IH H) as (q & b & Hq & Hb).
      exists q, b. split; [right; exact Hq|exact Hb].
  - intros H. destruct (IH H) as (q & b & Hq & Hb).
    exists q, b. split; [right; exact Hq|exact Hb].
Qed.

Lemma update_first_missing h (ps : list nat) (backendID : string) (maxConn : Z) h' :
  update_first h ps backendID maxConn = (h', false) ->
  h' = h
  /\ forall p backend, p ∈ ps -> h !! p = Some backend -> ID backend <> backendID.
Proof.
  induction ps as [|p ps IH]; simpl.
  - intros [= <-]. split; [reflexivity|]. intros p b Hp. inversion Hp.
  - destruct (h !! p) as [backend|] eqn:Hp.
    + destruct (String.eqb_spec (ID backend) backendID) as [Hid|Hid];
        [discriminate|].
      intros H. destruct (IH H) as [-> Hall]. split; [reflexivity|].
      intros q b Hq Hb. apply elem_of_cons in Hq as [->|Hq]; [|eauto].
      rewrite Hp in Hb. injection Hb as <-. exact Hid.
    + intros H. destruct (IH H) as [-> Hall]. split; [reflexivity|].
      intros q b Hq Hb. apply elem_of_cons in Hq as [->|Hq]; [|eauto].
      rewrite Hp in Hb. discriminate.
Qed.

Lemma update_first_prefix h (ps : list nat) (backendID : string) (maxConn : Z) h' :
  update_first h ps backendID maxConn = (h', true) ->
  exists before p after backend,
    ps = (before ++ p :: after)%list
    /\ (forall q b, q ∈ before -> h !! q = Some b -> ID b <> backendID)
    /\ h !! p = Some backend /\ ID backend = backendID
    /\ h' = <[p := with_MaxConn backend maxConn]> h.
Proof.
  induction ps as [|p ps IH]; simpl; [discriminate|].
  destruct (h !! p) as [backend|] eqn:Hp.
  - destruct (String.eqb_spec (ID backend) backendID) as [Hid|Hid].
    + intros [= <-]. exists [], p, ps, backend.
      split; [reflexivity|]. split; [|auto].
      intros q b Hq. inversion Hq.
    + intros H. destruct (IH H) as (before & q & after & b & -> & Hno & Hrest).
      exists (p :: before), q, after, b. split; [reflexivity|].
      split; [|exact Hrest].
      intros q' b' Hq' Hb'. apply elem_of_cons in Hq' as [->|Hq']; [|eauto].
      rewrite Hp in Hb'. injection Hb' as <-. exact Hid.
  - intros H. destruct (IH H) as (before & q & after & b & -> & Hno & Hrest).
    exists (p :: before), q, after, b. split; [reflexivity|].
    split; [|exact Hrest].
    intros q' b' Hq' Hb'. apply elem_of_cons in Hq' as [->|Hq']; [|eauto].
    rewrite Hp in Hb'. discriminate.
Qed.

(** X28: what the handler does for a well-formed PUT: it answers 404
    when the upstream is not registered or no backend of its live view
    has the id, and otherwise stores the new limit in the first backend
    of the live view that has the id (no backend before it in the live
    view has the id), which the live view of the next selection
    shows. *)
Lemma handleUpdateBackend_live_view s (upstreamID backendID : string)
    (maxConn : Z) :
  upstreamID <> "" -> backendID <> "" ->
  let r := {| Method := "PUT";
              Body := UpdateBackendReq upstreamID backendID maxConn |} in
  match UpstreamManager_GetUpstream (upstreamMgr s) upstreamID with
  | None => Server_handleUpdateBackend s r = (HttpError "upstream not found" 404, s)
  | Some upstream =>
      (Server_handleUpdateBackend s r = (HttpError "backend not found" 404, s)
       /\ forall p backend,
            p ∈ Upstream_GetBackends (heap s) upstream ->
            heap s !! p = Some backend -> ID backend <> backendID)
      \/ (exists before p after backend,
            Upstream_GetBackends (heap s) upstream = (before ++ p :: after)%list
            /\ (forall q b, q ∈ before -> heap s !! q = Some b ->
                  ID b <> backendID)
            /\ p ∈ Upstream_GetBackends (heap s) upstream
            /\ heap s !! p = Some backend /\ ID backend = backendID
            /\ (Server_handleUpdateBackend s r).1
               = JsonOk true "Backend updated successfully"
            /\ heap (Server_handleUpdateBackend s r).2
               = <[p := with_MaxConn backend maxConn]> (heap s)
            /\ heap (Server_handleUpdateBackend s r).2 !! p
               = Some (with_MaxConn backend maxConn)
            /\ p ∈ Upstream_GetBackends (heap (Server_handleUpdateBackend s r).2)
                   upstream)
  end.
Proof.
  intros Hu Hb r. unfold Server_handleUpdateBackend. subst r. cbn [Method Body].
  simpl (negb _).
  destruct (String.eqb_spec upstreamID ""); [contradiction|].
  destruct (String.eqb_spec backendID ""); [contradiction|]. cbn [orb].
  destruct (UpstreamManager_GetUpstream (upstreamMgr s) upstreamID)
    as [upstream|]; [|reflexivity].
  destruct (update_first (heap s) (Upstream_GetBackends (heap s) upstream)
              backendID maxConn) as [h' [|]] eqn:Hupd; cbn [negb].
  - right.
    apply update_first_prefix in Hupd
      as (before & p & after & backend & Hsplit & Hno & Hl & Hid & ->).
    assert (Hp : p ∈ Upstream_GetBackends (heap s) upstream).
    { rewrite Hsplit. apply elem_of_app. right. left. }
    exists before, p, after, backend.
    split; [exact Hsplit|]. split; [exact Hno|]. split; [exact Hp|].
    split; [exact Hl|]. split; [exact Hid|]. split; [reflexivity|].
    split; [reflexivity|]. split.
    + cbn [snd heap]. apply lookup_insert_eq.
    + cbn [snd heap]. unfold Upstream_GetBackends in *.
      apply list_elem_of_In, filter_In.
      apply list_elem_of_In, filter_In in Hp as [Hin Hlive].
      split; [exact Hin|]. rewrite lookup_insert_eq.
      rewrite Hl in Hlive. exact Hlive.
  - left. apply update_first_missing in Hupd as [-> Hall].
    split; [reflexivity|exact Hall].
Qed.

End UpdateBackendProperties.

(** C9 (evaluation at the failing input): the backend "b1" of upstream
    "default" is in the registry with its active flag false; the
    request to set its max_conn to 500 is answered 404 "backend not
    found" and nothing is changed. *)
Theorem update_backend_inactive_not_found :
  let b := SetActive (Sample.backend "b1" 100 0 1000) false in
  let s := Sample.server [("default", Sample.rule "/" "default")] b in
  let r := {| Method := "PUT"; Body := UpdateBackendReq "default" "b1" 500 |} in
  UpstreamManager_GetUpstream (upstreamMgr s) "default"
    = Some {| name := "default"; backends := [0%nat] |}
  /\ heap s !! 0%nat = Some b
  /\ ID b = "b1"
  /\ Server_handleUpdateBackend s r = (HttpError "backend not found" 404, s).
Proof. cbv zeta. repeat split; vm_compute; reflexivity. Qed.

(** The same request for the same backend with its active flag true is
    accepted, and the next live view shows the new limit. *)
Lemma update_backend_active_found :
  let b := Sample.backend "b1" 100 0 1000 in
  let s := Sample.server [("default", Sample.rule "/" "default")] b in
  let r := {| Method := "PUT"; Body := UpdateBackendReq "default" "b1" 500 |} in
  (Server_handleUpdateBackend s r).1 = JsonOk true "Backend updated successfully"
  /\ deref (heap (Server_handleUpdateBackend s r).2)
       (Upstream_GetBackends (heap (Server_handleUpdateBackend s r).2)
          {| name := "default"; backends := [0%nat] |})
     = [with_MaxConn b 500].
Proof. cbv zeta. repeat split; vm_compute; reflexivity. Qed.

(** * Further properties of the engine *)

(** ** The balancers, beyond eligibility *)

Section BalancerChoice.

Context {float64 : Type}.
Implicit Types (b backend : Backend float64) (backends : list (Backend float64)).

Lemma min_connections_fold_spec backends (acc : Z * option (Backend float64)) :
  (foldl min_connections_step acc backends).1 <= acc.1
  /\ (forall x, x ∈ backends ->
        (foldl min_connections_step acc backends).1 <= GetConnections x)
  /\ (foldl min_connections_step acc backends = acc
      \/ exists b, b ∈ backends
           /\ foldl min_connections_step acc backends = (GetConnections b, Some b)
           /\ GetConnections b < acc.1).
Proof.
  revert acc. induction backends as [|x l IH]; intros acc; simpl.
  - split; [lia|]. split; [intros x Hx; inversion Hx|left; reflexivity].
  - destruct (IH (min_connections_step acc x)) as (Hle & Hall & Hres).
    assert (Hstep : (min_connections_step acc x).1 <= acc.1
                    /\ (min_connections_step acc x).1 <= GetConnections x
                    /\ (min_connections_step acc x = acc
                        \/ (min_connections_step acc x = (GetConnections x, Some x)
                            /\ GetConnections x < acc.1))).
    { unfold min_connections_step.
      destruct (Z.ltb_spec (GetConnections x) acc.1); simpl.
      - split; [lia|]. split; [lia|]. right. auto.
      - split; [lia|]. split; [lia|]. left. reflexivity. }
    destruct Hstep as (Hs1 & Hs2 & Hs3).
    split; [lia|]. split.
    + intros y Hy. apply elem_of_cons in Hy as [->|Hy]; [lia|auto].
    + destruct Hres as [Heq|(b & Hb & Heq & Hlt)].
      * rewrite Heq. destruct Hs3 as [->|[-> Hlt]]; [left; reflexivity|].
        right. exists x. split; [left|]. auto.
      * right. exists b. split; [right; exact Hb|]. split; [exact Heq|lia].
Qed.

(** X1: least_connections returns an eligible candidate with the fewest
    connections among the eligible ones; it returns nil only when every
    eligible candidate counts at least the largest int64. *)
Theorem LeastConnections_minimum backends (req : RequestCtx) :
  match LeastConnectionsBalancer_SelectBackend backends req with
  | Returns (Some b) =>
      b ∈ backends /\ eligible b = true /\ GetConnections b < max_int64
      /\ forall b', b' ∈ backends -> eligible b' = true ->
           GetConnections b <= GetConnections b'
  | Returns None =>
      forall b', b' ∈ backends -> eligible b' = true ->
        max_int64 <= GetConnections b'
  | Panics => False
  end.
Proof.
  unfold LeastConnectionsBalancer_SelectBackend.
  assert (Hf : forall x, x ∈ List.filter eligible backends <->
                         x ∈ backends /\ eligible x = true).
  { intros x. rewrite !list_elem_of_In. apply filter_In. }
  destruct (length backends =? 0)%nat eqn:Hl.
  { destruct backends; [|discriminate]. intros b' Hb'. inversion Hb'. }
  destruct (length (List.filter eligible backends) =? 0)%nat eqn:Hl'.
  { destruct (List.filter eligible backends) eqn:He; [|discriminate].
    intros b' Hb' Hel. assert (Hin : b' ∈ @nil (Backend float64)).
    { apply Hf. auto. }
    inversion Hin. }
  destruct (min_connections_fold_spec (List.filter eligible backends)
              (max_int64, None)) as (Hle & Hall & Hres).
  destruct Hres as [Heq|(b & Hb & Heq & Hlt)].
  - rewrite Heq in *. simpl in *. intros b' Hb' Hel. apply Hall, Hf. auto.
  - rewrite Heq in *. simpl in *. apply Hf in Hb as [Hb Hel].
    repeat split; try assumption.
    intros b' Hb' Hel'. apply Hall, Hf. auto.
Qed.

(** X3: the factory gives back the balancer of each of the five policy
    names, and least_connections_weight for every other name. *)
Theorem Factory_GetBalancer_Name :
  (forall lb : LoadBalancer, Factory_GetBalancer (LoadBalancer_Name lb) = lb)
  /\ (forall lbType : string,
        (forall lb, lbType <> LoadBalancer_Name lb) ->
        Factory_GetBalancer lbType = LeastConnectionsWeightBalancer).
Proof.
  split; [intros []; reflexivity|].
  intros lbType H. unfold Factory_GetBalancer.
  destruct (String.eqb_spec lbType "ip_hash") as [E|_];
    [exfalso; apply (H IPHashBalancer), E|].
  destruct (String.eqb_spec lbType "least_connections") as [E|_];
    [exfalso; apply (H LeastConnectionsBalancer), E|].
  destruct (String.eqb_spec lbType "least_connections_weight") as [E|_];
    [reflexivity|].
  destruct (String.eqb_spec lbType "weight") as [E|_];
    [exfalso; apply (H WeightBalancer), E|].
  destruct (String.eqb_spec lbType "performance_least_connections_weight")
    as [E|_]; [exfalso; apply (H PerformanceLCWBalancer), E|].
  reflexivity.
Qed.

End BalancerChoice.

Section WeightAndHash.

Context {float64 : Type}.
Implicit Types (b backend : Backend float64) (backends : list (Backend float64)).

(** X4: the weight policy never panics, and it returns nil exactly when
    no candidate is eligible or the weights of the eligible candidates
    add up to zero (all zero, or cancelling). *)
Theorem WeightBalancer_nil_iff backends (req : RequestCtx) :
  (exists selected, WeightBalancer_SelectBackend backends req = Returns selected)
  /\ (WeightBalancer_SelectBackend backends req = Returns None <->
      List.filter eligible backends = []
      \/ foldl (fun t b => wrap64 (t + Weight b)) 0
               (List.filter eligible backends) = 0).
Proof.
  unfold WeightBalancer_SelectBackend.
  destruct backends as [|b0 rest0] eqn:Hb.
  { simpl. split; [eauto|]. split; auto. }
  rewrite <- Hb. replace (length backends =? 0)%nat with false
    by (rewrite Hb; reflexivity).
  destruct (List.filter eligible backends) as [|x l] eqn:Hf.
  { simpl. split; [eauto|]. split; auto. }
  cbn [length Nat.eqb].
  destruct (Z.eqb_spec (foldl (fun t b => wrap64 (t + Weight b)) 0 (x :: l)) 0)
    as [H0|H0].
  { split; [eauto|]. split; auto. }
  destruct (weight_walk 0 0 (x :: l)) as [b|].
  - split; [eauto|]. split; [discriminate|].
    intros [H|H]; [discriminate H|contradiction].
  - unfold index_slice. simpl. split; [eauto|]. split; [discriminate|].
    intros [H|H]; [discriminate H|contradiction].
Qed.

Lemma hashIP_fold_range (l : list ascii) (h : Z) :
  0 <= h < 2 ^ 32 ->
  0 <= foldl (fun h c => wrap32u (Z.lxor h (byte_of c) * fnv_prime32)) h l
    < 2 ^ 32.
Proof.
  revert h. induction l as [|c l IH]; intros h Hh; simpl; [exact Hh|].
  apply IH. unfold wrap32u. apply Z.mod_pos_bound. lia.
Qed.

Lemma hashIP_range (ip : string) : 0 <= IPHashBalancer_hashIP ip < 2 ^ 32.
Proof.
  unfold IPHashBalancer_hashIP. apply hashIP_fold_range.
  unfold fnv_offset32. lia.
Qed.

(** X6: the hash of a client IP is a 32-bit value, and the hash-index
    statements of ip_hash applied to a non-empty slice never panic: they
    return the element at index hash mod length. *)
Theorem hash_index_in_range (clientIP : string) backends :
  backends <> [] ->
  0 <= IPHashBalancer_hashIP clientIP < 2 ^ 32
  /\ exists b,
       IPHashBalancer_hash_index clientIP backends = Returns (Some b)
       /\ backends !! Z.to_nat (IPHashBalancer_hashIP clientIP
                                 mod Z.of_nat (length backends)) = Some b.
Proof.
  intros Hne. pose proof (hashIP_range clientIP) as Hr. split; [exact Hr|].
  unfold IPHashBalancer_hash_index, index_slice.
  assert (Hlen : 0 < Z.of_nat (length backends)).
  { destruct backends; [contradiction|]. simpl. lia. }
  rewrite wrap64_id by (unfold in_int64, min_int64, max_int64; lia).
  rewrite Z.rem_mod_nonneg by lia.
  pose proof (Z.mod_pos_bound (IPHashBalancer_hashIP clientIP)
                (Z.of_nat (length backends)) Hlen) as Hm.
  destruct (Z.ltb_spec (IPHashBalancer_hashIP clientIP
                        mod Z.of_nat (length backends)) 0); [lia|].
  destruct (backends !! Z.to_nat (IPHashBalancer_hashIP clientIP
                                   mod Z.of_nat (length backends)))
    as [b|] eqn:Hl.
  - exists b. auto.
  - apply lookup_ge_None in Hl. lia.
Qed.

End WeightAndHash.

Lemma WeightBalancer_nil_iff_witness :
  WeightBalancer_SelectBackend
    [Sample.backend "z1" 0 0 0; Sample.backend "z2" 0 3 0]
    (Sample.ctx "/" [] "203.0.113.7") = Returns None.
Proof.
  apply (WeightBalancer_nil_iff
           [Sample.backend "z1" 0 0 0; Sample.backend "z2" 0 3 0]).
  right. reflexivity.
Defined.

Lemma hash_index_in_range_witness :
  exists b,
    IPHashBalancer_hash_index "203.0.113.7" Sample.weighted = Returns (Some b)
    /\ Sample.weighted
         !! Z.to_nat (IPHashBalancer_hashIP "203.0.113.7"
                      mod Z.of_nat (length Sample.weighted)) = Some b.
Proof.
  apply (hash_index_in_range "203.0.113.7" Sample.weighted). discriminate.
Defined.

(** The first of three weighted backends is returned although it holds
    40 connections and the others none. *)
Lemma WeightBalancer_first_witness :
  WeightBalancer_SelectBackend
    (Sample.backend "w1" 1 40 0 :: [Sample.backend "w2" 2 0 0; Sample.backend "w3" 3 0 0])
    (Sample.ctx "/" [] "203.0.113.7")
  = Returns (Some (Sample.backend "w1" 1 40 0)).
Proof.
  apply WeightBalancer_first.
  - reflexivity.
  - vm_compute. split; [reflexivity|intros E; discriminate E].
  - vm_compute. intros E; discriminate E.
Defined.

(** ** The upstream registry *)

Section RegistryProperties.

Context {float64 : Type}.
Implicit Types (um : UpstreamManager) (u : Upstream)
  (h : gmap nat (Backend float64)).

Lemma NewUpstreamManager_wf : registry_wf NewUpstreamManager.
Proof. intros n i H. simpl in H. rewrite lookup_empty in H. discriminate. Qed.

(** X7: on a registry whose indices are in range, CreateUpstream of a
    free name registers the upstream with the given backends, leaves
    every other name as it resolves, and keeps the indices in range;
    CreateUpstream of a name already in the map fails and changes
    nothing. *)
Theorem CreateUpstream_GetUpstream um (name : string) (ps : list nat) :
  registry_wf um ->
  match names um !! name with
  | None =>
      exists um',
        UpstreamManager_CreateUpstream um name ps
        = (Some {| name := name; backends := ps |}, um')
        /\ UpstreamManager_GetUpstream um' name
           = Some {| name := name; backends := ps |}
        /\ (forall other, other <> name ->
              UpstreamManager_GetUpstream um' other
              = UpstreamManager_GetUpstream um other)
        /\ registry_wf um'
  | Some _ => UpstreamManager_CreateUpstream um name ps = (None, um)
  end.
Proof.
  intros Hwf. unfold UpstreamManager_CreateUpstream.
  destruct (names um !! name) as [i|] eqn:Hn; [reflexivity|].
  eexists. split; [reflexivity|]. unfold UpstreamManager_GetUpstream. simpl.
  split; [|split].
  - rewrite lookup_insert_eq. apply list_lookup_middle. reflexivity.
  - intros other Hne. rewrite lookup_insert_ne by congruence.
    destruct (names um !! other) as [j|] eqn:Ho; [|reflexivity].
    apply lookup_app_l. eapply Hwf, Ho.
  - intros n j Hj. simpl in *. rewrite length_app. simpl.
    destruct (decide (name = n)) as [->|Hne].
    + rewrite lookup_insert_eq in Hj. injection Hj as <-. lia.
    + rewrite lookup_insert_ne in Hj by exact Hne.
      apply Hwf in Hj. lia.
Qed.

(** X8: after RemoveUpstream the name resolves to nothing, every other
    name resolves as before, and the slice of upstreams is untouched:
    the slot of the removed upstream is never reclaimed. *)
Theorem RemoveUpstream_GetUpstream um (name : string) :
  UpstreamManager_GetUpstream (UpstreamManager_RemoveUpstream um name) name = None
  /\ (forall other, other <> name ->
        UpstreamManager_GetUpstream (UpstreamManager_RemoveUpstream um name) other
        = UpstreamManager_GetUpstream um other)
  /\ upstreams (UpstreamManager_RemoveUpstream um name) = upstreams um
  /\ (registry_wf um -> registry_wf (UpstreamManager_RemoveUpstream um name)).
Proof.
  unfold UpstreamManager_RemoveUpstream, UpstreamManager_GetUpstream.
  destruct (names um !! name) as [i|] eqn:Hn.
  - destruct (Nat.ltb_spec i (length (upstreams um))) as [Hlt|Hge]; simpl.
    + split; [rewrite lookup_delete_eq; reflexivity|].
      split; [intros other Hne; rewrite lookup_delete_ne by congruence;
              reflexivity|].
      split; [reflexivity|].
      intros Hwf n j Hj. simpl in *.
      destruct (decide (name = n)) as [->|Hne].
      * rewrite lookup_delete_eq in Hj. discriminate.
      * rewrite lookup_delete_ne in Hj by exact Hne. eapply Hwf, Hj.
    + rewrite Hn. split; [apply lookup_ge_None; lia|]. auto.
  - rewrite Hn. auto.
Qed.

Lemma RemoveUpstream_fresh um (name : string) :
  registry_wf um ->
  names (UpstreamManager_RemoveUpstream um name) !! name = None
  /\ upstreams (UpstreamManager_RemoveUpstream um name) = upstreams um.
Proof.
  intros Hwf. unfold UpstreamManager_RemoveUpstream.
  destruct (names um !! name) as [i|] eqn:Hn; [|auto].
  destruct (Nat.ltb_spec i (length (upstreams um))) as [Hlt|Hge]; simpl.
  - split; [apply lookup_delete_eq|reflexivity].
  - apply Hwf in Hn. lia.
Qed.

(** X9: a name removed and created again gets a new slot at the end of
    the slice, one longer than before, and resolves to the new
    backends. *)
Theorem RemoveUpstream_CreateUpstream um (name : string) (ps : list nat) :
  registry_wf um ->
  exists um',
    UpstreamManager_CreateUpstream (UpstreamManager_RemoveUpstream um name) name ps
    = (Some {| name := name; backends := ps |}, um')
    /\ UpstreamManager_GetUpstream um' name
       = Some {| name := name; backends := ps |}
    /\ length (upstreams um') = S (length (upstreams um)).
Proof.
  intros Hwf.
  destruct (RemoveUpstream_fresh um name Hwf) as [Hfree Hups].
  unfold UpstreamManager_CreateUpstream. rewrite Hfree.
  eexists. split; [reflexivity|]. unfold UpstreamManager_GetUpstream. simpl.
  rewrite lookup_insert_eq. split; [apply list_lookup_middle; reflexivity|].
  rewrite length_app, Hups. simpl. lia.
Qed.

End RegistryProperties.

Lemma CreateUpstream_GetUpstream_witness :
  exists um',
    UpstreamManager_CreateUpstream NewUpstreamManager "default" [0%nat; 1%nat]
    = (Some {| name := "default"; backends := [0%nat; 1%nat] |}, um')
    /\ UpstreamManager_GetUpstream um' "default"
       = Some {| name := "default"; backends := [0%nat; 1%nat] |}
    /\ (forall other, other <> "default" ->
          UpstreamManager_GetUpstream um' other
          = UpstreamManager_GetUpstream NewUpstreamManager other)
    /\ registry_wf um'.
Proof.
  exact (CreateUpstream_GetUpstream NewUpstreamManager "default" [0%nat; 1%nat]
           NewUpstreamManager_wf).
Defined.

Lemma Sample_registry_wf : registry_wf Sample.registry.
Proof.
  intros n i H. cbn [Sample.registry names] in H.
  apply lookup_singleton_Some in H as [_ <-]. simpl. lia.
Qed.

(** The registered upstream "default" is removed and created again with
    another backend: the name resolves to the new upstream, in slot 1,
    and the old upstream still occupies slot 0. *)
Lemma RemoveUpstream_CreateUpstream_witness :
  UpstreamManager_GetUpstream Sample.registry "default"
  = Some {| name := "default"; backends := [0%nat; 1%nat] |}
  /\ UpstreamManager_GetUpstream
       (UpstreamManager_RemoveUpstream Sample.registry "default") "default"
     = None
  /\ exists um',
       UpstreamManager_CreateUpstream
         (UpstreamManager_RemoveUpstream Sample.registry "default")
         "default" [2%nat]
       = (Some {| name := "default"; backends := [2%nat] |}, um')
       /\ UpstreamManager_GetUpstream um' "default"
          = Some {| name := "default"; backends := [2%nat] |}
       /\ length (upstreams um') = S (length (upstreams Sample.registry)).
Proof.
  split; [reflexivity|]. split; [reflexivity|].
  exact (RemoveUpstream_CreateUpstream Sample.registry "default" [2%nat]
           Sample_registry_wf).
Defined.

Section BackendListProperties.

Context {float64 : Type}.
Implicit Types (u : Upstream) (h : gmap nat (Backend float64)).

(** X10: RemoveBackend takes out the first address whose backend has
    the id, and only that one (a later backend with the same id stays);
    when no backend of the upstream has the id nothing changes. *)
Theorem RemoveBackend_first h u (backendID : string) :
  (exists before p after backend,
     backends u = (before ++ p :: after)%list
     /\ h !! p = Some backend /\ ID backend = backendID
     /\ (forall q b, q ∈ before -> h !! q = Some b -> ID b <> backendID)
     /\ backends (Upstream_RemoveBackend h u backendID) = (before ++ after)%list)
  \/ ((forall q b, q ∈ backends u -> h !! q = Some b -> ID b <> backendID)
      /\ Upstream_RemoveBackend h u backendID = u).
Proof.
  destruct u as [n ps]. unfold Upstream_RemoveBackend. simpl.
  assert (G : (exists before p after backend,
                 ps = (before ++ p :: after)%list
                 /\ h !! p = Some backend /\ ID backend = backendID
                 /\ (forall q b, q ∈ before -> h !! q = Some b -> ID b <> backendID)
                 /\ remove_first_id h ps backendID = (before ++ after)%list)
              \/ ((forall q b, q ∈ ps -> h !! q = Some b -> ID b <> backendID)
                  /\ remove_first_id h ps backendID = ps)).
  { induction ps as [|p ps IH]; simpl.
    - right. split; [|reflexivity]. intros q b Hq. inversion Hq.
    - destruct (h !! p) as [backend|] eqn:Hp.
      + destruct (String.eqb_spec (ID backend) backendID) as [Hid|Hid].
        * left. exists [], p, ps, backend. simpl. repeat split; try assumption.
          intros q b Hq. inversion Hq.
        * destruct IH as [(before & q & after & bq & -> & Hq & Hidq & Hbef & Hrem)
                         |[Hall Hrem]].
          -- left. exists (p :: before), q, after, bq. simpl.
             repeat split; try assumption; [|rewrite Hrem; reflexivity].
             intros r b Hr Hb. apply elem_of_cons in Hr as [->|Hr]; [|eauto].
             rewrite Hp in Hb. injection Hb as <-. exact Hid.
          -- right. split; [|rewrite Hrem; reflexivity].
             intros r b Hr Hb. apply elem_of_cons in Hr as [->|Hr]; [|eauto].
             rewrite Hp in Hb. injection Hb as <-. exact Hid.
      + destruct IH as [(before & q & after & bq & -> & Hq & Hidq & Hbef & Hrem)
                       |[Hall Hrem]].
        * left. exists (p :: before), q, after, bq. simpl.
          repeat split; try assumption; [|rewrite Hrem; reflexivity].
          intros r b Hr Hb. apply elem_of_cons in Hr as [->|Hr]; [|eauto].
          rewrite Hp in Hb. discriminate.
        * right. split; [|rewrite Hrem; reflexivity].
          intros r b Hr Hb. apply elem_of_cons in Hr as [->|Hr]; [|eauto].
          rewrite Hp in Hb. discriminate. }
  destruct G as [G|[Hall Hrem]]; [left; exact G|right].
  split; [exact Hall|]. rewrite Hrem. reflexivity.
Qed.

(** X11: AddBackend puts the address at the end of the upstream, but
    the live view shows it only if the backend has both its atomic flag
    and its configured flag set: a backend added with Active = true whose
    atomic flag was never stored stays out of every selection. *)
Theorem AddBackend_live_view h u (p : nat) :
  backends (Upstream_AddBackend u p) = (backends u ++ [p])%list
  /\ Upstream_GetBackends h (Upstream_AddBackend u p)
     = (Upstream_GetBackends h u
        ++ match h !! p with
           | Some backend => if IsActive backend && Active backend then [p] else []
           | None => []
           end)%list.
Proof.
  split; [reflexivity|]. unfold Upstream_GetBackends, Upstream_AddBackend. simpl.
  rewrite List.filter_app. simpl.
  destruct (h !! p) as [backend|]; [|reflexivity].
  destruct (IsActive backend && Active backend); reflexivity.
Qed.

(** X12: SetActive stores the flag in both places: after
    SetActive(false) on the backend at an address the live view of every
    upstream leaves the address out, after SetActive(true) it shows the
    address exactly when the upstream lists it, and the other addresses
    are shown as before. *)
Theorem SetActive_live_view h u (p : nat) (backend : Backend float64) (a : bool) :
  IsActive (SetActive backend a) = a
  /\ Active (SetActive backend a) = a
  /\ (p ∈ Upstream_GetBackends (<[p := SetActive backend a]> h) u <->
      a = true /\ p ∈ backends u)
  /\ (forall q, q <> p ->
        (q ∈ Upstream_GetBackends (<[p := SetActive backend a]> h) u <->
         q ∈ Upstream_GetBackends h u)).
Proof.
  split; [destruct a; reflexivity|]. split; [reflexivity|].
  unfold Upstream_GetBackends. split.
  - rewrite list_elem_of_In, filter_In, <- list_elem_of_In.
    rewrite lookup_insert_eq. destruct a; simpl; intuition congruence.
  - intros q Hq. rewrite !list_elem_of_In, !filter_In.
    rewrite lookup_insert_ne by congruence. reflexivity.
Qed.

End BackendListProperties.

Section InitUpstreamsProperties.

Context {float64 : Type}.
Implicit Types (um : UpstreamManager) (h : gmap nat (Backend float64))
  (entries : list (string * list nat)).

Lemma synced_SetActive (backend : Backend float64) :
  IsActive (SetActive backend (Active backend)) = Active (SetActive backend (Active backend)).
Proof. destruct (Active backend) eqn:Ha; unfold IsActive; simpl; rewrite ?Ha; reflexivity. Qed.

Lemma sync_active_keeps_synced h (ps : list nat) (q : nat) :
  synced h q -> synced (sync_active h ps) q.
Proof.
  unfold sync_active. revert h. induction ps as [|p ps IH]; intros h Hq; simpl;
    [exact Hq|].
  apply IH. destruct (h !! p) as [backend|] eqn:Hp; [|exact Hq].
  intros b Hb. destruct (decide (p = q)) as [->|Hne].
  - rewrite lookup_insert_eq in Hb. injection Hb as <-. apply synced_SetActive.
  - rewrite lookup_insert_ne in Hb by exact Hne. apply Hq, Hb.
Qed.

Lemma sync_active_synced h (ps : list nat) (q : nat) :
  q ∈ ps -> synced (sync_active h ps) q.
Proof.
  unfold sync_active. revert h. induction ps as [|p ps IH]; intros h Hq; simpl;
    [inversion Hq|].
  apply elem_of_cons in Hq as [->|Hq]; [|apply IH, Hq].
  apply (sync_active_keeps_synced _ ps).
  destruct (h !! p) as [backend|] eqn:Hp.
  - intros b Hb. rewrite lookup_insert_eq in Hb. injection Hb as <-.
    apply synced_SetActive.
  - intros b Hb. rewrite Hp in Hb. discriminate.
Qed.

Lemma sync_active_gauge h (ps : list nat) (q : nat) :
  GetConnections <$> (sync_active h ps !! q) = GetConnections <$> (h !! q).
Proof.
  unfold sync_active. revert h. induction ps as [|p ps IH]; intros h; simpl;
    [reflexivity|].
  rewrite IH. destruct (h !! p) as [backend|] eqn:Hp; [|reflexivity].
  destruct (decide (p = q)) as [->|Hne].
  - rewrite lookup_insert_eq, Hp. reflexivity.
  - rewrite lookup_insert_ne by exact Hne. reflexivity.
Qed.

Lemma initUpstreams_fresh_general entries um h :
  registry_wf um ->
  NoDup entries.*1 ->
  (forall n, n ∈ entries.*1 -> names um !! n = None) ->
  (Server_initUpstreams entries um h).1.1 = None
  /\ registry_wf (Server_initUpstreams entries um h).1.2
  /\ (forall n ps, (n, ps) ∈ entries ->
        UpstreamManager_GetUpstream (Server_initUpstreams entries um h).1.2 n
        = Some {| name := n; backends := ps |}
        /\ forall p, p ∈ ps -> synced (Server_initUpstreams entries um h).2 p)
  /\ (forall other, other ∉ entries.*1 ->
        UpstreamManager_GetUpstream (Server_initUpstreams entries um h).1.2 other
        = UpstreamManager_GetUpstream um other)
  /\ (forall q, synced h q -> synced (Server_initUpstreams entries um h).2 q).
Proof.
  revert um h. induction entries as [|[n ps] rest IH]; intros um h Hwf Hnd Hfree.
  - simpl. split; [reflexivity|]. split; [exact Hwf|]. split; [|auto].
    intros x xs H. inversion H.
  - simpl in Hnd. apply NoDup_cons in Hnd as [Hn Hnd].
    cbn [Server_initUpstreams]. unfold UpstreamManager_CreateUpstream.
    rewrite (Hfree n) by (simpl; left).
    set (um1 := {| upstreams := upstreams um ++ [{| name := n; backends := ps |}];
                   names := <[n := length (upstreams um)]> (names um) |}).
    assert (Hwf1 : registry_wf um1).
    { intros m j Hj. subst um1. simpl in *. rewrite length_app. simpl.
      destruct (decide (n = m)) as [->|Hne].
      - rewrite lookup_insert_eq in Hj. injection Hj as <-. lia.
      - rewrite lookup_insert_ne in Hj by exact Hne. apply Hwf in Hj. lia. }
    assert (Hget1 : UpstreamManager_GetUpstream um1 n
                    = Some {| name := n; backends := ps |}).
    { unfold UpstreamManager_GetUpstream. subst um1. simpl.
      rewrite lookup_insert_eq. apply list_lookup_middle. reflexivity. }
    assert (Hother1 : forall other, other <> n ->
              UpstreamManager_GetUpstream um1 other
              = UpstreamManager_GetUpstream um other).
    { intros other Hne. unfold UpstreamManager_GetUpstream. subst um1. simpl.
      rewrite lookup_insert_ne by congruence.
      destruct (names um !! other) as [j|] eqn:Ho; [|reflexivity].
      apply lookup_app_l. eapply Hwf, Ho. }
    assert (Hfree1 : forall m, m ∈ rest.*1 -> names um1 !! m = None).
    { intros m Hm. subst um1. simpl.
      rewrite lookup_insert_ne by (intros ->; contradiction).
      apply Hfree. simpl. right. exact Hm. }
    destruct (IH um1 (sync_active h ps) Hwf1 Hnd Hfree1)
      as (Herr & Hwf' & Hreg & Hoth & Hsync).
    split; [exact Herr|]. split; [exact Hwf'|]. split; [|split].
    + intros m qs Hin. apply elem_of_cons in Hin as [[= -> ->]|Hin].
      * split; [rewrite Hoth by exact Hn; exact Hget1|].
        intros p Hp. apply Hsync, sync_active_synced, Hp.
      * apply Hreg, Hin.
    + intros other Hno. simpl in Hno. apply not_elem_of_cons in Hno as [Hne Hno].
      rewrite Hoth by exact Hno. apply Hother1, Hne.
    + intros q Hq. apply Hsync, sync_active_keeps_synced, Hq.
Qed.

(** X13: on an empty registry, with every upstream name of the
    configuration occurring once, initUpstreams reports no error,
    registers every upstream with its backends, and leaves every listed
    backend with its atomic flag equal to its configured flag. *)
Theorem initUpstreams_fresh entries h :
  NoDup entries.*1 ->
  (Server_initUpstreams entries NewUpstreamManager h).1.1 = None
  /\ forall n ps, (n, ps) ∈ entries ->
       UpstreamManager_GetUpstream
         (Server_initUpstreams entries NewUpstreamManager h).1.2 n
       = Some {| name := n; backends := ps |}
       /\ forall p, p ∈ ps ->
            synced (Server_initUpstreams entries NewUpstreamManager h).2 p.
Proof.
  intros Hnd.
  assert (Hfree : forall n, n ∈ entries.*1 -> names NewUpstreamManager !! n = None).
  { intros n _. apply lookup_empty. }
  destruct (initUpstreams_fresh_general entries NewUpstreamManager h
              NewUpstreamManager_wf Hnd Hfree) as (Herr & _ & Hreg & _).
  split; [exact Herr|exact Hreg].
Qed.

Lemma initUpstreams_keeps_names entries um h (n : string) (i : nat) :
  names um !! n = Some i ->
  names (Server_initUpstreams entries um h).1.2 !! n = Some i
  /\ (registry_wf um -> registry_wf (Server_initUpstreams entries um h).1.2)
  /\ (forall j, (j < length (upstreams um))%nat ->
        upstreams (Server_initUpstreams entries um h).1.2 !! j = upstreams um !! j).
Proof.
  revert um h. induction entries as [|[m ps] rest IH]; intros um h Hn.
  - simpl. auto.
  - cbn [Server_initUpstreams]. unfold UpstreamManager_CreateUpstream.
    destruct (names um !! m) as [k|] eqn:Hm; [simpl; auto|].
    set (um1 := {| upstreams := upstreams um ++ [{| name := m; backends := ps |}];
                   names := <[m := length (upstreams um)]> (names um) |}).
    assert (Hn1 : names um1 !! n = Some i).
    { subst um1. simpl. rewrite lookup_insert_ne by congruence. exact Hn. }
    destruct (IH um1 (sync_active h ps) Hn1) as (Hnames & Hwf & Hups).
    split; [exact Hnames|]. split.
    + intros Hwf0. apply Hwf. intros x j Hj. subst um1. simpl in *.
      rewrite length_app. simpl.
      destruct (decide (m = x)) as [->|Hne].
      * rewrite lookup_insert_eq in Hj. injection Hj as <-. lia.
      * rewrite lookup_insert_ne in Hj by exact Hne. apply Hwf0 in Hj. lia.
    + intros j Hj. rewrite Hups.
      * subst um1. simpl. apply lookup_app_l, Hj.
      * subst um1. simpl. rewrite length_app. lia.
Qed.

(** X14: initUpstreams never changes what an already registered name
    resolves to, and never touches a connections gauge; run again on a
    configuration whose first upstream is registered (as updateConfig
    does on a reload) it stops with the error at that upstream and
    leaves the whole registry as it was. *)
Theorem initUpstreams_keeps_registered entries um h :
  registry_wf um ->
  (forall n, is_Some (names um !! n) ->
     UpstreamManager_GetUpstream (Server_initUpstreams entries um h).1.2 n
     = UpstreamManager_GetUpstream um n)
  /\ (forall q, GetConnections <$> ((Server_initUpstreams entries um h).2 !! q)
                = GetConnections <$> (h !! q))
  /\ (forall n ps rest, entries = (n, ps) :: rest -> is_Some (names um !! n) ->
        (Server_initUpstreams entries um h).1 = (Some n, um)).
Proof.
  intros Hwf. split; [|split].
  - intros n [i Hn]. unfold UpstreamManager_GetUpstream.
    destruct (initUpstreams_keeps_names entries um h n i Hn) as (-> & _ & Hups).
    rewrite Hn. apply Hups. eapply Hwf, Hn.
  - revert um h Hwf. induction entries as [|[m ps] rest IH]; intros um h Hwf q;
      [reflexivity|].
    cbn [Server_initUpstreams]. unfold UpstreamManager_CreateUpstream.
    destruct (names um !! m) as [k|] eqn:Hm; [simpl; apply sync_active_gauge|].
    rewrite IH; [apply sync_active_gauge|].
    intros x j Hj. simpl in *. rewrite length_app. simpl.
    destruct (decide (m = x)) as [->|Hne].
    + rewrite lookup_insert_eq in Hj. injection Hj as <-. lia.
    + rewrite lookup_insert_ne in Hj by exact Hne. apply Hwf in Hj. lia.
  - intros n ps rest -> [i Hn]. cbn [Server_initUpstreams].
    unfold UpstreamManager_CreateUpstream. rewrite Hn. reflexivity.
Qed.

End InitUpstreamsProperties.

Lemma initUpstreams_fresh_witness :
  (Server_initUpstreams [("default", [0%nat]); ("api", [1%nat; 2%nat])]
     NewUpstreamManager (heap (Sample.server [] (Sample.backend "b1" 100 0 0)))).1.1
  = None.
Proof.
  apply (initUpstreams_fresh [("default", [0%nat]); ("api", [1%nat; 2%nat])]).
  apply NoDup_cons. split.
  - intros H. apply elem_of_cons in H as [H|H]; [discriminate H|inversion H].
  - apply NoDup_cons. split; [intros H; inversion H|apply NoDup_nil_2].
Defined.

Lemma initUpstreams_keeps_registered_witness :
  (Server_initUpstreams [("default", [7%nat])]
     (upstreamMgr (Sample.server [] (Sample.backend "b1" 100 0 0)))
     (heap (Sample.server [] (Sample.backend "b1" 100 0 0)))).1
  = (Some "default", upstreamMgr (Sample.server [] (Sample.backend "b1" 100 0 0))).
Proof.
  refine (proj2 (proj2 (initUpstreams_keeps_registered
                          [("default", [7%nat])] _ _ _))
                "default" [7%nat] [] eq_refl _).
  - intros n i H. simpl in H.
    apply lookup_singleton_Some in H as [_ <-]. simpl. lia.
  - exists 0%nat. reflexivity.
Defined.

(** ** Draining *)

Section DisconnectProperties.

Context {float64 : Type}.
Implicit Types (s : ProxyServer float64) (h : gmap nat (Backend float64)).

Lemma mark_first_Some h (ps : list nat) (backendID : string) h' :
  mark_first h ps backendID = Some h' ->
  exists p backend,
    p ∈ ps /\ h !! p = Some backend /\ ID backend = backendID
    /\ h' = <[p := MarkForDisconnect backend]> h.
Proof.
  induction ps as [|p ps IH]; simpl; [discriminate|].
  destruct (h !! p) as [backend|] eqn:Hp.
  - destruct (String.eqb_spec (ID backend) backendID) as [Hid|Hid].
    + intros [= <-]. exists p, backend. split; [left|]. auto.
    + intros H. destruct (IH H) as (q & b & Hq & Hb).
      exists q, b. split; [right; exact Hq|exact Hb].
  - intros H. destruct (IH H) as (q & b & Hq & Hb).
    exists q, b. split; [right; exact Hq|exact Hb].
Qed.

Lemma mark_first_None h (ps : list nat) (backendID : string) :
  mark_first h ps backendID = None ->
  forall p backend, p ∈ ps -> h !! p = Some backend -> ID backend <> backendID.
Proof.
  induction ps as [|p ps IH]; simpl; intros H q b Hq Hb; [inversion Hq|].
  destruct (h !! p) as [backend|] eqn:Hp.
  - destruct (String.eqb_spec (ID backend) backendID) as [Hid|Hid];
      [discriminate|].
    apply elem_of_cons in Hq as [->|Hq]; [|eauto].
    rewrite Hp in Hb. injection Hb as <-. exact Hid.
  - apply elem_of_cons in Hq as [->|Hq]; [|eauto].
    rewrite Hp in Hb. discriminate.
Qed.

Lemma mark_first_prefix h (ps : list nat) (backendID : string) h' :
  mark_first h ps backendID = Some h' ->
  exists before p after backend,
    ps = (before ++ p :: after)%list
    /\ (forall q b, q ∈ before -> h !! q = Some b -> ID b <> backendID)
    /\ h !! p = Some backend /\ ID backend = backendID
    /\ h' = <[p := MarkForDisconnect backend]> h.
Proof.
  induction ps as [|p ps IH]; simpl; [discriminate|].
  destruct (h !! p) as [backend|] eqn:Hp.
  - destruct (String.eqb_spec (ID backend) backendID) as [Hid|Hid].
    + intros [= <-]. exists [], p, ps, backend.
      split; [reflexivity|]. split; [|auto].
      intros q b Hq. inversion Hq.
    + intros H. destruct (IH H) as (before & q & after & b & -> & Hno & Hrest).
      exists (p :: before), q, after, b. split; [reflexivity|].
      split; [|exact Hrest].
      intros q' b' Hq' Hb'. apply elem_of_cons in Hq' as [->|Hq']; [|eauto].
      rewrite Hp in Hb'. injection Hb' as <-. exact Hid.
  - intros H. destruct (IH H) as (before & q & after & b & -> & Hno & Hrest).
    exists (p :: before), q, after, b. split; [reflexivity|].
    split; [|exact Hrest].
    intros q' b' Hq' Hb'. apply elem_of_cons in Hq' as [->|Hq']; [|eauto].
    rewrite Hp in Hb'. discriminate.
Qed.

(** X15: DisconnectBackend succeeds exactly for a backend of the live
    view of a registered upstream: it sets the drain mark on the first
    backend of the live view that has the id (no backend before it in
    the live view has the id) and changes nothing else; that backend is
    then no longer eligible although the live view still lists it, and
    its connections gauge is left alone; for an unknown upstream, and
    for an id that no live backend has (an inactive backend included),
    it fails and changes nothing. *)
Theorem DisconnectBackend_drains s (upstreamID backendID : string) :
  match Server_DisconnectBackend s upstreamID backendID with
  | (None, s') =>
      exists upstream before p after backend,
        UpstreamManager_GetUpstream (upstreamMgr s) upstreamID = Some upstream
        /\ Upstream_GetBackends (heap s) upstream = (before ++ p :: after)%list
        /\ (forall q b, q ∈ before -> heap s !! q = Some b -> ID b <> backendID)
        /\ p ∈ Upstream_GetBackends (heap s) upstream
        /\ heap s !! p = Some backend /\ ID backend = backendID
        /\ heap s' = <[p := MarkForDisconnect backend]> (heap s)
        /\ upstreamMgr s' = upstreamMgr s
        /\ srv_config s' = srv_config s
        /\ p ∈ Upstream_GetBackends (heap s') upstream
        /\ eligible (MarkForDisconnect backend) = false
        /\ GetConnections (MarkForDisconnect backend) = GetConnections backend
  | (Some (UpstreamNotFound _), s') =>
      s' = s /\ UpstreamManager_GetUpstream (upstreamMgr s) upstreamID = None
  | (Some (BackendNotFound _ _), s') =>
      s' = s
      /\ exists upstream,
           UpstreamManager_GetUpstream (upstreamMgr s) upstreamID = Some upstream
           /\ forall p backend,
                p ∈ Upstream_GetBackends (heap s) upstream ->
                heap s !! p = Some backend -> ID backend <> backendID
  end.
Proof.
  unfold Server_DisconnectBackend.
  destruct (UpstreamManager_GetUpstream (upstreamMgr s) upstreamID)
    as [upstream|] eqn:Hu; [|auto].
  destruct (mark_first (heap s) (Upstream_GetBackends (heap s) upstream) backendID)
    as [h'|] eqn:Hm.
  - apply mark_first_prefix in Hm
      as (before & p & after & backend & Hsplit & Hno & Hl & Hid & ->).
    assert (Hp : p ∈ Upstream_GetBackends (heap s) upstream).
    { rewrite Hsplit. apply elem_of_app. right. left. }
    exists upstream, before, p, after, backend. cbn [heap upstreamMgr srv_config].
    split; [reflexivity|]. split; [exact Hsplit|]. split; [exact Hno|].
    split; [exact Hp|]. split; [exact Hl|].
    split; [exact Hid|]. split; [reflexivity|]. split; [reflexivity|].
    split; [reflexivity|].
    split; [|split; [|reflexivity]].
    + unfold Upstream_GetBackends in *.
      apply list_elem_of_In, filter_In.
      apply list_elem_of_In, filter_In in Hp as [Hin Hlive].
      split; [exact Hin|]. rewrite lookup_insert_eq.
      rewrite Hl in Hlive. exact Hlive.
    + unfold eligible, ShouldDisconnect, MarkForDisconnect. simpl.
      rewrite andb_false_r. reflexivity.
  - split; [reflexivity|]. exists upstream. split; [reflexivity|].
    apply mark_first_None, Hm.
Qed.

(** X16: a POST to the disconnect endpoint whose body can be read is
    always answered "Backend disconnect request accepted": also when
    the body is not JSON, an id is empty, the upstream is unknown or no
    live backend has the id, and in all these cases nothing is changed. *)
Theorem handleDisconnectBackend_accepts s (body : disconnect_body) :
  body <> DisconnectReadFails ->
  (Server_handleDisconnectBackend s "POST" body).1
  = JsonOk true "Backend disconnect request accepted"
  /\ (body = DisconnectInvalidJSON ->
      (Server_handleDisconnectBackend s "POST" body).2 = s)
  /\ (forall upstreamID backendID,
        body = DisconnectReq upstreamID backendID ->
        upstreamID = "" \/ backendID = ""
        \/ (Server_DisconnectBackend s upstreamID backendID).1 <> None ->
        (Server_handleDisconnectBackend s "POST" body).2 = s).
Proof.
  intros Hbody. unfold Server_handleDisconnectBackend. simpl (negb _).
  destruct body as [| |up id]; [contradiction| |]; simpl.
  - split; [reflexivity|]. split; [reflexivity|]. intros ? ? H. discriminate H.
  - split; [reflexivity|]. split; [discriminate|].
    intros upstreamID backendID [= <- <-] H.
    destruct (String.eqb_spec up "") as [Hu|Hu]; [reflexivity|].
    destruct (String.eqb_spec id "") as [Hi|Hi]; [reflexivity|]. simpl.
    destruct H as [H|[H|H]]; [contradiction|contradiction|].
    unfold Server_DisconnectBackend in *.
    destruct (UpstreamManager_GetUpstream (upstreamMgr s) up); [|reflexivity].
    destruct (mark_first _ _ _); [|reflexivity].
    simpl in H. contradiction.
Qed.

End DisconnectProperties.

Lemma handleDisconnectBackend_accepts_witness :
  (Server_handleDisconnectBackend
     (Sample.server [] (Sample.backend "b1" 100 0 0)) "POST"
     (DisconnectReq "nowhere" "b9")).1
  = JsonOk true "Backend disconnect request accepted"
  /\ (Server_handleDisconnectBackend
        (Sample.server [] (Sample.backend "b1" 100 0 0)) "POST"
        (DisconnectReq "nowhere" "b9")).2
     = Sample.server [] (Sample.backend "b1" 100 0 0).
Proof.
  assert (Hbody : DisconnectReq "nowhere" "b9" <> DisconnectReadFails)
    by discriminate.
  destruct (handleDisconnectBackend_accepts
              (Sample.server [] (Sample.backend "b1" 100 0 0))
              (DisconnectReq "nowhere" "b9") Hbody) as (Hok & _ & Hsame).
  split; [exact Hok|].
  apply (Hsame "nowhere" "b9" eq_refl). right. right.
  vm_compute. discriminate.
Defined.

(** ** Dispatch to an eligible backend, and accounting *)

Section DispatchEligibility.

Context {float64 : Type} {FO : Float64Ops float64} {GS : GoSort}.
Implicit Types (s : ProxyServer float64) (ctx : RequestCtx).

Hypothesis sort_Slice_Permutation :
  forall (A : Type) (less : A -> A -> bool) (l : list A), sort_Slice less l ≡ₚ l.

Hypothesis quotient_not_nan :
  forall c w : Z, 0 < w ->
    f_eqb (f_div (f_of_int c) (f_of_int w)) (f_div (f_of_int c) (f_of_int w))
    = true.

Lemma selected_is_eligible (lb : LoadBalancer)
    (backends : list (Backend float64)) ctx (draw : nat) :
  exists selected,
    SelectBackend lb backends ctx draw = Returns selected
    /\ forall b, selected = Some b -> eligible b = true /\ b ∈ backends.
Proof.
  destruct lb; simpl.
  - apply IPHashBalancer_eligible.
  - apply LeastConnectionsBalancer_eligible.
  - apply LeastConnectionsWeightBalancer_eligible; assumption.
  - apply WeightBalancer_eligible.
  - apply PerformanceLCWBalancer_eligible; assumption.
Qed.

(** X17: handleRequest never panics, and when it hands the request to
    proxyRequest the backend is one that the upstream of the matched
    rule lists, with its configured flag set, active, not draining and
    below its connection limit. *)
Theorem handleRequest_proxies_eligible s ctx (draw : nat) :
  match Server_handleRequest s ctx draw with
  | ProxyRequest backend =>
      eligible backend = true /\ Active backend = true
      /\ exists rule upstream p,
           Server_findRoutingRule (srv_config s) (ctx_Path ctx) = Some rule
           /\ UpstreamManager_GetUpstream (upstreamMgr s) (Rule_Upstream rule)
              = Some upstream
           /\ p ∈ backends upstream /\ heap s !! p = Some backend
  | CtxError _ _ => True
  | HandlerPanics => False
  end.
Proof.
  unfold Server_handleRequest.
  destruct (Server_findRoutingRule (srv_config s) (ctx_Path ctx))
    as [rule|] eqn:Hr; [|exact I].
  destruct (UpstreamManager_GetUpstream (upstreamMgr s) (Rule_Upstream rule))
    as [upstream|] eqn:Hu; [|exact I].
  destruct (length (Upstream_GetBackends (heap s) upstream) =? 0)%nat; [exact I|].
  destruct (selected_is_eligible
              (Factory_GetBalancer (Server_determineLBType rule ctx))
              (deref (heap s) (Upstream_GetBackends (heap s) upstream)) ctx draw)
    as (selected & -> & Hsel).
  destruct selected as [backend|]; [|exact I].
  destruct (Hsel backend eq_refl) as [Hel Hin].
  unfold deref in Hin. apply list_elem_of_omap in Hin as (p & Hp & Hl).
  unfold Upstream_GetBackends in Hp.
  apply list_elem_of_In, filter_In in Hp as [Hp Hlive].
  rewrite Hl in Hlive. apply andb_true_iff in Hlive as [_ Hact].
  split; [exact Hel|]. split; [exact Hact|].
  exists rule, upstream, p. split; [reflexivity|]. split; [exact Hu|].
  split; [apply list_elem_of_In; exact Hp|exact Hl].
Qed.

End DispatchEligibility.

Lemma handleRequest_proxies_eligible_witness :
  match Server_handleRequest
          (Sample.server [("default", Sample.rule "/" "default")]
                         (Sample.backend "b1" 100 0 0))
          (Sample.ctx "/index.html" [] "203.0.113.7") 0 with
  | ProxyRequest backend =>
      eligible backend = true /\ Active backend = true
      /\ exists rule upstream p,
           Server_findRoutingRule
             (srv_config (Sample.server [("default", Sample.rule "/" "default")]
                                        (Sample.backend "b1" 100 0 0)))
             "/index.html" = Some rule
           /\ UpstreamManager_GetUpstream
                (upstreamMgr (Sample.server [("default", Sample.rule "/" "default")]
                                            (Sample.backend "b1" 100 0 0)))
                (Rule_Upstream rule) = Some upstream
           /\ p ∈ backends upstream
           /\ heap (Sample.server [("default", Sample.rule "/" "default")]
                                  (Sample.backend "b1" 100 0 0)) !! p
              = Some backend
  | CtxError _ _ => True
  | HandlerPanics => False
  end.
Proof.
  exact (@handleRequest_proxies_eligible Q QFloat InsertionSort
           insertion_sort_Permutation QFloat_quotient_not_nan
           (Sample.server [("default", Sample.rule "/" "default")]
                          (Sample.backend "b1" 100 0 0))
           (Sample.ctx "/index.html" [] "203.0.113.7") 0).
Defined.

Section AccountingProperties.

Context {float64 : Type}.
Implicit Types (b backend : Backend float64) (g : goroutine)
  (gs : list goroutine).

(** X18: proxyRequest answers 502 "Bad Gateway" when the transport
    fails, and on both ways out it leaves the connections gauge of a
    backend as it found it, provided the gauge was in [0, 2^63-2]; on a
    negative gauge the increment is kept (the decrement saturates), so
    the gauge creeps up by one per request until it reaches 0. *)
Theorem proxyRequest_balanced (t : transport) backend :
  ((Server_proxyRequest t backend).1 = ProxyError "Bad Gateway" 502 <-> t = DoFails)
  /\ (0 <= GetConnections backend < max_int64 ->
      GetConnections (Server_proxyRequest t backend).2 = GetConnections backend)
  /\ (min_int64 <= GetConnections backend < 0 ->
      GetConnections (Server_proxyRequest t backend).2 = GetConnections backend + 1).
Proof.
  unfold Server_proxyRequest. cbn [fst snd]. split; [|split].
  - destruct t; split; congruence.
  - intros Hr. pose proof (GetConnections_Inc backend) as Hinc.
    destruct (DecConnections_cases (IncConnections backend)) as [[H0 _]|[_ ->]].
    + rewrite Hinc in H0; lia.
    + rewrite Hinc by lia. rewrite wrap64_id; [lia|].
      unfold in_int64, min_int64, max_int64 in *. lia.
  - intros Hr.
    assert (Hinc : GetConnections (IncConnections backend) = GetConnections backend + 1).
    { unfold IncConnections, atomic_AddInt64, GetConnections, atomic_LoadInt64 in *.
      simpl. apply wrap64_id. unfold in_int64, min_int64, max_int64 in *. lia. }
    destruct (DecConnections_cases (IncConnections backend)) as [[_ ->]|[Hpos _]].
    + exact Hinc.
    + rewrite Hinc in Hpos. lia.
Qed.

End AccountingProperties.

Lemma proxyRequest_balanced_witness :
  GetConnections (Server_proxyRequest DoFails (Sample.backend "b1" 100 7 0)).2
  = GetConnections (Sample.backend "b1" 100 7 0).
Proof.
  apply (proxyRequest_balanced DoFails (Sample.backend "b1" 100 7 0)).
  vm_compute. split; [intros E; discriminate E|reflexivity].
Defined.

Section ConcurrentAccounting.

Context {float64 : Type}.
Implicit Types (b : Backend float64) (g : goroutine) (gs : list goroutine).

Lemma in_flight_range g : 0 <= in_flight g <= 1.
Proof. unfold in_flight. destruct (prog g) as [|[|] ?]; lia. Qed.

Lemma in_flight_total_range gs : 0 <= in_flight_total gs <= Z.of_nat (length gs).
Proof.
  induction gs as [|g gs IH]; simpl; [lia|].
  pose proof (in_flight_range g). lia.
Qed.

Lemma in_flight_total_insert gs (i : nat) g g' :
  gs !! i = Some g ->
  in_flight_total (<[i := g']> gs)
  = in_flight_total gs - in_flight g + in_flight g'.
Proof.
  revert i. induction gs as [|g0 gs IH]; intros [|i] Hi; simpl in *;
    try discriminate.
  - injection Hi as ->. lia.
  - rewrite (IH i Hi). lia.
Qed.

Lemma in_flight_request_calls (n : nat) (p : pc) :
  in_flight {| prog := request_calls n; at_pc := p |} = 0.
Proof. destruct n; reflexivity. Qed.

Lemma step_preserves_accounting (c0 : Z) (i : nat)
    (s : Backend float64 * list goroutine) :
  accounting_inv c0 s -> accounting_inv c0 (step i s).
Proof.
  destruct s as [b gs]. unfold step. cbn [fst snd].
  destruct (gs !! i) as [g|] eqn:Hi; [|auto].
  intros (Hc & Hall & Hc0 & Hfit). cbn [fst snd] in *.
  assert (Hg : serving g).
  { rewrite Forall_forall in Hall. apply Hall, list_elem_of_lookup. eauto. }
  pose proof (in_flight_total_insert gs i g) as Hins.
  assert (Hrest : forall g' b',
    GetConnections b' = c0 + (in_flight_total gs - in_flight g + in_flight g') ->
    serving g' -> accounting_inv c0 (b', <[i := g']> gs)).
  { intros g' b' H1 H2. split; [|split; [|split]]; cbn [fst snd].
    - rewrite (Hins g' Hi). exact H1.
    - apply Forall_insert; assumption.
    - exact Hc0.
    - rewrite length_insert. exact Hfit. }
  assert (Hbound : forall g', in_flight_total gs - in_flight g + in_flight g'
                              <= Z.of_nat (length gs)).
  { intros g'. rewrite <- (Hins g' Hi).
    pose proof (in_flight_total_range (<[i := g']> gs)) as H.
    rewrite length_insert in H. lia. }
  assert (Hmine : in_flight g <= in_flight_total gs).
  { pose proof (in_flight_total_range (<[i := {| prog := []; at_pc := AtCall |}]> gs)) as H.
    rewrite (Hins _ Hi) in H. unfold in_flight in H at 2. simpl in H. lia. }
  unfold step_goroutine.
  destruct g as [pr p]. destruct Hg as [(n & Hp & Hpc)|(n & Hp & Hpos)];
    cbn [prog at_pc] in *; subst pr.
  - subst p. destruct n as [|n]; cbn [request_calls].
    + apply Hrest; [|left; exists 0%nat; auto].
      unfold in_flight; cbn [prog request_calls]. lia.
    + specialize (Hbound {| prog := CallDec :: request_calls n; at_pc := AtCall |}).
      unfold in_flight in Hbound, Hmine |- *.
      cbn [prog request_calls] in Hbound, Hmine |- *.
      apply Hrest; [|right; exists n; split; [reflexivity|exact I]].
      rewrite GetConnections_Inc by lia.
      unfold in_flight; cbn [prog request_calls]. lia.
  - unfold in_flight in Hmine. cbn [prog] in Hmine.
    destruct p as [|current].
    + unfold GetConnections in *.
      destruct (Z.leb_spec (atomic_LoadInt64 b) 0) as [Hle|Hgt]; [lia|].
      apply Hrest; [|right; exists n; split; [reflexivity|exact Hgt]].
      unfold in_flight; cbn [prog]. lia.
    + unfold loaded_positive in Hpos. cbn [at_pc] in Hpos.
      unfold atomic_CompareAndSwapInt64.
      unfold GetConnections, atomic_LoadInt64 in *.
      destruct (Z.eqb_spec (Connections b) current) as [Heq|Hne].
      * assert (Hw : wrap64 (current - 1) = current - 1).
        { apply wrap64_id. pose proof (in_flight_total_range gs).
          unfold in_int64, min_int64, max_int64 in *. lia. }
        apply Hrest; [|left; exists n; auto].
        cbn [Connections with_Connections]. rewrite Hw.
        rewrite in_flight_request_calls.
        unfold in_flight; cbn [prog]. lia.
      * apply Hrest; [|right; exists n; split; [reflexivity|exact I]].
        unfold in_flight; cbn [prog]. lia.
Qed.

Lemma run_preserves_accounting (c0 : Z) (sched : list nat)
    (s : Backend float64 * list goroutine) :
  accounting_inv c0 s -> accounting_inv c0 (run sched s).
Proof.
  revert s. induction sched as [|i sched IH]; intros s Hs; simpl; [exact Hs|].
  apply IH, step_preserves_accounting, Hs.
Qed.

Lemma step_length (i : nat) (s : Backend float64 * list goroutine) :
  length (step i s).2 = length s.2.
Proof.
  unfold step. destruct (s.2 !! i) as [g|]; [|reflexivity].
  destruct (step_goroutine s.1 g) as [b' g']. cbn [snd]. apply length_insert.
Qed.

Lemma run_length (sched : list nat) (s : Backend float64 * list goroutine) :
  length (run sched s).2 = length s.2.
Proof.
  revert s. induction sched as [|i sched IH]; intros s; [reflexivity|].
  simpl. rewrite IH. apply step_length.
Qed.

Lemma in_flight_total_finished gs :
  Forall (fun g => in_flight g = 0) gs -> in_flight_total gs = 0.
Proof.
  induction 1 as [|g gs Hg _ IH]; simpl; [reflexivity|]. lia.
Qed.

(** X19: goroutines that each serve requests on a backend (count up,
    proxy, count down), interleaved in any way: at every moment the
    connections gauge is its starting value plus the number of requests
    in flight, so it stays between the starting value and that plus the
    number of goroutines, the decrement never hits the floor, and once
    every goroutine has finished the gauge is back at its starting
    value. *)
Theorem requests_balanced b gs (sched : list nat) :
  0 <= GetConnections b ->
  GetConnections b + Z.of_nat (length gs) <= max_int64 ->
  Forall (fun g => exists n, prog g = request_calls n /\ at_pc g = AtCall) gs ->
  GetConnections (run sched (b, gs)).1
  = GetConnections b + in_flight_total (run sched (b, gs)).2
  /\ GetConnections b <= GetConnections (run sched (b, gs)).1
     <= GetConnections b + Z.of_nat (length gs)
  /\ (Forall (fun g => prog g = []) (run sched (b, gs)).2 ->
      GetConnections (run sched (b, gs)).1 = GetConnections b).
Proof.
  intros Hge Hfit Hall.
  assert (Hinit : accounting_inv (GetConnections b) (b, gs)).
  { split; [|split; [|split]]; cbn [fst snd]; try assumption.
    - rewrite in_flight_total_finished; [lia|].
      eapply Forall_impl; [exact Hall|].
      intros [pr p] (n & Hp & _). cbn [prog] in Hp. subst pr.
      apply in_flight_request_calls.
    - eapply Forall_impl; [exact Hall|]. intros g Hg. left. exact Hg. }
  destruct (run_preserves_accounting _ sched _ Hinit) as (Hc & Hserv & _ & Hlen).
  pose proof (in_flight_total_range (run sched (b, gs)).2) as Hr.
  pose proof (run_length sched (b, gs)) as Hsame. cbn [snd] in Hsame.
  split; [exact Hc|]. split; [rewrite Hsame in Hr; lia|].
  intros Hfin. rewrite Hc, in_flight_total_finished; [lia|].
  eapply Forall_impl; [exact Hfin|].
  intros g Hg. unfold in_flight. rewrite Hg. reflexivity.
Qed.

End ConcurrentAccounting.

Lemma requests_balanced_witness :
  GetConnections
    (run [0; 1; 1; 0; 1; 0; 0; 1; 1]%nat
       (Sample.backend "b1" 100 5 0,
        [ {| prog := request_calls 1; at_pc := AtCall |};
          {| prog := request_calls 2; at_pc := AtCall |} ])).1
  = GetConnections (Sample.backend "b1" 100 5 0)
    + in_flight_total
        (run [0; 1; 1; 0; 1; 0; 0; 1; 1]%nat
           (Sample.backend "b1" 100 5 0,
            [ {| prog := request_calls 1; at_pc := AtCall |};
              {| prog := request_calls 2; at_pc := AtCall |} ])).2.
Proof.
  apply (requests_balanced (Sample.backend "b1" 100 5 0)
           [ {| prog := request_calls 1; at_pc := AtCall |};
             {| prog := request_calls 2; at_pc := AtCall |} ]).
  - vm_compute. intros E; discriminate E.
  - vm_compute. intros E; discriminate E.
  - repeat constructor; [exists 1%nat|exists 2%nat]; split; reflexivity.
Defined.

(** ** Defaults, loading and watching of the configuration *)

Section DefaultsProperties.

Context {float64 : Type}.
Implicit Types (cfg : Config float64) (backend : Backend float64)
  (rule : RoutingRule).






Lemma first_error_map {A B : Type} (check : B -> option error) (f : A -> B)
    (l : list A) :
  first_error check (List.map f l) = first_error (fun x => check (f x)) l.
Proof.
  induction l as [|x l IH]; simpl; [reflexivity|].
  destruct (check (f x)); [reflexivity|exact IH].
Qed.

Lemma first_error_ext {A : Type} (check check' : A -> option error) (l : list A) :
  (forall x, check x = check' x) -> first_error check l = first_error check' l.
Proof.
  intros H. induction l as [|x l IH]; simpl; [reflexivity|].
  rewrite H. destruct (check' x); [reflexivity|exact IH].
Qed.

Lemma map_lookup_defaults {V W : Type} (f : string * V -> W)
    (m : list (string * V)) (key : string) :
  map_lookup (List.map (fun entry => (entry.1, f entry)) m) key = None
  <-> map_lookup m key = None.
Proof.
  unfold map_lookup. induction m as [|[k v] m IH]; simpl;
    [split; reflexivity|].
  destruct (k =? key)%string; [split; discriminate|exact IH].
Qed.

(** X21: the defaults neither repair nor break a configuration:
    validateConfig gives the same answer after setDefaults as before,
    so loadConfig fails with exactly the error of the file as written
    (a missing port or host is not defaulted) and otherwise keeps the
    defaulted configuration. *)
Theorem setDefaults_validateConfig cfg :
  validateConfig (setDefaults cfg) = validateConfig cfg
  /\ loadConfig cfg
     = match validateConfig cfg with
       | Some err => inl err
       | None => inr (setDefaults cfg)
       end.
Proof.
  assert (H : validateConfig (setDefaults cfg) = validateConfig cfg).
  { unfold validateConfig. cbn [setDefaults Server SSL Backends Routing
      Server_Port].
    destruct ((Server_Port (Server cfg) <=? 0) || (65535 <? Server_Port (Server cfg)));
      [reflexivity|].
    destruct (SSL_Enabled (SSL cfg) && (CertFile (SSL cfg) =? "")%string);
      [reflexivity|].
    destruct (SSL_Enabled (SSL cfg) && (KeyFile (SSL cfg) =? "")%string);
      [reflexivity|].
    rewrite !first_error_map.
    rewrite (first_error_ext _ validateUpstream).
    2:{ intros [up bs]. cbn [fst snd]. unfold validateUpstream.
        rewrite length_map. destruct (length bs =? 0)%nat; [reflexivity|].
        rewrite first_error_map. apply first_error_ext. intros b. reflexivity. }
    destruct (first_error validateUpstream (Backends cfg)); [reflexivity|].
    apply first_error_ext. intros [n r]. cbn [fst snd].
    unfold validateRule, setDefaults. cbn [default_rule Rule_Upstream Backends].
    destruct (Rule_Upstream r =? "")%string; [reflexivity|].
    pose proof (map_lookup_defaults
                  (fun entry => List.map (default_backend entry.1) entry.2)
                  (Backends cfg) (Rule_Upstream r)) as Hl.
    destruct (map_lookup (Backends cfg) (Rule_Upstream r)) as [bs|].
    - destruct (map_lookup _ _); [reflexivity|].
      destruct Hl as [Hl _]. discriminate (Hl eq_refl).
    - destruct Hl as [_ Hl]. rewrite (Hl eq_refl). reflexivity. }
  split; [exact H|]. unfold loadConfig. rewrite H. reflexivity.
Qed.

End DefaultsProperties.

Section UpdateAndWatch.

Context {float64 : Type}.
Implicit Types (cfg : Config float64) (w : World float64).

Lemma notifyWatchers_lookup (ws : list (option (Config float64))) cfg (i : nat) :
  notifyWatchers ws cfg !! i
  = match ws !! i with
    | Some None => Some (Some cfg)
    | Some (Some kept) => Some (Some kept)
    | None => None
    end.
Proof.
  unfold notifyWatchers. revert i.
  induction ws as [|[c|] ws IH]; intros [|i]; simpl; try reflexivity; apply IH.
Qed.

(** X22: a valid candidate that can be written becomes the live
    configuration and the content of the manager's file, the other
    files and the path are untouched, and the notification does not
    block or overwrite: a watcher whose channel is empty gets the
    candidate, a watcher that has not yet taken the previous
    configuration keeps that one and misses this update. *)
Theorem UpdateConfig_success w cfg :
  validateConfig cfg = None ->
  (UpdateConfig WriteOk w cfg).1 = None
  /\ Manager_GetConfig (manager (UpdateConfig WriteOk w cfg).2) = cfg
  /\ configPath (manager (UpdateConfig WriteOk w cfg).2) = configPath (manager w)
  /\ disk (UpdateConfig WriteOk w cfg).2 !! configPath (manager w) = Some cfg
  /\ (forall path, path <> configPath (manager w) ->
        disk (UpdateConfig WriteOk w cfg).2 !! path = disk w !! path)
  /\ (forall i,
        watchers (manager (UpdateConfig WriteOk w cfg).2) !! i
        = match watchers (manager w) !! i with
          | Some None => Some (Some cfg)
          | Some (Some kept) => Some (Some kept)
          | None => None
          end).
Proof.
  intros Hv. unfold UpdateConfig. rewrite Hv. simpl.
  split; [reflexivity|]. split; [reflexivity|]. split; [reflexivity|].
  split; [apply lookup_insert_eq|].
  split; [intros path Hp; apply lookup_insert_ne; congruence|].
  apply notifyWatchers_lookup.
Qed.

(** X23: a watcher registered with WatchConfig receives the next
    successful update; if a second update follows before it has read
    its channel, the channel still holds the first configuration while
    GetConfig already returns the second. *)
Theorem watcher_keeps_first_update w cfg1 cfg2 :
  validateConfig cfg1 = None ->
  validateConfig cfg2 = None ->
  last (watchers (manager
          (UpdateConfig WriteOk
             {| manager := Manager_WatchConfig (manager w); disk := disk w |}
             cfg1).2))
  = Some (Some cfg1)
  /\ last (watchers (manager
             (UpdateConfig WriteOk
                (UpdateConfig WriteOk
                   {| manager := Manager_WatchConfig (manager w); disk := disk w |}
                   cfg1).2
                cfg2).2))
     = Some (Some cfg1)
  /\ Manager_GetConfig (manager
       (UpdateConfig WriteOk
          (UpdateConfig WriteOk
             {| manager := Manager_WatchConfig (manager w); disk := disk w |}
             cfg1).2
          cfg2).2)
     = cfg2.
Proof.
  intros H1 H2. unfold UpdateConfig. rewrite H1. simpl. rewrite H2. simpl.
  unfold notifyWatchers. rewrite !List.map_app. simpl.
  rewrite !last_snoc. auto.
Qed.

End UpdateAndWatch.

Lemma UpdateConfig_success_witness :
  (UpdateConfig WriteOk Sample.world
     (Sample.cfg [("default", [Sample.backend "b1" 100 0 500])]
                 [("default", Sample.rule "/" "default")])).1 = None
  /\ Manager_GetConfig
       (manager (UpdateConfig WriteOk Sample.world
          (Sample.cfg [("default", [Sample.backend "b1" 100 0 500])]
                      [("default", Sample.rule "/" "default")])).2)
     = Sample.cfg [("default", [Sample.backend "b1" 100 0 500])]
                  [("default", Sample.rule "/" "default")].
Proof.
  destruct (UpdateConfig_success Sample.world
              (Sample.cfg [("default", [Sample.backend "b1" 100 0 500])]
                          [("default", Sample.rule "/" "default")]) eq_refl)
    as (Hok & Hget & _).
  split; [exact Hok|exact Hget].
Defined.

Lemma watcher_keeps_first_update_witness :
  Manager_GetConfig (manager
    (UpdateConfig WriteOk
       (UpdateConfig WriteOk
          {| manager := Manager_WatchConfig (manager Sample.world);
             disk := disk Sample.world |}
          (Sample.cfg [("default", [Sample.backend "b1" 100 0 500])]
                      [("default", Sample.rule "/" "default")])).2
       (Sample.cfg [("default", [Sample.backend "b1" 100 0 250])]
                   [("default", Sample.rule "/" "default")])).2)
  = Sample.cfg [("default", [Sample.backend "b1" 100 0 250])]
               [("default", Sample.rule "/" "default")].
Proof.
  apply (watcher_keeps_first_update Sample.world
           (Sample.cfg [("default", [Sample.backend "b1" 100 0 500])]
                       [("default", Sample.rule "/" "default")])
           (Sample.cfg [("default", [Sample.backend "b1" 100 0 250])]
                       [("default", Sample.rule "/" "default")])
           eq_refl eq_refl).
Defined.

(** ** The monitor's counters *)

Lemma wrap64_add_sub (c : Z) : in_int64 c -> wrap64 (wrap64 (c + 1) + -1) = c.
Proof.
  unfold in_int64, min_int64, max_int64, wrap64. intros H.
  replace ((c + 1 + 2 ^ 63) mod 2 ^ 64 - 2 ^ 63 + -1 + 2 ^ 63)
    with ((c + 1 + 2 ^ 63) mod 2 ^ 64 - 1) by lia.
  rewrite Zminus_mod_idemp_l.
  replace (c + 1 + 2 ^ 63 - 1) with (c + 2 ^ 63) by lia.
  rewrite Z.mod_small; lia.
Qed.

(** X24: around every request handleRequest leaves the monitor's
    counter of active connections as it was, also across the int64
    overflow, and counts the request and its bytes only while sampling
    is enabled; EndConnection by itself has no floor: on a counter of 0
    it gives -1. *)
Theorem handleRequest_monitor_balanced (pm : PerformanceMonitor)
    (bytesSent bytesRecv : Z) :
  in_int64 (activeConnections pm) ->
  activeConnections (handleRequest_monitor pm bytesSent bytesRecv)
  = activeConnections pm
  /\ totalRequests (handleRequest_monitor pm bytesSent bytesRecv)
     = (if samplingEnabled pm then wrap64 (totalRequests pm + 1)
        else totalRequests pm)
  /\ totalBytesSent (handleRequest_monitor pm bytesSent bytesRecv)
     = (if samplingEnabled pm then wrap64 (totalBytesSent pm + bytesSent)
        else totalBytesSent pm)
  /\ (activeConnections pm = 0 -> activeConnections (EndConnection pm) = -1).
Proof.
  intros Hr. unfold handleRequest_monitor, RecordRequest, StartConnection,
    EndConnection.
  destruct (samplingEnabled pm) eqn:Hs; simpl; rewrite ?Hs; simpl;
    (split; [apply wrap64_add_sub, Hr|]);
    (split; [reflexivity|]); (split; [reflexivity|]);
    intros ->; reflexivity.
Qed.

Lemma handleRequest_monitor_balanced_witness :
  activeConnections
    (handleRequest_monitor
       {| totalRequests := 41; activeConnections := max_int64;
          totalBytesSent := 1000; totalBytesRecv := 10;
          samplingEnabled := true |} 512 64)
  = max_int64.
Proof.
  apply (handleRequest_monitor_balanced
           {| totalRequests := 41; activeConnections := max_int64;
              totalBytesSent := 1000; totalBytesRecv := 10;
              samplingEnabled := true |} 512 64).
  vm_compute. split; intros E; discriminate E.
Defined.

(** ** Instances of the client IP and update lemmas *)

Lemma getClientIP_real_ip_header_witness :
  Server_getClientIP (Sample.cfg [] [])
    (Sample.ctx "/" [("X-Real-IP", "192.0.2.44");
                     ("X-Forwarded-For", "10.9.9.9, 1.1.1.1")] "203.0.113.9")
  = "192.0.2.44".
Proof.
  apply (getClientIP_real_ip_header (Sample.cfg [] [])
           (Sample.ctx "/" [("X-Real-IP", "192.0.2.44");
                            ("X-Forwarded-For", "10.9.9.9, 1.1.1.1")]
                       "203.0.113.9")).
  - discriminate.
  - discriminate.
Defined.

Lemma getClientIP_without_comma_witness :
  Server_getClientIP (Sample.cfg [] [])
    (Sample.ctx "/" [("X-Forwarded-For", "198.51.100.2")] "10.0.0.1")
  = "10.0.0.1".
Proof.
  apply (getClientIP_without_comma (Sample.cfg [] [])
           (Sample.ctx "/" [("X-Forwarded-For", "198.51.100.2")] "10.0.0.1")).
  - right. reflexivity.
  - vm_compute. intros E; discriminate E.
Defined.

Lemma handleUpdateBackend_live_view_witness :
  let s := Sample.server [("default", Sample.rule "/" "default")]
                         (Sample.backend "b1" 100 0 1000) in
  let r := {| Method := "PUT"; Body := UpdateBackendReq "default" "b1" 500 |} in
  match UpstreamManager_GetUpstream (upstreamMgr s) "default" with
  | None => Server_handleUpdateBackend s r = (HttpError "upstream not found" 404, s)
  | Some upstream =>
      (Server_handleUpdateBackend s r = (HttpError "backend not found" 404, s)
       /\ forall p backend,
            p ∈ Upstream_GetBackends (heap s) upstream ->
            heap s !! p = Some backend -> ID backend <> "b1")
      \/ (exists before p after backend,
            Upstream_GetBackends (heap s) upstream = (before ++ p :: after)%list
            /\ (forall q b, q ∈ before -> heap s !! q = Some b -> ID b <> "b1")
            /\ p ∈ Upstream_GetBackends (heap s) upstream
            /\ heap s !! p = Some backend /\ ID backend = "b1"
            /\ (Server_handleUpdateBackend s r).1
               = JsonOk true "Backend updated successfully"
            /\ heap (Server_handleUpdateBackend s r).2
               = <[p := with_MaxConn backend 500]> (heap s)
            /\ heap (Server_handleUpdateBackend s r).2 !! p
               = Some (with_MaxConn backend 500)
            /\ p ∈ Upstream_GetBackends (heap (Server_handleUpdateBackend s r).2)
                   upstream)
  end.
Proof.
  intros s.
  apply (handleUpdateBackend_live_view s "default" "b1" 500); discriminate.
Defined.

(** ** The headers of the proxied request *)

Section ProxyHeaders.

Context {float64 : Type} {GN : GoNet}.
Implicit Types (cfg : Config float64) (ctx : RequestCtx)
  (headers : list (string * string)).

Lemma Header_Peek_Set_eq headers (key value : string) :
  Header_Peek (Header_Set headers key value) key = value.
Proof.
  unfold Header_Peek.
  induction headers as [|[k v] rest IH]; simpl.
  - rewrite String.eqb_refl. reflexivity.
  - destruct (String.eqb_spec k key) as [->|Hk]; simpl.
    + rewrite String.eqb_refl. reflexivity.
    + destruct (String.eqb_spec k key); [contradiction|]. exact IH.
Qed.

Lemma Header_Peek_Set_ne headers (key other value : string) :
  other <> key ->
  Header_Peek (Header_Set headers key value) other = Header_Peek headers other.
Proof.
  intros Hne. unfold Header_Peek.
  induction headers as [|[k v] rest IH]; simpl.
  - destruct (String.eqb_spec key other); [congruence|reflexivity].
  - destruct (String.eqb_spec k key) as [->|Hk]; simpl.
    + destruct (String.eqb_spec key other); [congruence|reflexivity].
    + destruct (String.eqb_spec k other); [reflexivity|exact IH].
Qed.

(** X25: the request that setProxyHeaders prepares for the backend
    always carries X-Forwarded-Host with the request's host and
    X-Forwarded-Proto with "http" or "https" by the connection, also
    when the client sent these headers itself; the configured real-IP
    header carries the resolved client IP; X-Forwarded-For is the
    inbound value followed by ", " and the client IP, or the client IP
    alone when there was none, unless the real-IP header is configured
    to be X-Forwarded-For itself, in which case it is the client IP
    alone; every other header goes through unchanged. *)
Theorem setProxyHeaders_headers cfg ctx (host : string) :
  Header_Peek (Server_setProxyHeaders cfg ctx host) "X-Forwarded-Host" = host
  /\ Header_Peek (Server_setProxyHeaders cfg ctx host) "X-Forwarded-Proto"
     = Server_getProto ctx
  /\ (RealIPHeader (Server cfg) <> "" ->
      RealIPHeader (Server cfg) <> "X-Forwarded-Proto" ->
      RealIPHeader (Server cfg) <> "X-Forwarded-Host" ->
      Header_Peek (Server_setProxyHeaders cfg ctx host) (RealIPHeader (Server cfg))
      = Server_getClientIP cfg ctx)
  /\ (RealIPHeader (Server cfg) <> "X-Forwarded-For" ->
      Header_Peek (Server_setProxyHeaders cfg ctx host) "X-Forwarded-For"
      = if (Header_Peek (ctx_Headers ctx) "X-Forwarded-For" =? "")%string
        then Server_getClientIP cfg ctx
        else (Header_Peek (ctx_Headers ctx) "X-Forwarded-For" ++ ", "
              ++ Server_getClientIP cfg ctx)%string)
  /\ (RealIPHeader (Server cfg) = "X-Forwarded-For" ->
      Header_Peek (Server_setProxyHeaders cfg ctx host) "X-Forwarded-For"
      = Server_getClientIP cfg ctx)
  /\ (forall key : string,
        key <> "X-Forwarded-For" -> key <> RealIPHeader (Server cfg) ->
        key <> "X-Forwarded-Proto" -> key <> "X-Forwarded-Host" ->
        Header_Peek (Server_setProxyHeaders cfg ctx host) key
        = Header_Peek (ctx_Headers ctx) key).
Proof.
  unfold Server_setProxyHeaders.
  set (clientIP := Server_getClientIP cfg ctx).
  set (existing := Header_Peek (ctx_Headers ctx) "X-Forwarded-For").
  set (h1 := if (0 <? String.length existing)%nat
             then Header_Set (ctx_Headers ctx) "X-Forwarded-For"
                    (existing ++ ", " ++ clientIP)%string
             else Header_Set (ctx_Headers ctx) "X-Forwarded-For" clientIP).
  set (h2 := if negb (RealIPHeader (Server cfg) =? "")%string
             then Header_Set h1 (RealIPHeader (Server cfg)) clientIP else h1).
  assert (Hfor : Header_Peek h1 "X-Forwarded-For"
                 = if (existing =? "")%string then clientIP
                   else (existing ++ ", " ++ clientIP)%string).
  { subst h1. destruct existing as [|a rest]; simpl (0 <? _)%nat; cbn [String.eqb];
      apply Header_Peek_Set_eq. }
  assert (Hother : forall key : string, key <> "X-Forwarded-For" ->
                     Header_Peek h1 key = Header_Peek (ctx_Headers ctx) key).
  { intros key Hk. subst h1. destruct (0 <? String.length existing)%nat;
      apply Header_Peek_Set_ne, Hk. }
  split; [apply Header_Peek_Set_eq|].
  split.
  { rewrite Header_Peek_Set_ne by discriminate. apply Header_Peek_Set_eq. }
  split.
  { intros Hne Hp Hh.
    rewrite !Header_Peek_Set_ne by assumption.
    subst h2. destruct (String.eqb_spec (RealIPHeader (Server cfg)) "");
      [contradiction|]. apply Header_Peek_Set_eq. }
  split.
  { intros Hne. rewrite !Header_Peek_Set_ne by discriminate.
    subst h2. destruct (negb (RealIPHeader (Server cfg) =? "")%string).
    - rewrite Header_Peek_Set_ne by congruence. exact Hfor.
    - exact Hfor. }
  split.
  { intros Heq. rewrite !Header_Peek_Set_ne by discriminate.
    subst h2. rewrite Heq. cbn [negb String.eqb Ascii.eqb Bool.eqb].
    apply Header_Peek_Set_eq. }
  intros key Hfor' Hreal Hproto Hhost.
  rewrite !Header_Peek_Set_ne by assumption.
  subst h2. destruct (negb (RealIPHeader (Server cfg) =? "")%string).
  - rewrite Header_Peek_Set_ne by assumption. apply Hother, Hfor'.
  - apply Hother, Hfor'.
Qed.

End ProxyHeaders.
